(** * Mothics: recorder ([Track]) and metadata index ([Database])

    A shallow embedding of [src/mothics/track.py] and
    [src/mothics/database.py].  Python objects mutated in place become
    explicit state, exceptions become a [result], and the filesystem, the
    wall clock and the logger become a [world] that every operation threads
    through.  Floating-point expressions of the source are evaluated with the
    binary64 instance of the Standard Library's [SpecFloat]. *)

From Stdlib Require Import ZArith List Bool Lia Ascii String.
From Stdlib Require Import Floats.SpecFloat.
From Stdlib Require Import DecimalString.
From stdpp Require Import base gmap sets list strings.

Local Open Scope Z_scope.
Set Warnings "-register-all".

(** ** Python exceptions and results *)

Inductive exn : Type :=
| ValueError (msg : string)
| RuntimeError (msg : string)
| TypeError
| AttributeError
| UnboundLocalError
| OSError
| IndexError
| KeyError
| ZeroDivisionError
| OverflowError
| JSONDecodeError
| UnicodeDecodeError
| KeyboardInterrupt.

(** [except Exception] catches every class below [Exception];
    [KeyboardInterrupt] derives from [BaseException] only. *)
Definition is_Exception (e : exn) : bool :=
  match e with
  | KeyboardInterrupt => false
  | _ => true
  end.

Inductive result (A : Type) : Type :=
| Ok (a : A)
| Raise (e : exn).
Arguments Ok {A} a.
Arguments Raise {A} e.

Definition is_ok {A} (r : result A) : bool :=
  match r with Ok _ => true | Raise _ => false end.

(** Computations over a mutable state [S]: the state reached so far is kept
    when an exception propagates, as attribute updates are in Python. *)
Definition M (S A : Type) : Type := S -> S * result A.

Definition ret {S A} (a : A) : M S A := fun s => (s, Ok a).
Definition raise {S A} (e : exn) : M S A := fun s => (s, Raise e).
Definition bind {S A B} (m : M S A) (k : A -> M S B) : M S B :=
  fun s => match m s with
           | (s', Ok a) => k a s'
           | (s', Raise e) => (s', Raise e)
           end.
Definition get {S} : M S S := fun s => (s, Ok s).
Definition modify {S} (f : S -> S) : M S unit := fun s => (f s, Ok tt).
Definition lift {S A} (r : result A) : M S A := fun s => (s, r).

(** [try: body except Exception: handler] *)
Definition try_except {S A} (body : M S A) (handler : exn -> M S A) : M S A :=
  fun s => match body s with
           | (s', Ok a) => (s', Ok a)
           | (s', Raise e) => if is_Exception e then handler e s' else (s', Raise e)
           end.

Notation "'do' x <- m ; k" := (bind m (fun x => k))
  (at level 10, x name, m at level 100, k at level 200).
Notation "'run' m ; k" := (bind m (fun _ => k))
  (at level 10, m at level 100, k at level 200).

(** ** binary64 arithmetic, as Python's [float] *)

Module F64.

Definition prec : Z := 53.
Definition emax : Z := 1024.

Definition zero : spec_float := S754_zero false.
Definition one : spec_float := S754_finite false 4503599627370496 (-52).

(** [float(n)] for an integer [n]. *)
Definition of_int (n : Z) : spec_float := binary_normalize prec emax n 0 false.

Definition mul : spec_float -> spec_float -> spec_float := SFmul prec emax.
Definition div : spec_float -> spec_float -> spec_float := SFdiv prec emax.
Definition ltb : spec_float -> spec_float -> bool := SFltb.

(** [a / b] on two ints (true division); equal to the quotient of the two
    conversions as long as both are below [2^53]. *)
Definition truediv (a b : Z) : result spec_float :=
  if b =? 0 then Raise ZeroDivisionError
  else Ok (div (of_int a) (of_int b)).

(** [int(x)]: truncation towards zero. *)
Definition to_int (x : spec_float) : result Z :=
  match x with
  | S754_zero _ => Ok 0
  | S754_finite s m e =>
      let a := match e with
               | Zneg p => Z.shiftr (Zpos m) (Zpos p)
               | _ => Z.shiftl (Zpos m) e
               end in
      Ok (if s then - a else a)
  | S754_infinity _ => Raise OverflowError
  | S754_nan => Raise (ValueError "cannot convert float NaN to integer")
  end.

(** The builtins [min(a, b)] and [max(a, b)]: the first argument is kept
    unless the second compares strictly below (above) it. *)
Definition min (a b : spec_float) : spec_float := if ltb b a then b else a.
Definition max (a b : spec_float) : spec_float := if ltb a b then b else a.

(** Rounding to nearest, ties to even, of [P / 2^k] and of [N / D]; the
    reference the library's shift-and-round is compared with. *)
Definition rne_shift (P : Z) (k : Z) : Z :=
  let q := P / 2 ^ k in
  let rho := P mod 2 ^ k in
  match 2 * rho ?= 2 ^ k with
  | Lt => q
  | Eq => if Z.even q then q else q + 1
  | Gt => q + 1
  end.

Definition rne_div (N D : Z) : Z :=
  let q := N / D in
  let r := N mod D in
  match 2 * r ?= D with
  | Lt => q
  | Eq => if Z.even q then q else q + 1
  | Gt => q + 1
  end.

Definition sf_eqb (x y : spec_float) : bool :=
  match x, y with
  | S754_finite s m e, S754_finite s' m' e' =>
      Bool.eqb s s' && Pos.eqb m m' && Z.eqb e e'
  | _, _ => false
  end.

(** [max(0.0, min(fraction, 1.0))] *)
Definition clamp01 (fraction : spec_float) : spec_float := max zero (min fraction one).

(** [(n - 1) / n] clamped, and [n * ((n - 1) / n)] against [n - 1], at the
    power of two [n = 2^j]. *)
Definition pow2_case (j : nat) : bool :=
  let n := 2 ^ Z.of_nat j in
  let q := div (of_int (n - 1)) (of_int n) in
  sf_eqb (clamp01 q) q && sf_eqb (mul (of_int n) q) (of_int (n - 1)).

End F64.

(** ** Python sequences and strings *)

Section Slices.
Context {A : Type}.

(** Normalisation of one bound of [l[start:stop]] for a list of length
    [n]: negative bounds count from the end, and everything is clamped. *)
Definition clamp_index (n : Z) (i : Z) : Z :=
  if i <? 0 then Z.max 0 (i + n) else Z.min i n.

Definition slice_bounds (n : Z) (start stop : option Z) : Z * Z :=
  (from_option (clamp_index n) 0 start, from_option (clamp_index n) n stop).

(** [l[start:stop]] *)
Definition py_slice (start stop : option Z) (l : list A) : list A :=
  let '(a, b) := slice_bounds (Z.of_nat (length l)) start stop in
  take (Z.to_nat (b - a)) (drop (Z.to_nat a) l).

(** [del l[start:stop]] *)
Definition py_del_slice (start stop : Z) (l : list A) : list A :=
  let '(a, b) := slice_bounds (Z.of_nat (length l)) (Some start) (Some stop) in
  if a <? b then take (Z.to_nat a) l ++ drop (Z.to_nat b) l else l.

(** [l.sort(key=key)]: a stable insertion sort. *)
Fixpoint insert_by (key : A -> Z) (x : A) (l : list A) : list A :=
  match l with
  | [] => [x]
  | y :: l' => if key x <=? key y then x :: y :: l' else y :: insert_by key x l'
  end.

Fixpoint sort_by (key : A -> Z) (l : list A) : list A :=
  match l with
  | [] => []
  | x :: l' => insert_by key x (sort_by key l')
  end.

(** [for x in l: body(x)] *)
Fixpoint for_each {S : Type} (l : list A) (body : A -> M S unit) : M S unit :=
  match l with
  | [] => ret tt
  | x :: l' => run body x; for_each l' body
  end.

End Slices.

(** A [dict] keyed by strings, in insertion order. *)
Section Dicts.
Context {V : Type}.

Fixpoint dict_get (k : string) (d : list (string * V)) : option V :=
  match d with
  | [] => None
  | (k', v) :: d' => if String.eqb k k' then Some v else dict_get k d'
  end.

(** [d[k] = v]: an existing key keeps its position. *)
Fixpoint dict_set (k : string) (v : V) (d : list (string * V)) : list (string * V) :=
  match d with
  | [] => [(k, v)]
  | (k', v') :: d' =>
      if String.eqb k k' then (k, v) :: d' else (k', v') :: dict_set k v d'
  end.

Fixpoint dict_del (k : string) (d : list (string * V)) : list (string * V) :=
  match d with
  | [] => []
  | (k', v') :: d' => if String.eqb k k' then d' else (k', v') :: dict_del k d'
  end.

Definition dict_keys (d : list (string * V)) : list string := map fst d.

Definition dict_mem (k : string) (d : list (string * V)) : bool :=
  bool_decide (is_Some (dict_get k d)).

End Dicts.

(** [s.endswith(suf)] *)
Fixpoint ends_with (suf s : string) : bool :=
  String.eqb s suf ||
  match s with
  | EmptyString => false
  | String _ s' => ends_with suf s'
  end.

(** [s.replace(pat, "")] for a non-empty [pat]: [skip] counts the characters
    of a matched occurrence still to drop. *)
Fixpoint remove_go (pat : string) (skip : nat) (s : string) : string :=
  match s with
  | EmptyString => EmptyString
  | String c s' =>
      match skip with
      | S k => remove_go pat k s'
      | O => if String.prefix pat s
             then remove_go pat (String.length pat - 1) s'
             else String c (remove_go pat 0 s')
      end
  end.

Definition str_remove (pat s : string) : string := remove_go pat 0 s.

(** Index of the last ["."] of [s], if any ([s.rfind(".")]). *)
Fixpoint rfind_dot (i : nat) (s : string) : option nat :=
  match s with
  | EmptyString => None
  | String c s' =>
      match rfind_dot (S i) s' with
      | Some j => Some j
      | None => if Ascii.eqb c "."%char then Some i else None
      end
  end.

(** [pathlib.PurePath.stem]: the name without its last suffix; a leading or
    a trailing dot starts no suffix. *)
Definition stem (name : string) : string :=
  match rfind_dot 0 name with
  | Some i =>
      if (0 <? i)%nat && (i <? String.length name - 1)%nat
      then String.substring 0 i name else name
  | None => name
  end.

(** ** [datetime] *)

(** A naive [datetime.datetime]. *)
Record datetime : Type := mk_datetime {
  year : Z; month : Z; day : Z;
  hour : Z; minute : Z; second : Z; microsecond : Z
}.

Definition is_leap (y : Z) : bool :=
  (y mod 4 =? 0) && (negb (y mod 100 =? 0) || (y mod 400 =? 0)).

Definition days_in_month (y m : Z) : Z :=
  if (m =? 2) && is_leap y then 29
  else nth (Z.to_nat m) [0; 31; 28; 31; 30; 31; 30; 31; 31; 30; 31; 30; 31] 0.

Definition days_before_month (y m : Z) : Z :=
  nth (Z.to_nat m) [0; 0; 31; 59; 90; 120; 151; 181; 212; 243; 273; 304; 334] 0
  + (if (2 <? m) && is_leap y then 1 else 0).

Definition days_before_year (y : Z) : Z :=
  let y := y - 1 in y * 365 + y / 4 - y / 100 + y / 400.

(** The range checks of the [datetime] constructor. *)
Definition valid_datetime (t : datetime) : bool :=
  (1 <=? year t) && (year t <=? 9999) &&
  (1 <=? month t) && (month t <=? 12) &&
  (1 <=? day t) && (day t <=? days_in_month (year t) (month t)) &&
  (0 <=? hour t) && (hour t <? 24) &&
  (0 <=? minute t) && (minute t <? 60) &&
  (0 <=? second t) && (second t <? 60) &&
  (0 <=? microsecond t) && (microsecond t <? 1000000).

Definition toordinal (t : datetime) : Z :=
  days_before_year (year t) + days_before_month (year t) (month t) + day t.

(** Microseconds since the start of the proleptic calendar. *)
Definition total_microseconds (t : datetime) : Z :=
  ((toordinal t * 86400 + hour t * 3600 + minute t * 60 + second t) * 1000000)
  + microsecond t.

(** [(a - b).total_seconds()]: the microseconds over [10**6], exact in the
    conversion as long as the two are less than [2^53] microseconds apart. *)
Definition total_seconds_between (a b : datetime) : spec_float :=
  F64.div (F64.of_int (total_microseconds a - total_microseconds b))
          (F64.of_int 1000000).

(** *** Formatting and parsing *)

Definition digit_char (d : Z) : ascii := ascii_of_nat (48 + Z.to_nat d).

Definition digit_val (c : ascii) : option Z :=
  let n := Z.of_nat (nat_of_ascii c) in
  if (48 <=? n) && (n <=? 57) then Some (n - 48) else None.

(** The [k] low decimal digits of [n], most significant first ([%0kd] for
    [0 <= n < 10^k]). *)
Fixpoint pad (k : nat) (n : Z) : string :=
  match k with
  | O => EmptyString
  | S k' => String (digit_char ((n / 10 ^ Z.of_nat k') mod 10)) (pad k' n)
  end.

Fixpoint parse_digits (k : nat) (acc : Z) (s : string) : option (Z * string) :=
  match k with
  | O => Some (acc, s)
  | S k' =>
      match s with
      | String c s' =>
          match digit_val c with
          | Some d => parse_digits k' (acc * 10 + d) s'
          | None => None
          end
      | EmptyString => None
      end
  end.

Definition expect (c : ascii) (s : string) : option string :=
  match s with
  | String c' s' => if Ascii.eqb c c' then Some s' else None
  | EmptyString => None
  end.

Definition any_char (s : string) : option string :=
  match s with
  | String _ s' => Some s'
  | EmptyString => None
  end.

(** [t.isoformat(sep)]; [str(t)] is [t.isoformat(" ")]. *)
Definition isoformat (sep : ascii) (t : datetime) : string :=
  pad 4 (year t) +:+ "-" +:+ pad 2 (month t) +:+ "-" +:+ pad 2 (day t) +:+
  String sep
    (pad 2 (hour t) +:+ ":" +:+ pad 2 (minute t) +:+ ":" +:+ pad 2 (second t) +:+
     (if microsecond t =? 0 then "" else "." +:+ pad 6 (microsecond t))).

Definition datetime_str (t : datetime) : string := isoformat " " t.

(** [t.strftime("%Y%m%d-%H%M%S")], for a year of four digits (the C
    library does not pad a smaller one). *)
Definition strftime (t : datetime) : string :=
  pad 4 (year t) +:+ pad 2 (month t) +:+ pad 2 (day t) +:+ "-" +:+
  pad 2 (hour t) +:+ pad 2 (minute t) +:+ pad 2 (second t).

(** The fractional part accepted after the seconds: none, or six digits. *)
Definition parse_fraction (s : string) : option Z :=
  match s with
  | EmptyString => Some 0
  | String c s' =>
      if Ascii.eqb c "."%char then
        match parse_digits 6 0 s' with
        | Some (us, EmptyString) => Some us
        | _ => None
        end
      else None
  end.

Definition parse_isoformat (s : string) : option datetime :=
  '(y, s) ← parse_digits 4 0 s;
  s ← expect "-" s;
  '(mo, s) ← parse_digits 2 0 s;
  s ← expect "-" s;
  '(d, s) ← parse_digits 2 0 s;
  s ← any_char s;
  '(h, s) ← parse_digits 2 0 s;
  s ← expect ":" s;
  '(mi, s) ← parse_digits 2 0 s;
  s ← expect ":" s;
  '(sec, s) ← parse_digits 2 0 s;
  us ← parse_fraction s;
  Some (mk_datetime y mo d h mi sec us).

(** [datetime.fromisoformat(s)], on the forms [isoformat] produces for a
    naive value. *)
Definition fromisoformat (s : string) : result datetime :=
  match parse_isoformat s with
  | Some t =>
      if valid_datetime t then Ok t
      else Raise (ValueError "datetime field out of range")
  | None => Raise (ValueError "Invalid isoformat string")
  end.

(** ** Python values, files and the world *)

(** The values a sample field or a JSON document can hold. *)
Inductive pyval : Type :=
| VNone
| VBool (b : bool)
| VInt (z : Z)
| VFloat (f : spec_float)
| VStr (s : string)
| VList (l : list pyval)
| VDict (d : list (string * pyval)).

(** number, string, bool or null *)
Definition is_scalar (v : pyval) : bool :=
  match v with
  | VList _ | VDict _ => false
  | _ => true
  end.

Definition is_None (v : option pyval) : bool :=
  match v with
  | None | Some VNone => true
  | _ => false
  end.

(** One [<trkpt>] of a GPX file. *)
Record trkpt : Type := mk_trkpt {
  pt_lat : pyval; pt_lon : pyval; pt_ele : option pyval; pt_time : string
}.

(** What a file holds: the document [json.dump] wrote (and [json.load]
    reads back), the rows of a CSV file, the points of a GPX file, text
    that is not JSON, or bytes that do not decode as text. *)
Inductive content : Type :=
| CJson (v : pyval)
| CCsv (header : list string) (rows : list (list pyval))
| CGpx (pts : list trkpt)
| CRaw (s : string)
| CBinary.

Record file : Type := mk_file { f_content : content; f_mtime : Z }.

(** A path is a directory and a file name. *)
Abbreviation path := (string * string)%type (only parsing).

Record world : Type := mk_world {
  files : gmap (string * string) file;
  (** paths [open(p, "w")] fails on, and paths [os.remove] fails on *)
  unwritable : gset (string * string);
  undeletable : gset (string * string);
  (** successive readings of the wall clock, and how many were taken *)
  clock : nat -> datetime;
  tick : nat;
  (** records emitted through [logging], oldest first *)
  log : list (string * string)
}.

Definition set_files (fs : gmap (string * string) file) (w : world) : world :=
  mk_world fs (unwritable w) (undeletable w) (clock w) (tick w) (log w).

(** [datetime.now()] *)
Definition w_now : M world datetime :=
  fun w => (mk_world (files w) (unwritable w) (undeletable w) (clock w)
                     (S (tick w)) (log w),
            Ok (clock w (tick w))).

(** [logger.<level>(msg)] *)
Definition w_log (level msg : string) : M world unit :=
  fun w => (mk_world (files w) (unwritable w) (undeletable w) (clock w)
                     (tick w) (log w ++ [(level, msg)]),
            Ok tt).

(** [with open(p, "w") as f: <write c>] *)
Definition w_write (p : path) (c : content) : M world unit :=
  fun w =>
    if bool_decide (p ∈ unwritable w) then (w, Raise OSError)
    else (set_files (<[p := mk_file c (total_microseconds (clock w (tick w)))]> (files w)) w,
          Ok tt).

(** [open(p, "r")] *)
Definition w_read (p : path) : M world content :=
  fun w => match files w !! p with
           | Some f => (w, Ok (f_content f))
           | None => (w, Raise OSError)
           end.

(** [os.remove(p)] *)
Definition w_remove (p : path) : M world unit :=
  fun w => match files w !! p with
           | Some _ =>
               if bool_decide (p ∈ undeletable w) then (w, Raise OSError)
               else (set_files (delete p (files w)) w, Ok tt)
           | None => (w, Raise OSError)
           end.

Definition w_exists (p : path) (w : world) : bool :=
  bool_decide (is_Some (files w !! p)).

(** The entries of directory [d], as [(name, file)]. *)
Definition listdir (d : string) (w : world) : list (string * file) :=
  omap (fun '((d', n), f) => if String.eqb d' d then Some (n, f) else None)
       (map_to_list (files w)).

(** [glob.has_magic(s)]: one of the characters [*], [?], [[] occurs. *)
Definition has_magic (s : string) : bool :=
  existsb (fun c => Ascii.eqb c "*" || Ascii.eqb c "?" || Ascii.eqb c "[")
          (list_ascii_of_string s).

(** [glob.glob(os.path.join(d, "*" + suf))] for a directory [d] without
    glob metacharacters ([has_magic d = false]; with one, [glob] reads [d]
    as a pattern too): a leading dot is not matched by the star. *)
Definition glob_glob (d suf : string) (w : world) : list (string * file) :=
  filter (fun '(n, _) => ends_with suf n = true /\ String.prefix "." n = false)
         (listdir d w).

(** [Path(d).glob("*" + suf)] *)
Definition path_glob (d suf : string) (w : world) : list (string * file) :=
  filter (fun '(n, _) => ends_with suf n = true) (listdir d w).

(** ** [track.py]: samples and exporters *)

Record DataPoint : Type := mk_DataPoint {
  timestamp : datetime;
  input_data : list (string * pyval)
}.

(** Attribute lookup [getattr(dp, name)] on a [DataPoint]: the dataclass
    defines the two fields and [to_dict]. *)
Inductive attr : Type :=
| AttrTimestamp (t : datetime)
| AttrInputData (d : list (string * pyval))
| AttrMethod (name : string).

Definition DataPoint_getattr (dp : DataPoint) (name : string) : result attr :=
  if String.eqb name "timestamp" then Ok (AttrTimestamp (timestamp dp))
  else if String.eqb name "input_data" then Ok (AttrInputData (input_data dp))
  else if String.eqb name "to_dict" then Ok (AttrMethod "to_dict")
  else Raise AttributeError.

(** [dp.to_dict()] *)
Definition to_dict (dp : DataPoint) : list (string * pyval) :=
  fold_left (fun d '(k, v) => dict_set k v d) (input_data dp)
            [("timestamp", VStr (isoformat "T" (timestamp dp)))].

Record slice : Type := mk_slice { sl_start : option Z; sl_stop : option Z }.

(** [data_points[interval]] when an interval is given *)
Definition select (interval : option slice) (dps : list DataPoint) : list DataPoint :=
  match interval with
  | Some i => py_slice (sl_start i) (sl_stop i) dps
  | None => dps
  end.

(** [asdict(dp)] as [json.dump(..., default=str)] writes it *)
Definition json_of_DataPoint (dp : DataPoint) : pyval :=
  VDict [("timestamp", VStr (datetime_str (timestamp dp)));
         ("input_data", VDict (input_data dp))].

Definition export_to_json (data_points : option (list DataPoint)) (filename : path)
    (interval : option slice) (field_names : option (list string)) : M world unit :=
  match data_points with
  | None => raise (RuntimeError "no data points to save.")
  | Some dps =>
      let data_points_to_export := select interval dps in
      w_write filename (CJson (VList (map json_of_DataPoint data_points_to_export)))
  end.

(** One row of [csv.DictWriter]: a key outside the header is an error, a
    missing one is written as the empty string. *)
Definition csv_row (header : list string) (row : list (string * pyval)) : result (list pyval) :=
  if forallb (fun k => bool_decide (k ∈ header)) (dict_keys row)
  then Ok (map (fun k => default (VStr "") (dict_get k row)) header)
  else Raise (ValueError "dict contains fields not in fieldnames").

(** The rows written until a row is rejected, and the error that stopped
    the loop. *)
Fixpoint csv_rows (header : list string) (dps : list DataPoint)
    : list (list pyval) * option exn :=
  match dps with
  | [] => ([], None)
  | point :: dps' =>
      let row := fold_left (fun d '(k, v) => dict_set k v d) (input_data point)
                   [("timestamp", VStr (isoformat "T" (timestamp point)))] in
      match csv_row header row with
      | Raise e => ([], Some e)
      | Ok r => let '(rs, e) := csv_rows header dps' in (r :: rs, e)
      end
  end.

Definition export_to_csv (data_points : option (list DataPoint)) (filename : path)
    (interval : option slice) (field_names : option (list string)) : M world unit :=
  match data_points with
  | None => raise (RuntimeError "no data points to save.")
  | Some dps =>
      let data_points_to_export := select interval dps in
      do field_names <-
        (match field_names with
         | Some (f :: fs) => ret (f :: fs)
         | _ => match data_points_to_export with
                | dp :: _ => ret (dict_keys (input_data dp))
                | [] => raise IndexError
                end
         end);
      let header := "timestamp" :: field_names in
      let '(rows, failure) := csv_rows header data_points_to_export in
      run w_write filename (CCsv header rows);
      match failure with
      | Some e => raise e
      | None => ret tt
      end
  end.

(** [next((key for key in d if key.endswith(s1) or ...), None)] *)
Definition find_key (sufs : list string) (d : list (string * pyval)) : option string :=
  head (filter (fun k => existsb (fun s => ends_with s k) sufs = true) (dict_keys d)).

Definition dict_get_opt (k : option string) (d : list (string * pyval)) : option pyval :=
  match k with
  | Some k => dict_get k d
  | None => None
  end.

Definition gpx_point (dp : DataPoint) : option trkpt :=
  let lat := dict_get_opt (find_key ["lat"] (input_data dp)) (input_data dp) in
  let lon := dict_get_opt (find_key ["lon"; "long"] (input_data dp)) (input_data dp) in
  match lat, lon with
  | Some lat, Some lon =>
      if is_None (Some lat) || is_None (Some lon) then None
      else
        let alt := dict_get_opt (find_key ["alt"; "elev"; "altitude"] (input_data dp))
                                (input_data dp) in
        Some (mk_trkpt lat lon (if is_None alt then None else alt)
                       (isoformat "T" (timestamp dp)))
  | _, _ => None
  end.

Definition export_to_gpx (data_points : option (list DataPoint)) (filename : path)
    (interval : option slice) : M world unit :=
  match data_points with
  | None => raise (RuntimeError "no data points to save.")
  | Some dps =>
      let data_points_to_export := select interval dps in
      w_write filename (CGpx (omap gpx_point data_points_to_export))
  end.

(** What [Track.save] calls: [export(data_points, file_path, interval=interval)]. *)
Definition exporter : Type :=
  option (list DataPoint) -> path -> option slice -> M world unit.

Definition _export_methods (fmt : string) : option exporter :=
  if String.eqb fmt "json" then Some (fun d p i => export_to_json d p i None)
  else if String.eqb fmt "csv" then Some (fun d p i => export_to_csv d p i None)
  else if String.eqb fmt "gpx" then Some export_to_gpx
  else None.

Definition export_extensions : list string := ["json"; "csv"; "gpx"].

(** ** [track.py]: the recorder *)

Record Track : Type := mk_Track {
  data_points : list DataPoint;
  field_names : option (list string);
  mode : string;
  save_mode : string;
  checkpoint_interval : option Z;
  max_checkpoint_files : nat;
  output_dir : string;
  trim_fraction : spec_float;
  (** a count of samples; the default [1e5] is the integer 100000 *)
  max_datapoints : nat;
  preprocessors : list (DataPoint -> DataPoint);
  _replay_index : Z;
  _last_checkpoint : option datetime;
  _save_interval_start : option Z;
  checkpoint_dir : string
}.

Definition set_data_points (dps : list DataPoint) (t : Track) : Track :=
  mk_Track dps (field_names t) (mode t) (save_mode t) (checkpoint_interval t)
    (max_checkpoint_files t) (output_dir t) (trim_fraction t) (max_datapoints t)
    (preprocessors t) (_replay_index t) (_last_checkpoint t)
    (_save_interval_start t) (checkpoint_dir t).

Definition set_mode (m : string) (t : Track) : Track :=
  mk_Track (data_points t) (field_names t) m (save_mode t) (checkpoint_interval t)
    (max_checkpoint_files t) (output_dir t) (trim_fraction t) (max_datapoints t)
    (preprocessors t) (_replay_index t) (_last_checkpoint t)
    (_save_interval_start t) (checkpoint_dir t).

Definition set_save_mode (m : string) (t : Track) : Track :=
  mk_Track (data_points t) (field_names t) (mode t) m (checkpoint_interval t)
    (max_checkpoint_files t) (output_dir t) (trim_fraction t) (max_datapoints t)
    (preprocessors t) (_replay_index t) (_last_checkpoint t)
    (_save_interval_start t) (checkpoint_dir t).

Definition set_last_checkpoint (c : option datetime) (t : Track) : Track :=
  mk_Track (data_points t) (field_names t) (mode t) (save_mode t) (checkpoint_interval t)
    (max_checkpoint_files t) (output_dir t) (trim_fraction t) (max_datapoints t)
    (preprocessors t) (_replay_index t) c
    (_save_interval_start t) (checkpoint_dir t).

Definition set_save_interval_start (i : option Z) (t : Track) : Track :=
  mk_Track (data_points t) (field_names t) (mode t) (save_mode t) (checkpoint_interval t)
    (max_checkpoint_files t) (output_dir t) (trim_fraction t) (max_datapoints t)
    (preprocessors t) (_replay_index t) (_last_checkpoint t)
    i (checkpoint_dir t).

(** The recorder together with the world it acts on. *)
Abbreviation tstate := (Track * world)%type (only parsing).

Definition on_track (f : Track -> Track) : M tstate unit :=
  fun '(t, w) => ((f t, w), Ok tt).

Definition in_world {A} (m : M world A) : M tstate A :=
  fun '(t, w) => let '(w', r) := m w in ((t, w'), r).

Definition self : M tstate Track := fun '(t, w) => ((t, w), Ok t).

Definition len (dps : list DataPoint) : Z := Z.of_nat (length dps).

(** The [file_format] argument of [Track.save]: a string, a callable, any
    other hashable object, or an unhashable one (a list, a dict). *)
Inductive file_format : Type :=
| FmtStr (s : string)
| FmtCallable (f : exporter)
| FmtOther
| FmtUnhashable.

Definition hashable (fmt : file_format) : bool :=
  match fmt with
  | FmtUnhashable => false
  | _ => true
  end.

Definition save (fmt : file_format) (fname : option string) (out_dir : option string)
    (interval : option slice) : M tstate unit :=
  do fname <- (match fname with
               | Some f => ret f
               | None => do now <- in_world w_now; ret (strftime now)
               end);
  do t <- self;
  let out_dir := default (output_dir t) out_dir in
  (* strategy: [export] stays unbound in the last branch *)
  do export <- (match fmt with
                | FmtStr s =>
                    match _export_methods s with
                    | Some e => ret (Some e)
                    | None => run in_world (w_log "critical" "unsupported file format");
                              ret None
                    end
                | FmtCallable f => ret (Some f)
                | FmtOther => run in_world (w_log "critical" "unsupported file format");
                              ret None
                (* [file_format in self.export_methods] hashes its operand *)
                | FmtUnhashable => raise TypeError
                end);
  try_except
    (do ext <- (match fmt with
                | FmtStr s => ret s
                | _ => raise TypeError      (* [fname + '.' + file_format] *)
                end);
     let file_path := (out_dir, fname +:+ "." +:+ ext) in
     do export <- (match export with
                   | Some e => ret e
                   | None => raise UnboundLocalError
                   end);
     do t <- self;
     run in_world (export (Some (data_points t)) file_path interval);
     in_world (w_log "info" "saving track"))
    (fun e => in_world (w_log "critical" "error in saving track")).

Definition _remove_datapoints (start : Z) (fraction : spec_float) : M tstate unit :=
  do t <- self;
  match data_points t with
  | [] => in_world (w_log "warning" "no data points to clear")
  | _ =>
      let fraction := F64.clamp01 fraction in
      do num_to_remove <-
        lift (F64.to_int (F64.mul (F64.of_int (len (data_points t))) fraction));
      let start := Z.max 0 (Z.min start (len (data_points t) - 1)) in
      let end_ := Z.min (start + num_to_remove) (len (data_points t)) in
      run on_track (set_data_points (py_del_slice start end_ (data_points t)));
      in_world (w_log "info" "cleared data points")
  end.

Definition start_run : M tstate unit :=
  do t <- self;
  if String.eqb (save_mode t) "on-demand" then
    run on_track (set_save_mode "continuous");
    run on_track (set_save_interval_start (Some (len (data_points t) - 1)));
    run (if 0 <? len (data_points t) - 1
         then _remove_datapoints 0 (trim_fraction t)
         else ret tt);
    in_world (w_log "info" "logging data")
  else if String.eqb (save_mode t) "continuous" then
    in_world (w_log "warning" "cannot start track saving on demand")
  else ret tt.

(** ["-full.chk.json$"] *)
Definition is_full (name : string) : bool := ends_with "-full.chk.json" name.

(** The checkpoint files that count for retention, oldest first. *)
Definition chk_files (t : Track) (w : world) : list (string * file) :=
  sort_by (fun '(_, f) => f_mtime f)
    (filter (fun '(n, _) => is_full n = false) (glob_glob (checkpoint_dir t) ".chk.json" w)).

(** The body of the [if] of [_save_checkpoint]: stamp, slice and save. *)
Definition write_checkpoint (now : datetime) (specifier : option string) : M tstate unit :=
  run on_track (set_last_checkpoint (Some now));
  do t <- self;
  let interval := mk_slice (_save_interval_start t) (Some (len (data_points t) - 1)) in
  let fname := match specifier with
               | Some sp => (strftime now +:+ sp) +:+ ".chk"
               | None => strftime now +:+ ".chk"
               end in
  save (FmtStr "json") (Some fname) (Some (checkpoint_dir t)) (Some interval).

(** The retention step of [_save_checkpoint]: drop the oldest checkpoint
    that is not a [-full] one. *)
Definition prune_checkpoints : M tstate unit :=
  do s <- get;
  let '(t, w) := s in
  let files := chk_files t w in
  if (max_checkpoint_files t <? length files)%nat then
    match files with
    | (n, _) :: _ => in_world (w_remove (checkpoint_dir t, n))
    | [] => raise IndexError
    end
  else ret tt.

(** [last is None or (now - last).total_seconds() > every or force] *)
Definition checkpoint_due (t : Track) (every : Z) (now : datetime) (force : bool) : bool :=
  match _last_checkpoint t with
  | None => true
  | Some last => F64.ltb (F64.of_int every) (total_seconds_between now last) || force
  end.

Definition _save_checkpoint (force : bool) (specifier : option string) : M tstate unit :=
  do t <- self;
  match checkpoint_interval t with
  | Some every =>
      if String.eqb (save_mode t) "continuous" then
        do now <- in_world w_now;
        run (if checkpoint_due t every now force
             then write_checkpoint now specifier
             else ret tt);
        prune_checkpoints
      else ret tt
  | None => ret tt
  end.

Definition end_run : M tstate unit :=
  do t <- self;
  if negb (String.eqb (save_mode t) "on-demand") then
    let interval := mk_slice (_save_interval_start t) (Some (len (data_points t) - 1)) in
    run save (FmtStr "json") None None (Some interval);
    do s <- get;
    let chk_files_all := glob_glob (checkpoint_dir t) ".chk.json" (snd s) in
    let chk_files := filter (fun '(n, _) => is_full n = false) chk_files_all in
    run for_each chk_files (fun '(n, _) => in_world (w_remove (checkpoint_dir t, n)));
    run on_track (set_save_interval_start None);
    run on_track (set_last_checkpoint None);
    run on_track (set_save_mode "on-demand");
    in_world (w_log "info" "data logging ended")
  else in_world (w_log "warning" "cannot end track saving").

(** [set(self.field_names) != set(data.keys())] *)
Definition schema_mismatch (names : list string) (data : list (string * pyval)) : bool :=
  negb (bool_decide ((list_to_set names : gset string) = list_to_set (dict_keys data))).

(** [for processor in self.preprocessors: datapoint = processor(datapoint)] *)
Definition preprocess (t : Track) (datapoint : DataPoint) : DataPoint :=
  fold_left (fun dp processor => processor dp) (preprocessors t) datapoint.

Definition add_point (timestamp : datetime) (data : list (string * pyval)) : M tstate unit :=
  do t <- self;
  run (match field_names t with
       | Some names =>
           if schema_mismatch names data
           then raise (ValueError "inconsistent fields")
           else ret tt
       | None => ret tt
       end);
  run (if Z.of_nat (max_datapoints t) <? len (data_points t) then
         run in_world (w_log "warning" "maximum number of datapoints reached");
         run _save_checkpoint true (Some "-full");
         do t <- self;
         do fraction <- lift (F64.truediv (len (data_points t) - 1) (len (data_points t)));
         _remove_datapoints 0 fraction
       else ret tt);
  do t <- self;
  let datapoint := preprocess t (mk_DataPoint timestamp data) in
  run on_track (set_data_points (data_points t ++ [datapoint]));
  _save_checkpoint false None.

(** [for x in l: acc = body(acc, x)] *)
Fixpoint fold_m {S A B : Type} (body : B -> A -> M S B) (l : list A) (acc : B) : M S B :=
  match l with
  | [] => ret acc
  | x :: l' => do acc' <- body acc x; fold_m body l' acc'
  end.

Definition get_latest_data : M tstate (list DataPoint) :=
  do t <- self;
  match data_points t with
  | [] => ret []
  | _ =>
      do latest_data <-
        fold_m (fun latest dp =>
                  do data <- lift (DataPoint_getattr dp "data");
                  match data with
                  | AttrInputData d =>
                      ret (fold_left (fun acc '(field, _) => dict_set field dp acc) d latest)
                  | _ => raise AttributeError
                  end)
               (data_points t) [];
      ret (map snd latest_data)
  end.

(** [json.load(f)] on a file opened as text: reading bytes that do not
    decode raises [UnicodeDecodeError], which is no [JSONDecodeError]. *)
Definition json_load (c : content) : result pyval :=
  match c with
  | CJson v => Ok v
  | CBinary => Raise UnicodeDecodeError
  | _ => Raise JSONDecodeError
  end.

(** [iter(v)] *)
Definition py_iter (v : pyval) : result (list pyval) :=
  match v with
  | VList l => Ok l
  | VDict d => Ok (map (fun kv => VStr (fst kv)) d)
  | VStr s => Ok (map (fun c => VStr (String c EmptyString)) (list_ascii_of_string s))
  | _ => Raise TypeError
  end.

(** [v[key]] for a string key *)
Definition py_getitem (v : pyval) (key : string) : result pyval :=
  match v with
  | VDict d => match dict_get key d with
               | Some x => Ok x
               | None => Raise KeyError
               end
  | _ => Raise TypeError
  end.

(** [DataPoint(datetime.fromisoformat(dp["timestamp"]), dp["input_data"])] *)
Definition load_DataPoint (dp : pyval) : result DataPoint :=
  match py_getitem dp "timestamp" with
  | Raise e => Raise e
  | Ok ts =>
      match ts with
      | VStr s =>
          match fromisoformat s with
          | Raise e => Raise e
          | Ok t =>
              match py_getitem dp "input_data" with
              | Raise e => Raise e
              | Ok (VDict d) => Ok (mk_DataPoint t d)
              | Ok _ => Raise (ValueError "data must be a dictionary")
              end
          end
      | _ => Raise TypeError
      end
  end.

Fixpoint load_DataPoints (items : list pyval) : result (list DataPoint) :=
  match items with
  | [] => Ok []
  | dp :: items' =>
      match load_DataPoint dp with
      | Raise e => Raise e
      | Ok x => match load_DataPoints items' with
                | Raise e => Raise e
                | Ok xs => Ok (x :: xs)
                end
      end
  end.

Definition load (filename : path) : M tstate unit :=
  do c <- in_world (w_read filename);
  do data <- (match json_load c with
              | Ok v => ret v
              | Raise _ =>
                  run in_world (w_log "critical" "could not load file into a Track");
                  raise (RuntimeError "could not load file into a Track")
              end);
  do items <- lift (py_iter data);
  do dps <- lift (load_DataPoints items);
  run on_track (set_data_points dps);
  on_track (set_mode "replay").

(** ** [database.py]: the metadata index *)

(** A TinyDB document of the index: the ["filename"] every record carries,
    the [Path] object a pass stores under ["filepath"], if the record
    holds one, and its other keys. *)
Record doc : Type := mk_doc {
  d_filename : string;
  d_fields : gmap string pyval;
  d_filepath : option (string * string)
}.

(** [old.update(new)] *)
Definition doc_update (new old : doc) : doc :=
  mk_doc (d_filename new) (d_fields new ∪ d_fields old)
         (match d_filepath new with
          | Some p => Some p
          | None => d_filepath old
          end).

(** [json.dumps] accepts the record: a [Path] is not JSON serializable. *)
Definition serializable (d : doc) : bool :=
  match d_filepath d with
  | Some _ => false
  | None => true
  end.

(** The write calls made on the TinyDB table. *)
Inductive db_op : Type :=
| OpInsert (d : doc)
| OpUpdate (d : doc) (filename : string)
| OpRemove (filename : string)
| OpTruncate.

Record Database : Type := mk_Database {
  directory : string;
  db_fname : string;
  validation : bool;
  (** the five extractors of [MetadataExtractor], on a file name and the
      parsed document *)
  extractors : string -> pyval -> gmap string pyval;
  (** the TinyDB table as the caching middleware holds it in memory:
      documents by id, in insertion order *)
  db : list (nat * doc);
  db_next_id : nat;
  tracks : list doc;
  (** trace of the write calls made on the table, oldest first *)
  db_writes : list db_op;
  (** the caching middleware in front of the JSON storage: the writes
      since the last flush ([_cache_modified_count]), and the table the
      storage file holds, written through the handle opened with it *)
  db_unflushed : nat;
  db_stored : list (nat * doc)
}.

Definition checkpoint_directory (D : Database) : string := directory D +:+ "/chk".

Definition set_db (rows : list (nat * doc)) (next : nat) (op : db_op) (D : Database) : Database :=
  mk_Database (directory D) (db_fname D) (validation D) (extractors D)
    rows next (tracks D) (db_writes D ++ [op]) (db_unflushed D) (db_stored D).

Definition set_tracks (ts : list doc) (D : Database) : Database :=
  mk_Database (directory D) (db_fname D) (validation D) (extractors D)
    (db D) (db_next_id D) ts (db_writes D) (db_unflushed D) (db_stored D).

Definition set_unflushed (n : nat) (stored : list (nat * doc)) (D : Database) : Database :=
  mk_Database (directory D) (db_fname D) (validation D) (extractors D)
    (db D) (db_next_id D) (tracks D) (db_writes D) n stored.

Abbreviation dstate := (Database * world)%type (only parsing).

Definition on_db {A} (f : Database -> Database * A) : M dstate A :=
  fun '(D, w) => let '(D', a) := f D in ((D', w), Ok a).

Definition in_world_db {A} (m : M world A) : M dstate A :=
  fun '(D, w) => let '(w', r) := m w in ((D, w'), r).

Definition this : M dstate Database := fun '(D, w) => ((D, w), Ok D).

(** [db.all()] *)
Definition db_all (D : Database) : list doc := map snd (db D).

(** [CachingMiddleware.WRITE_CACHE_SIZE] *)
Definition WRITE_CACHE_SIZE : nat := 1000.

(** [self._storage.write(tables)], the last step of every table
    operation, on the table already changed: the middleware counts the
    write and, once the count has reached [WRITE_CACHE_SIZE], flushes.
    The flush serializes the whole table first: a record holding a [Path]
    makes [json.dumps] raise [TypeError], and the count stays as it is;
    otherwise the storage file takes the table and the count starts again.
    Writing the serialized text itself is taken to succeed. *)
Definition storage_write : M dstate unit :=
  fun '(D, w) =>
    let count := S (db_unflushed D) in
    if (WRITE_CACHE_SIZE <=? count)%nat then
      if forallb (fun row => serializable (snd row)) (db D)
      then ((set_unflushed 0 (db D) D, w), Ok tt)
      else ((set_unflushed count (db_stored D) D, w), Raise TypeError)
    else ((set_unflushed count (db_stored D) D, w), Ok tt).

(** [Table._update_table(updater)]: the table is changed in the cache and
    then written. *)
Definition _update_table {A} (updater : Database -> Database * A) : M dstate A :=
  do a <- on_db updater;
  run storage_write;
  ret a.

(** [db.insert(d)] *)
Definition db_insert (d : doc) : M dstate nat :=
  _update_table
    (fun D => (set_db (db D ++ [(db_next_id D, d)]) (S (db_next_id D)) (OpInsert d) D,
               db_next_id D)).

(** [db.update(d, Query().filename == name)]: the ids of the documents
    updated. *)
Definition db_update (d : doc) (name : string) : M dstate (list nat) :=
  _update_table
    (fun D =>
      (set_db (map (fun '(i, old) => if String.eqb (d_filename old) name
                                     then (i, doc_update d old) else (i, old)) (db D))
              (db_next_id D) (OpUpdate d name) D,
       map fst (filter (fun '(_, old) => d_filename old = name) (db D)))).

(** [db.remove(Query().filename == name)]: the ids of the documents
    removed. *)
Definition db_remove (name : string) : M dstate (list nat) :=
  _update_table
    (fun D =>
      (set_db (filter (fun '(_, old) => d_filename old <> name) (db D))
              (db_next_id D) (OpRemove name) D,
       map fst (filter (fun '(_, old) => d_filename old = name) (db D)))).

(** [TRACK_SCHEMA]: an array of objects with a string ["timestamp"] and an
    object ["input_data"] of numbers, strings, booleans and nulls. *)
Definition valid_item (it : pyval) : bool :=
  match it with
  | VDict d =>
      match dict_get "timestamp" d, dict_get "input_data" d with
      | Some (VStr _), Some (VDict fields) => forallb (fun kv => is_scalar (snd kv)) fields
      | _, _ => false
      end
  | _ => false
  end.

Definition validate_schema (v : pyval) : bool :=
  match v with
  | VList items => forallb valid_item items
  | _ => false
  end.

Definition validate_json (filepath : path) : M dstate bool :=
  do c <- in_world_db (w_read filepath);
  match json_load c with
  | Ok data =>
      if validate_schema data then ret true
      else run in_world_db (w_log "warning" "validation error"); ret false
  (* [except (json.JSONDecodeError, ValidationError)] *)
  | Raise JSONDecodeError =>
      run in_world_db (w_log "warning" "validation error"); ret false
  | Raise e => raise e
  end.

(** [self.extractor.extract_all(filepath)], without the keys ["filename"]
    and ["filepath"] the callers overwrite. *)
Definition extract_all (filepath : path) : M dstate (gmap string pyval) :=
  do D <- this;
  try_except
    (do c <- in_world_db (w_read filepath);
     do data <- lift (json_load c);
     ret (extractors D (snd filepath) data))
    (fun _ => run in_world_db (w_log "warning" "Error reading file"); ret ∅).

(** The name-to-mtime snapshot of the primary and checkpoint directories. *)
Definition found_files (D : Database) (w : world) : list (string * Z) :=
  let primary :=
    fold_left (fun acc '(n, f) => if String.eqb n (db_fname D) then acc
                                  else dict_set n (f_mtime f) acc)
              (path_glob (directory D) ".json" w) [] in
  fold_left (fun acc '(n, f) => dict_set n (f_mtime f) acc)
            (path_glob (checkpoint_directory D) ".chk.json" w) primary.

(** Export files of the primary directory, by stem. *)
Definition existing_exports (D : Database) (w : world) : list (string * list string) :=
  fold_left
    (fun acc ext =>
       fold_left (fun acc '(n, _) =>
                    dict_set (stem n) (default [] (dict_get (stem n) acc) ++ [ext]) acc)
                 (path_glob (directory D) ("." +:+ ext) w) acc)
    export_extensions [].

(** [v != m] for the stored value of a key and a modification time *)
Definition py_ne_mtime (v : option pyval) (m : Z) : bool :=
  match v with
  | Some (VInt z) => negb (z =? m)
  | Some (VBool b) => negb (Z.b2z b =? m)
  | Some (VFloat f) => negb (SFeqb f (F64.of_int m))
  | _ => true
  end.

Definition base_name (fname : string) : string :=
  str_remove ".json" (str_remove ".chk.json" fname).

(** The record stored for a new or modified file. *)
Definition build_meta (extracted : gmap string pyval) (fname : string) (full_path : path)
    (is_checkpoint : bool) (mtime : Z) (exports : list (string * list string)) : doc :=
  let fields :=
    <["mtime" := VInt mtime]> (<["checkpoint" := VBool is_checkpoint]> extracted) in
  mk_doc fname
    (match dict_get (base_name fname) exports with
     | Some exts => <["exports" := VList (map VStr exts)]> fields
     | None => fields
     end)
    (Some full_path).

(** Is the file new, or its modification time different from the stored
    one? *)
Definition is_dirty (db_track : option doc) (mtime : Z) : bool :=
  match db_track with
  | None => true
  | Some t => py_ne_mtime (d_fields t !! "mtime") mtime
  end.

Definition full_path_of (D : Database) (fname : string) : path :=
  if ends_with ".chk.json" fname then (checkpoint_directory D, fname)
  else (directory D, fname).

(** One turn of the loop over [found_files.items()]. *)
Definition sync_file (existing_tracks : list (string * doc))
    (exports : list (string * list string)) (entry : string * Z) : M dstate unit :=
  let '(fname, mtime) := entry in
  let db_track := dict_get fname existing_tracks in
  if is_dirty db_track mtime then
    do D <- this;
    let full_path := full_path_of D fname in
    let is_checkpoint := ends_with ".chk.json" fname in
    do valid <- validate_json full_path;
    if valid || negb (validation D) then
      do extracted <- extract_all full_path;
      let meta := build_meta extracted fname full_path is_checkpoint mtime exports in
      run (match db_track with
           | Some _ => run db_update meta fname; ret tt
           | None => run db_insert meta; ret tt
           end);
      in_world_db (w_log "info" "Updated DB entry")
    else ret tt
  else ret tt.

(** [{t["filename"]: t for t in self.db.all()}] *)
Definition existing_tracks_of (D : Database) : list (string * doc) :=
  fold_left (fun acc t => dict_set (d_filename t) t acc) (db_all D) [].

(** The loop that drops the records whose file is gone. *)
Definition drop_missing (found : list (string * Z)) (existing_tracks : list (string * doc))
    : M dstate (list (string * doc)) :=
  fold_m (fun existing db_filename =>
            if dict_mem db_filename found then ret existing
            else
              run in_world_db (w_log "info" "Removing entry from DB");
              run db_remove db_filename;
              ret (dict_del db_filename existing))
         (dict_keys existing_tracks) existing_tracks.

Definition load_tracks_incrementally : M dstate unit :=
  do s <- get;
  let '(D, w) := s in
  let existing_tracks := existing_tracks_of D in
  let found := found_files D w in
  do existing_tracks <- drop_missing found existing_tracks;
  let exports := existing_exports D w in
  run for_each found (sync_file existing_tracks exports);
  on_db (fun D => (set_tracks (db_all D) D, tt)).

(** The [track_id] argument: an index, a file name, or anything else. *)
Inductive track_id : Type :=
| IdInt (i : Z)
| IdStr (s : string)
| IdOther.

Definition get_track_path (id : track_id) : M dstate (option (string * string)) :=
  run on_db (fun D => (set_tracks (db_all D) D, tt));
  do s <- get;
  let '(D, w) := s in
  do track <-
    (match id with
     | IdInt i =>
         if (0 <=? i) && (i <? Z.of_nat (length (tracks D)))
         then ret (tracks D !! Z.to_nat i)
         else run in_world_db (w_log "warning" "invalid track index"); ret None
     | IdStr name =>
         match head (filter (fun t => d_filename t = name) (tracks D)) with
         | Some t => ret (Some t)
         | None => run in_world_db (w_log "warning" "track not found in DB"); ret None
         end
     | IdOther => run in_world_db (w_log "warning" "invalid identifier type"); ret None
     end);
  match track with
  | None => ret None
  | Some track =>
      let filename := d_filename track in
      let chk_path := (directory D +:+ "/chk", filename) in
      let is_chk := match d_fields track !! "checkpoint" with
                    | Some (VBool b) => b
                    | Some VNone | None => false
                    | Some (VInt z) => negb (z =? 0)
                    | Some (VStr s) => negb (String.eqb s "")
                    | Some (VList l) => negb (bool_decide (l = []))
                    | Some (VDict d) => negb (bool_decide (d = []))
                    | Some (VFloat f) => negb (SFeqb f F64.zero)
                    end in
      if is_chk && w_exists chk_path w then ret (Some chk_path)
      else if w_exists (directory D, filename) w then ret (Some (directory D, filename))
      else run in_world_db (w_log "warning" "File not found in expected directories");
           ret None
  end.

(** [l == n] for a list and an int, as in [removal_count == 0] on the list
    of ids TinyDB's [remove] returns: values of these two types are never
    equal. *)
Definition list_eq_int (l : list nat) (n : Z) : bool := false.

Definition remove_track (id : track_id) (delete_from_disk : bool) : M dstate unit :=
  do track_path <- get_track_path id;
  match track_path with
  | None =>
      run in_world_db (w_log "critical" "cannot remove track: track not found");
      raise (RuntimeError "cannot remove track: track not found")
  | Some track_path =>
      do removal_count <- db_remove (snd track_path);
      run (if list_eq_int removal_count 0 then
             run in_world_db (w_log "critical" "no database entries found for track");
             raise (RuntimeError "no database entries found for track")
           else ret tt);
      run on_db (fun D => (set_tracks (db_all D) D, tt));
      run (if delete_from_disk then
             fun s =>
               match in_world_db (w_remove track_path) s with
               | (s', Ok _) => in_world_db (w_log "info" "deleted track file") s'
               (* [except [Exception, OSError]]: matching an exception
                  against a list raises TypeError *)
               | (s', Raise _) => (s', Raise TypeError)
               end
           else ret tt);
      in_world_db (w_log "info" "successfully removed track")
  end.

(** ** Notions used in the statements *)

(** Same oracles and the same clock. *)
Definition same_env (w w' : world) : Prop :=
  unwritable w' = unwritable w /\ undeletable w' = undeletable w /\ clock w' = clock w.

Definition add_log (level msg : string) (w : world) : world :=
  mk_world (files w) (unwritable w) (undeletable w) (clock w) (tick w)
           (log w ++ [(level, msg)]).

(** An exporter that fails with an [Exception] only, and touches nothing
    but the files. *)
Definition exporter_ok (e : exporter) : Prop :=
  forall dps p i w, exists w' r,
    e (Some dps) p i w = (w', r)
    /\ (forall x, r = Raise x -> is_Exception x = true)
    /\ same_env w w' /\ tick w' = tick w /\ log w' = log w.

(** What [add_point] keeps of the buffer before it appends: the last
    sample when the buffer is over [max_datapoints], everything otherwise. *)
Definition kept_after_trim (t : Track) : list DataPoint :=
  if Z.of_nat (max_datapoints t) <? len (data_points t)
  then drop (Z.to_nat (len (data_points t) - 1)) (data_points t)
  else data_points t.

(** The schema check of [add_point] passes. *)
Definition schema_ok (t : Track) (data : list (string * pyval)) : Prop :=
  match field_names t with
  | Some names => schema_mismatch names data = false
  | None => True
  end.

(** [len(self.data_points) <= self.max_datapoints + 1] *)
Definition within_bound (t : Track) : Prop :=
  (length (data_points t) <= max_datapoints t + 1)%nat.

(** The states a sequence of [add_point] calls goes through, one per call,
    whatever each call returned or raised. *)
Fixpoint states_after (calls : list (datetime * list (string * pyval)))
    (s : Track * world) : list (Track * world) :=
  match calls with
  | [] => []
  | (ts, data) :: calls' =>
      let s' := fst (add_point ts data s) in
      s' :: states_after calls' s'
  end.

(** The name of the checkpoint file written at [now]. *)
Definition checkpoint_name (now : datetime) (specifier : option string) : string :=
  match specifier with
  | Some sp => (strftime now +:+ sp) +:+ ".chk"
  | None => strftime now +:+ ".chk"
  end +:+ "." +:+ "json".

(** The document of a checkpoint of [t]: the slice
    [data_points[_save_interval_start : len - 1]]. *)
Definition checkpoint_doc (t : Track) : content :=
  CJson (VList (map json_of_DataPoint
                    (py_slice (_save_interval_start t) (Some (len (data_points t) - 1))
                              (data_points t)))).

(** The records of file [g] in the table, in table order. *)
Definition docs_of (g : string) (rows : list (nat * doc)) : list doc :=
  filter (fun d => d_filename d = g) (map snd rows).

(** What [validate_json] returns or raises, from the files alone. *)
Definition check_file (p : string * string) (w : world) : result bool :=
  match files w !! p with
  | Some f =>
      match json_load (f_content f) with
      | Ok data => Ok (validate_schema data)
      | Raise JSONDecodeError => Ok false
      | Raise e => Raise e
      end
  | None => Raise OSError
  end.

(** A dirty file is (re)indexed: it validates, or validation is off. *)
Definition accepted (D : Database) (w : world) (fname : string) : bool :=
  match check_file (full_path_of D fname) w with
  | Ok v => v || negb (validation D)
  | Raise _ => false
  end.

(** A pass over [entries] with the records looked up by [look] writes
    nothing: up to the first file whose validation raises, every file is
    clean or dirty and not accepted. *)
Fixpoint steady (D : Database) (w : world) (look : string -> option doc)
    (entries : list (string * Z)) : Prop :=
  match entries with
  | [] => True
  | (f, m) :: rest =>
      if is_dirty (look f) m then
        match check_file (full_path_of D f) w with
        | Raise _ => True
        | Ok v => (v || negb (validation D)) = false /\ steady D w look rest
        end
      else steady D w look rest
  end.

(** What a pass stores for a file it (re)indexes: the snapshot's
    modification time, and the export extensions found for its stem. *)
Definition reindexed (exports : list (string * list string)) (f : string) (m : Z)
    (d : doc) : Prop :=
  d_filename d = f
  /\ d_fields d !! "mtime" = Some (VInt m)
  /\ forall exts, dict_get (base_name f) exports = Some exts ->
                  d_fields d !! "exports" = Some (VList (map VStr exts)).

(** The parts of the index no operation changes. *)
Definition same_config (D D' : Database) : Prop :=
  directory D' = directory D /\ db_fname D' = db_fname D
  /\ validation D' = validation D /\ extractors D' = extractors D.

(** The state a sync pass leaves, whether it returned or raised. *)
Definition after_sync (s : Database * world) : Database * world :=
  fst (load_tracks_incrementally s).

(** The record carries the export extensions found for its base name. *)
Definition exports_attached (exports : list (string * list string)) (d : doc) : Prop :=
  forall exts, dict_get (base_name (d_filename d)) exports = Some exts ->
               d_fields d !! "exports" = Some (VList (map VStr exts)).

(** Two recorders that differ at most in [_last_checkpoint]. *)
Definition same_but_checkpoint (t t' : Track) : Prop :=
  exists c, t' = set_last_checkpoint c t.


(** ** Sample values *)

Definition noon : datetime := mk_datetime 2024 1 2 12 0 0 0.

(** No file, a clock stopped at [noon], no log. *)
Definition quiet_world : world := mk_world ∅ ∅ ∅ (fun _ => noon) 0 [].

Definition sample (v : Z) : DataPoint := mk_DataPoint noon [("a", VInt v)].

(** [Track(max_datapoints=m, save_mode=sm)] holding [dps], all else default. *)
Definition track_of (m : nat) (sm : string) (names : option (list string))
    (dps : list DataPoint) : Track :=
  mk_Track dps names "live" sm (Some 120) 3 "data"
           (S754_finite false 4503599627370496 (-53)) m [] 0 None None "data/chk".

(** An index of [data/] holding [rows], validation on, no extractor output. *)
Definition index_of (rows : list (nat * doc)) : Database :=
  mk_Database "data" "tracks_metadata.json" true (fun _ _ => ∅)
              rows (S (length rows)) [] [] 0 [].

(** The track [a.json], modified at 5, and its export [a.csv]. *)
Definition track_world : world :=
  mk_world {[ ("data", "a.json") := mk_file (CJson (VList [])) 5;
              ("data", "a.csv") := mk_file (CCsv [] []) 7 ]}
           ∅ ∅ (fun _ => noon) 0 [].

(** The record of [a.json] as indexed before [a.csv] was written. *)
Definition clean_record : doc := mk_doc "a.json" {[ "mtime" := VInt 5 ]} None.




(** An empty index of [data/] whose cache has taken 999 writes since its
    last flush. *)
Definition full_cache_index : Database :=
  mk_Database "data" "tracks_metadata.json" true (fun _ _ => ∅) [] 1 [] [] 999 [].

(** Two tracks, [a.json] and [b.json]. *)
Definition two_tracks_world : world :=
  mk_world {[ ("data", "a.json") := mk_file (CJson (VList [])) 5;
              ("data", "b.json") := mk_file (CJson (VList [])) 6 ]}
           ∅ ∅ (fun _ => noon) 0 [].

(** ** [track.py]: the constructor and replay *)

(** The default [trim_fraction], [0.5]. *)
Definition default_trim_fraction : spec_float := S754_finite false 4503599627370496 (-53).

(** [os.path.join(a, b)] for a relative [b]. *)
Definition os_path_join (a b : string) : string :=
  if String.eqb a "" || ends_with "/" a then a +:+ b else a +:+ "/" +:+ b.

(** [Track(output_dir=out)], every other argument at its default. The two
    [os.makedirs(..., exist_ok=True)] calls are taken to succeed:
    directories are no objects of the world. *)
Definition Track_init (out : option string) : M world Track :=
  let output_dir := default "data" out in
  let checkpoint_dir := os_path_join output_dir "chk" in
  run w_log "info" "-------------Track-------------";
  run w_log "info" "output directory";
  run w_log "info" "checkpoint directory";
  ret (mk_Track [] None "live" "continuous" (Some 120) 3 output_dir
                default_trim_fraction (Z.to_nat 100000) [] 0 None None checkpoint_dir).

Definition set_field_names (names : option (list string)) (t : Track) : Track :=
  mk_Track (data_points t) names (mode t) (save_mode t) (checkpoint_interval t)
    (max_checkpoint_files t) (output_dir t) (trim_fraction t) (max_datapoints t)
    (preprocessors t) (_replay_index t) (_last_checkpoint t)
    (_save_interval_start t) (checkpoint_dir t).

Definition set_replay_index (i : Z) (t : Track) : Track :=
  mk_Track (data_points t) (field_names t) (mode t) (save_mode t) (checkpoint_interval t)
    (max_checkpoint_files t) (output_dir t) (trim_fraction t) (max_datapoints t)
    (preprocessors t) i (_last_checkpoint t)
    (_save_interval_start t) (checkpoint_dir t).

Definition _get_replay_track : M tstate Track :=
  do t <- self;
  match data_points t with
  | [] => raise (ValueError "No data available for replay")
  | _ :: _ =>
      run on_track (set_replay_index (Z.min (_replay_index t + 1) (len (data_points t))));
      do t <- self;
      do mock_track <- in_world (Track_init None);
      let mock_track := set_field_names (field_names t) mock_track in
      ret (set_data_points (py_slice None (Some (_replay_index t)) (data_points t))
                           mock_track)
  end.

(** [get_current()]: the recorder itself in live mode, a partial copy in
    replay mode, and [None] (no [return] is reached) in any other mode. *)
Definition get_current : M tstate (option Track) :=
  do t <- self;
  if String.eqb (mode t) "live" then ret (Some t)
  else if String.eqb (mode t) "replay" then
    do r <- _get_replay_track; ret (Some r)
  else ret None.

(** ** [database.py]: the full rescan *)

(** [sorted(l)] on strings. *)
Fixpoint insert_str (x : string) (l : list string) : list string :=
  match l with
  | [] => [x]
  | y :: l' => if String.leb x y then x :: y :: l' else y :: insert_str x l'
  end.

Fixpoint sorted_str (l : list string) : list string :=
  match l with
  | [] => []
  | x :: l' => insert_str x (sorted_str l')
  end.

(** [db.truncate()]: the table is emptied and written, and then the ids
    start again at 1. *)
Definition db_truncate : M dstate unit :=
  run _update_table (fun D => (set_db [] (db_next_id D) OpTruncate D, tt));
  on_db (fun D => (mk_Database (directory D) (db_fname D) (validation D) (extractors D)
                               (db D) 1 (tracks D) (db_writes D) (db_unflushed D)
                               (db_stored D), tt)).

(** The record [process_file] stores: no ["mtime"], and the export
    extensions sorted. *)
Definition rescan_meta (extracted : gmap string pyval) (fname : path)
    (is_checkpoint : bool) (exports : list (string * list string)) : doc :=
  let fields := <["checkpoint" := VBool is_checkpoint]> extracted in
  mk_doc (snd fname)
    (match dict_get (str_remove ".chk" (stem (snd fname))) exports with
     | Some exts => <["exports" := VList (map VStr (sorted_str exts))]> fields
     | None => fields
     end)
    (Some fname).

(** The helper [process_file] of [load_tracks]. *)
Definition process_file (existing_exports : list (string * list string))
    (fname : path) (is_checkpoint : bool) : M dstate unit :=
  do D <- this;
  do valid <- validate_json fname;
  if valid || negb (validation D) then
    do extracted <- extract_all fname;
    let meta := rescan_meta extracted fname is_checkpoint existing_exports in
    run db_insert meta;
    on_db (fun D => (set_tracks (tracks D ++ [meta]) D, tt))
  else in_world_db (w_log "warning" "Skipping invalid file").

Definition load_tracks : M dstate unit :=
  run db_truncate;
  run on_db (fun D => (set_tracks [] D, tt));
  do s <- get;
  let '(D, w) := s in
  let existing_exports := existing_exports D w in
  run for_each (path_glob (directory D) ".json" w)
        (fun '(n, _) =>
           if String.eqb n (db_fname D) then ret tt
           else process_file existing_exports (directory D, n) (ends_with ".chk.json" n));
  for_each (path_glob (checkpoint_directory D) ".chk.json" w)
    (fun '(n, _) => process_file existing_exports (checkpoint_directory D, n) true).

(** [update_track_metadata(filename, new_metadata)] for a [new_metadata]
    without the keys ["filename"] and ["filepath"]: the update then leaves
    the file name and the path of the records it matches as they are. *)
Definition update_track_metadata (filename : string) (new_metadata : gmap string pyval)
    : M dstate unit :=
  run db_update (mk_doc filename new_metadata None) filename;
  on_db (fun D => (set_tracks (db_all D) D, tt)).

(** ** [database.py]: the extractors of file name and sample count *)

(** One character of a regular expression: [\d], [[lo-hi]] or a literal. *)
Inductive rx : Type :=
| RxDigit
| RxRange (lo hi : ascii)
| RxChar (c : ascii).

Definition rx_match (r : rx) (c : ascii) : bool :=
  match r with
  | RxDigit => (48 <=? nat_of_ascii c)%nat && (nat_of_ascii c <=? 57)%nat
  | RxRange lo hi => (nat_of_ascii lo <=? nat_of_ascii c)%nat
                     && (nat_of_ascii c <=? nat_of_ascii hi)%nat
  | RxChar c' => Ascii.eqb c' c
  end.

(** A sequence of one-character patterns against the start of [s]: the
    text matched and the rest. *)
Fixpoint match_seq (pat : list rx) (s : string) : option (string * string) :=
  match pat with
  | [] => Some (EmptyString, s)
  | r :: pat' =>
      match s with
      | String c s' =>
          if rx_match r c then
            match match_seq pat' s' with
            | Some (txt, rest) => Some (String c txt, rest)
            | None => None
            end
          else None
      | EmptyString => None
      end
  end.

(** The first alternative that matches at the start of [s]. *)
Fixpoint match_first (alts : list (list rx)) (s : string) : option (string * string) :=
  match alts with
  | [] => None
  | alt :: alts' =>
      match match_seq alt s with
      | Some m => Some m
      | None => match_first alts' s
      end
  end.

(** [re.search(alts, s).group(1)] for a pattern that is one group of
    alternatives: the leftmost position where an alternative matches, and
    there the first that does. *)
Fixpoint re_search (alts : list (list rx)) (s : string) : option string :=
  match match_first alts s with
  | Some (txt, _) => Some txt
  | None =>
      match s with
      | String _ s' => re_search alts s'
      | EmptyString => None
      end
  end.

(** The groups [strptime] reads, and the pieces of a format: a directive
    with the alternatives of its regular expression in order, a literal
    character, or white space (a run of at least one, as long as possible). *)
Inductive dt_field : Type := FYear | FMonth | FDay | FHour | FMinute | FSecond.

Inductive fmt_item : Type :=
| Directive (fld : dt_field) (alts : list (list rx))
| Literal (c : ascii)
| Spaces.

Definition directive_Y : fmt_item :=
  Directive FYear [[RxDigit; RxDigit; RxDigit; RxDigit]].
Definition directive_m : fmt_item :=
  Directive FMonth [[RxChar "1"; RxRange "0" "2"]; [RxChar "0"; RxRange "1" "9"];
                    [RxRange "1" "9"]].
Definition directive_d : fmt_item :=
  Directive FDay [[RxChar "3"; RxRange "0" "1"]; [RxRange "1" "2"; RxDigit];
                  [RxChar "0"; RxRange "1" "9"]; [RxRange "1" "9"];
                  [RxChar " "; RxRange "1" "9"]].
Definition directive_H : fmt_item :=
  Directive FHour [[RxChar "2"; RxRange "0" "3"]; [RxRange "0" "1"; RxDigit]; [RxDigit]].
Definition directive_M : fmt_item :=
  Directive FMinute [[RxRange "0" "5"; RxDigit]; [RxDigit]].
Definition directive_S : fmt_item :=
  Directive FSecond [[RxChar "6"; RxRange "0" "1"]; [RxRange "0" "5"; RxDigit]; [RxDigit]].

(** ['%Y%m%d-%H%M%S'] and ['%Y-%m-%d %H:%M:%S'] *)
Definition format_compact : list fmt_item :=
  [directive_Y; directive_m; directive_d; Literal "-";
   directive_H; directive_M; directive_S].
Definition format_spaced : list fmt_item :=
  [directive_Y; Literal "-"; directive_m; Literal "-"; directive_d; Spaces;
   directive_H; Literal ":"; directive_M; Literal ":"; directive_S].

(** [\s] on the characters below 256 *)
Definition is_space (c : ascii) : bool :=
  bool_decide (nat_of_ascii c ∈ [9; 10; 11; 12; 13; 28; 29; 30; 31; 32; 133; 160]%nat).

(** The ways [\s+] matches at the start of [s], longest first: the rests. *)
Fixpoint space_runs (s : string) : list string :=
  match s with
  | String c s' => if is_space c then space_runs s' ++ [s'] else []
  | EmptyString => []
  end.

(** Every way the regular expression of a format matches at the start of
    [s], in the order backtracking tries them: the groups and the rest. *)
Fixpoint matches (fmt : list fmt_item) (s : string)
    : list (list (dt_field * string) * string) :=
  match fmt with
  | [] => [([], s)]
  | Directive fld alts :: fmt' =>
      flat_map (fun alt =>
                  match match_seq alt s with
                  | Some (txt, rest) =>
                      map (fun '(gs, r) => ((fld, txt) :: gs, r)) (matches fmt' rest)
                  | None => []
                  end) alts
  | Literal c :: fmt' =>
      match s with
      | String c' s' => if Ascii.eqb c c' then matches fmt' s' else []
      | EmptyString => []
      end
  | Spaces :: fmt' => flat_map (matches fmt') (space_runs s)
  end.

(** [int(txt)] for the text of a group: digits, after a space at most. *)
Fixpoint int_digits (acc : Z) (txt : string) : Z :=
  match txt with
  | EmptyString => acc
  | String c txt' =>
      match digit_val c with
      | Some d => int_digits (acc * 10 + d) txt'
      | None => int_digits acc txt'
      end
  end.

Definition set_field (fld : dt_field) (txt : string) (t : datetime) : datetime :=
  let n := int_digits 0 txt in
  match fld with
  | FYear => mk_datetime n (month t) (day t) (hour t) (minute t) (second t) (microsecond t)
  | FMonth => mk_datetime (year t) n (day t) (hour t) (minute t) (second t) (microsecond t)
  | FDay => mk_datetime (year t) (month t) n (hour t) (minute t) (second t) (microsecond t)
  | FHour => mk_datetime (year t) (month t) (day t) n (minute t) (second t) (microsecond t)
  | FMinute => mk_datetime (year t) (month t) (day t) (hour t) n (second t) (microsecond t)
  | FSecond => mk_datetime (year t) (month t) (day t) (hour t) (minute t) n (microsecond t)
  end.

(** [datetime.strptime(s, fmt)]: the first match of the format's regular
    expression has to use up [s]; fields the format does not set start
    from 1900-01-01 00:00:00. *)
Definition strptime (fmt : list fmt_item) (s : string) : result datetime :=
  match matches fmt s with
  | [] => Raise (ValueError "time data does not match format")
  | (groups, rest) :: _ =>
      if String.eqb rest "" then
        let t := fold_left (fun t '(fld, txt) => set_field fld txt t) groups
                           (mk_datetime 1900 1 1 0 0 0 0) in
        if valid_datetime t then Ok t
        else Raise (ValueError "datetime field out of range")
      else Raise (ValueError "unconverted data remains")
  end.

(** [c in s] for a one-character [c] *)
Fixpoint str_has (c : ascii) (s : string) : bool :=
  match s with
  | EmptyString => false
  | String c' s' => Ascii.eqb c c' || str_has c s'
  end.

(** [s.replace(a, b)] for one-character [a] and [b] *)
Fixpoint replace_char (a b : ascii) (s : string) : string :=
  match s with
  | EmptyString => EmptyString
  | String c s' => String (if Ascii.eqb a c then b else c) (replace_char a b s')
  end.

(** The pattern of [extract_track_datetime]:
    [\d{4}-\d{2}-\d{2}T\d{2}-\d{2}-\d{2}] or [\d{8}-\d{6}]. *)
Definition iso_like_rx : list rx :=
  [RxDigit; RxDigit; RxDigit; RxDigit; RxChar "-"; RxDigit; RxDigit; RxChar "-";
   RxDigit; RxDigit; RxChar "T"; RxDigit; RxDigit; RxChar "-"; RxDigit; RxDigit;
   RxChar "-"; RxDigit; RxDigit].
Definition compact_rx : list rx :=
  [RxDigit; RxDigit; RxDigit; RxDigit; RxDigit; RxDigit; RxDigit; RxDigit; RxChar "-";
   RxDigit; RxDigit; RxDigit; RxDigit; RxDigit; RxDigit].

(** [extract_track_datetime(filepath, data)["track_datetime"]], from the
    name of the file. *)
Definition extract_track_datetime (name : string) : M world pyval :=
  match re_search [iso_like_rx; compact_rx] name with
  | Some dt_str =>
      let parsed :=
        if str_has "-" dt_str && negb (str_has ":" dt_str)
        then strptime format_compact dt_str
        else
          let dt_formatted :=
            String.substring 0 10 dt_str +:+ " " +:+
            replace_char "-" ":" (String.substring 11 (String.length dt_str - 11) dt_str) in
          strptime format_spaced dt_formatted in
      match parsed with
      | Ok dt => ret (VStr (isoformat "T" dt))
      | Raise (ValueError _) => run w_log "warning" "Date parsing error"; ret VNone
      | Raise e => raise e
      end
  | None => ret VNone
  end.

(** [len(v)] *)
Definition py_len (v : pyval) : result Z :=
  match v with
  | VList l => Ok (Z.of_nat (length l))
  | VDict d => Ok (Z.of_nat (length d))
  | VStr s => Ok (Z.of_nat (String.length s))
  | _ => Raise TypeError
  end.

(** [extract_datapoint_count(filepath, data)["datapoint_count"]] *)
Definition extract_datapoint_count (data : pyval) : result pyval :=
  match data with
  | VList l => Ok (VInt (Z.of_nat (length l)))
  | VDict d =>
      match py_len (default (VList []) (dict_get "data" d)) with
      | Ok n => Ok (VInt n)
      | Raise e => Raise e
      end
  | _ => Ok (VInt 0)
  end.

(** ** [helpers.py]: [format_duration] *)

(** The argument of [format_duration]: [None], a [float], an [int] (or any
    object other than a float that [int()] converts to that integer), or
    an object [int()] rejects, with the exception it raises ([ValueError]
    for a string that is no integer literal, [TypeError] for a list, ...). *)
Inductive duration_arg : Type :=
| DurNone
| DurInt (n : Z)
| DurFloat (x : spec_float)
| DurRejected (e : exn).

(** [str(n)] for an [int] *)
Definition str_of_int (n : Z) : string := NilZero.string_of_int (Z.to_int n).

(** [except (ValueError, TypeError)] *)
Definition is_ValueError_or_TypeError (e : exn) : bool :=
  match e with
  | ValueError _ | TypeError => true
  | _ => false
  end.

Definition format_duration (seconds : duration_arg) : result string :=
  match seconds with
  | DurNone => Ok "N/A"%string
  | _ =>
      let converted := match seconds with
                       | DurInt n => Ok n
                       | DurFloat x => F64.to_int x
                       | DurRejected e => Raise e
                       | DurNone => Ok 0
                       end in
      match converted with
      | Ok seconds =>
          let '(hours, remainder) := (seconds / 3600, seconds mod 3600) in
          let '(minutes, secs) := (remainder / 60, remainder mod 60) in
          Ok (str_of_int hours +:+ "h:" +:+ str_of_int minutes +:+ "m:" +:+
              str_of_int secs +:+ "s")
      | Raise e => if is_ValueError_or_TypeError e then Ok "N/A"%string else Raise e
      end
  end.

(** ** [database.py]: [export_track] *)

(** [os.path.splitext(name)[0]] for a name without a directory part: the
    name up to its last dot, unless only dots come before it. *)
Definition splitext_root (name : string) : string :=
  match rfind_dot 0 name with
  | Some i =>
      if forallb (Ascii.eqb ".") (list_ascii_of_string (String.substring 0 i name))
      then name else String.substring 0 i name
  | None => name
  end.

(** The elements [set(v)] is built from; a list or a dict among them is
    not hashable. *)
Definition py_set_elems (v : pyval) : result (list pyval) :=
  match py_iter v with
  | Ok elems => if forallb is_scalar elems then Ok elems else Raise TypeError
  | Raise e => Raise e
  end.

(** A computation on a temporary recorder, which is dropped afterwards. *)
Definition with_track {A} (t : Track) (m : M (Track * world) A) : M (Database * world) A :=
  fun '(D, w) => let '((_, w'), r) := m (t, w) in ((D, w'), r).

(** [export_track(track_id, export_format)] for a string [export_format],
    returning the message, if one is returned. The order in which
    [list(exports)] gives the elements of the set is not specified:
    [list_of_set l] stands for the list it gives for the set built from
    the elements [l]. *)
Definition export_track (list_of_set : list pyval -> list pyval)
    (id : track_id) (export_format : string) : M (Database * world) (option string) :=
  run on_db (fun D => (set_tracks (db_all D) D, tt));
  do D <- this;
  let track :=
    match id with
    | IdInt i =>
        if (0 <=? i) && (i <? Z.of_nat (length (tracks D)))
        then tracks D !! Z.to_nat i else None
    | IdStr name => head (filter (fun t => d_filename t = name) (tracks D))
    | IdOther => None
    end in
  match track with
  | None =>
      run in_world_db (w_log "warning" "track not found in the database");
      ret (Some "track not found in the database"%string)
  | Some track =>
      let base_name := splitext_root (d_filename track) in
      let export_fname := base_name +:+ "." +:+ export_format in
      let export_path := (directory D, export_fname) in
      do s <- get;
      do msg <-
        (if w_exists export_path (snd s) then
           run in_world_db (w_log "info" "already exists, skipping regeneration");
           ret None
         else
           do track_path <- get_track_path id;
           match track_path with
           | None =>
               run in_world_db (w_log "warning" "track file not found for export");
               ret (Some "track file not found for export"%string)
           | Some track_path =>
               do temp_track <- in_world_db (Track_init (Some (directory D)));
               do msg <-
                 try_except
                   (run with_track temp_track
                          (run load track_path;
                           save (FmtStr export_format) (Some base_name) None None);
                    ret None)
                   (fun _ =>
                      run in_world_db (w_log "critical" "Error exporting track");
                      ret (Some "Error exporting track"%string));
               match msg with
               | Some m => ret (Some m)
               | None => run in_world_db (w_log "info" "Exported"); ret None
               end
           end);
      match msg with
      | Some m => ret (Some m)
      | None =>
          do elems <- lift (py_set_elems (default (VList []) (d_fields track !! "exports")));
          run update_track_metadata (d_filename track)
                {[ "exports" := VList (list_of_set (elems ++ [VStr export_format])) ]};
          ret None
      end
  end.

(** ** Further notions used in the statements *)

(** Two recorders that differ at most in the buffer and in
    [_last_checkpoint]. *)
Definition same_settings (t t' : Track) : Prop :=
  exists c dps, t' = set_data_points dps (set_last_checkpoint c t).

(** The result of the last of [k + 1] successive calls of [get_current]. *)
Fixpoint get_current_again (k : nat) : M tstate (option Track) :=
  match k with
  | O => get_current
  | S k' => run get_current; get_current_again k'
  end.

(** The files a full rescan visits, in the order it visits them. *)
Definition scanned (D : Database) (w : world) : list (string * string) :=
  map (fun '(n, _) => (directory D, n))
      (filter (fun '(n, _) => n <> db_fname D) (path_glob (directory D) ".json" w))
  ++ map (fun '(n, _) => (checkpoint_directory D, n))
         (path_glob (checkpoint_directory D) ".chk.json" w).

(** The file at [p] is indexed by a rescan: it validates, or validation is
    off. *)
Definition indexed (D : Database) (w : world) (p : string * string) : bool :=
  match check_file p w with
  | Ok v => v || negb (validation D)
  | Raise _ => false
  end.

(** What [extract_all] returns for the file at [p], from the files alone. *)
Definition extracted_from (D : Database) (w : world) (p : string * string)
    : gmap string pyval :=
  match files w !! p with
  | Some f =>
      match json_load (f_content f) with
      | Ok data => extractors D (snd p) data
      | Raise _ => ∅
      end
  | None => ∅
  end.

(** The record a rescan stores for the file at [p]. *)
Definition rescan_record (D : Database) (w : world) (p : string * string) : doc :=
  rescan_meta (extracted_from D w p) p (ends_with ".chk.json" (snd p))
              (existing_exports D w).

(** [t.replace(microsecond=0)] *)
Definition whole_second (t : datetime) : datetime :=
  mk_datetime (year t) (month t) (day t) (hour t) (minute t) (second t) 0.

(** The record [export_track] and [get_track_path] pick for an id. *)
Definition looked_up (id : track_id) (ts : list doc) : option doc :=
  match id with
  | IdInt i =>
      if (0 <=? i) && (i <? Z.of_nat (length ts)) then ts !! Z.to_nat i else None
  | IdStr name => head (filter (fun t => d_filename t = name) ts)
  | IdOther => None
  end.

(** The path [export_track] exports the record [track] to. *)
Definition export_path_of (D : Database) (track : doc) (export_format : string)
    : string * string :=
  (directory D, splitext_root (d_filename track) +:+ "." +:+ export_format).

(** The metadata [export_track] stores once it takes the export as done. *)
Definition exports_update (list_of_set : list pyval -> list pyval) (track : doc)
    (elems : list pyval) (export_format : string) : doc :=
  mk_doc (d_filename track)
         {[ "exports" := VList (list_of_set (elems ++ [VStr export_format])) ]} None.

(** ** Further sample values *)

(** A checkpoint directory holding one ordinary and one [-full] checkpoint. *)
Definition checkpoint_world : world :=
  mk_world {[ ("data/chk", "20240101-000000.chk.json") := mk_file (CJson (VList [])) 1;
              ("data/chk", "20240101-000000-full.chk.json") := mk_file (CJson (VList [])) 2 ]}
           ∅ ∅ (fun _ => noon) 0 [].

(** A track file of two samples. *)
Definition replay_world : world :=
  mk_world {[ ("data", "a.json") :=
                mk_file (CJson (VList (map json_of_DataPoint [sample 1; sample 2]))) 5 ]}
           ∅ ∅ (fun _ => noon) 0 [].

(** * Properties *)

(** ** binary64: the trim fraction is exact *)


Lemma digits2_pos_bounds (p : positive) :
  2 ^ (Zpos (digits2_pos p) - 1) <= Zpos p < 2 ^ Zpos (digits2_pos p).
Proof.
  induction p as [p IH | p IH |]; cbn [digits2_pos].
  - rewrite Pos2Z.inj_succ, Pos2Z.inj_xI.
    replace (Z.succ (Zpos (digits2_pos p)) - 1) with (Z.succ (Zpos (digits2_pos p) - 1)) by lia.
    rewrite !Z.pow_succ_r by lia.
    destruct IH as [IH1 IH2]. revert IH1 IH2.
    generalize (2 ^ (Zpos (digits2_pos p) - 1)) (2 ^ Zpos (digits2_pos p)). lia.
  - rewrite Pos2Z.inj_succ. change (Zpos p~0) with (2 * Zpos p).
    replace (Z.succ (Zpos (digits2_pos p)) - 1) with (Z.succ (Zpos (digits2_pos p) - 1)) by lia.
    rewrite !Z.pow_succ_r by lia.
    destruct IH as [IH1 IH2]. revert IH1 IH2.
    generalize (2 ^ (Zpos (digits2_pos p) - 1)) (2 ^ Zpos (digits2_pos p)). lia.
  - cbn. lia.
Qed.

Lemma digits2_pos_unique (p : positive) (d : Z) :
  2 ^ (d - 1) <= Zpos p < 2 ^ d -> Zpos (digits2_pos p) = d.
Proof.
  intros [Hlo Hhi]. pose proof (digits2_pos_bounds p) as [Blo Bhi].
  set (c := Zpos (digits2_pos p)) in *.
  assert (0 < c) by (subst c; lia).
  destruct (Z.lt_trichotomy c d) as [Hlt | [-> | Hgt]]; [exfalso | reflexivity | exfalso].
  - assert (2 ^ c <= 2 ^ (d - 1)) by (apply Z.pow_le_mono_r; lia). lia.
  - assert (0 <= d) by (destruct (Z.le_gt_cases 0 d); [assumption | rewrite Z.pow_neg_r in Hhi by assumption; lia]).
    assert (2 ^ d <= 2 ^ (c - 1)) by (apply Z.pow_le_mono_r; lia). lia.
Qed.

Lemma shr_1_nonneg (m : Z) (r s : bool) :
  0 <= m ->
  shr_1 (Build_shr_record m r s) = Build_shr_record (m / 2) (Z.odd m) (r || s).
Proof.
  intros Hm. destruct m as [| [p | p |] |]; try lia; cbn [shr_1].
  - reflexivity.
  - f_equal. rewrite Pos2Z.inj_xI. apply Z.div_unique with 1; lia.
  - f_equal. change (Zpos p~0) with (2 * Zpos p). apply Z.div_unique with 0; lia.
  - reflexivity.
Qed.

Lemma iter_pos_nat {A} (f : A -> A) (p : positive) (x : A) :
  SpecFloat.iter_pos f p x = @Nat.iter (Pos.to_nat p) A f x.
Proof.
  revert x. induction p as [p IH | p IH |]; intros x; cbn [SpecFloat.iter_pos].
  - rewrite !IH, Pos2Nat.inj_xI, <- Nat.iter_add.
    replace (S (2 * Pos.to_nat p))%nat with (Pos.to_nat p + Pos.to_nat p + 1)%nat by lia.
    rewrite (Nat.iter_add _ 1). reflexivity.
  - rewrite !IH, Pos2Nat.inj_xO, <- Nat.iter_add. f_equal. lia.
  - reflexivity.
Qed.

(** After [k >= 1] one-bit shifts the record holds the quotient by [2^k],
    the round bit and the sticky bit of the remainder. *)
Lemma shr_iter_spec (P : Z) (j : nat) :
  0 <= P ->
  exists r s t,
    @Nat.iter (S j) shr_record shr_1 (Build_shr_record P false false)
      = Build_shr_record (P / 2 ^ Z.of_nat (S j)) r s
    /\ 0 <= t < 2 ^ Z.of_nat j
    /\ P mod 2 ^ Z.of_nat (S j) = Z.b2z r * 2 ^ Z.of_nat j + t
    /\ s = negb (t =? 0).
Proof.
  intros HP. induction j as [| j IH].
  - exists (Z.odd P), false, 0. cbn [Nat.iter]. rewrite shr_1_nonneg by assumption.
    change (2 ^ Z.of_nat 1) with 2. change (2 ^ Z.of_nat 0) with 1.
    repeat split; try lia.
    rewrite Z.mul_1_r, Z.add_0_r. rewrite Zmod_odd. destruct (Z.odd P); reflexivity.
  - destruct IH as (r & s & t & Hit & Ht & Hmod & Hs).
    set (k := Z.of_nat (S j)) in *.
    assert (Hk : Z.of_nat (S (S j)) = Z.succ k) by (subst k; lia).
    assert (Hj : k = Z.succ (Z.of_nat j)) by (subst k; lia).
    assert (Hpk : 0 < 2 ^ k) by (apply Z.pow_pos_nonneg; lia).
    exists (Z.odd (P / 2 ^ k)), (r || s)%bool, (P mod 2 ^ k).
    change (@Nat.iter (S (S j)) shr_record shr_1 ?x) with (shr_1 (@Nat.iter (S j) shr_record shr_1 x)).
    rewrite Hit, shr_1_nonneg by (apply Z.div_pos; lia).
    rewrite Hk, Z.pow_succ_r by lia.
    repeat split.
    + f_equal. rewrite Z.div_div by lia. f_equal. lia.
    + apply Z.mod_pos_bound; lia.
    + apply Z.mod_pos_bound; lia.
    + rewrite (Z.mul_comm 2), Z.rem_mul_r by lia.
      rewrite Zmod_odd. destruct (Z.odd (P / 2 ^ k)); cbn [Z.b2z]; lia.
    + rewrite Hmod, Hs. rewrite Hj, Z.pow_succ_r in Hmod by lia.
      assert (0 < 2 ^ Z.of_nat j) by (apply Z.pow_pos_nonneg; lia).
      destruct r; cbn [Z.b2z orb].
      * symmetry. apply negb_true_iff, Z.eqb_neq. lia.
      * rewrite Z.mul_0_l, Z.add_0_l. reflexivity.
Qed.

Lemma round_shr (P : Z) (k : positive) :
  0 <= P ->
  let mrs := SpecFloat.iter_pos shr_1 k (Build_shr_record P false false) in
  round_nearest_even (shr_m mrs) (loc_of_shr_record mrs) = F64.rne_shift P (Zpos k).
Proof.
  intros HP mrs. subst mrs. rewrite iter_pos_nat.
  destruct (Pos2Nat.is_succ k) as [j Hj]. rewrite Hj.
  destruct (shr_iter_spec P j HP) as (r & s & t & Hit & Ht & Hmod & Hs).
  rewrite Hit. cbn [shr_m]. unfold F64.rne_shift.
  assert (Hk : Zpos k = Z.of_nat (S j)) by lia.
  rewrite Hk, Hmod.
  replace (2 ^ Z.of_nat (S j)) with (2 * 2 ^ Z.of_nat j)
    by (rewrite Nat2Z.inj_succ, Z.pow_succ_r by lia; reflexivity).
  set (q := P / (2 * 2 ^ Z.of_nat j)).
  assert (0 < 2 ^ Z.of_nat j) by (apply Z.pow_pos_nonneg; lia).
  destruct r, s; cbn [loc_of_shr_record round_nearest_even Z.b2z];
    symmetry in Hs; [apply negb_true_iff, Z.eqb_neq in Hs | apply negb_false_iff, Z.eqb_eq in Hs
                    | apply negb_true_iff, Z.eqb_neq in Hs | apply negb_false_iff, Z.eqb_eq in Hs].
  - replace (2 * (1 * 2 ^ Z.of_nat j + t) ?= 2 * 2 ^ Z.of_nat j) with Gt; [reflexivity|].
    symmetry. apply Z.compare_gt_iff. lia.
  - replace (2 * (1 * 2 ^ Z.of_nat j + t) ?= 2 * 2 ^ Z.of_nat j) with Eq; [reflexivity|].
    symmetry. apply Z.compare_eq_iff. lia.
  - replace (2 * (0 * 2 ^ Z.of_nat j + t) ?= 2 * 2 ^ Z.of_nat j) with Lt; [reflexivity|].
    symmetry. apply Z.compare_lt_iff. lia.
  - replace (2 * (0 * 2 ^ Z.of_nat j + t) ?= 2 * 2 ^ Z.of_nat j) with Lt; [reflexivity|].
    symmetry. apply Z.compare_lt_iff. lia.
Qed.

Lemma digits53 (m : positive) :
  2 ^ 52 <= Zpos m < 2 ^ 53 -> Zpos (digits2_pos m) = 53.
Proof. intros H. apply digits2_pos_unique. exact H. Qed.

Lemma loc_of_shr_record_of_loc (m : Z) (l : location) :
  loc_of_shr_record (shr_record_of_loc m l) = l /\ shr_m (shr_record_of_loc m l) = m.
Proof. destruct l as [| []]; split; reflexivity. Qed.

(** A 53-bit mantissa with its location is rounded in place. *)
Lemma binary_round_aux_53 (q : positive) (e : Z) (l : location) (k : positive) :
  2 ^ 52 <= Zpos q < 2 ^ 53 ->
  2 ^ 52 <= Zpos k < 2 ^ 53 ->
  round_nearest_even (Zpos q) l = Zpos k ->
  -1074 <= e <= 971 ->
  binary_round_aux F64.prec F64.emax false (Zpos q) e l = S754_finite false k e.
Proof.
  intros Hq Hk Hr He. unfold binary_round_aux, shr_fexp, fexp, emin, F64.prec, F64.emax.
  cbn [Zdigits2]. rewrite (digits53 q Hq).
  replace (Z.max (53 + e - 53) (3 - 1024 - 53) - e) with 0 by lia.
  cbn [shr]. destruct (loc_of_shr_record_of_loc (Zpos q) l) as [-> ->].
  rewrite Hr. cbn [Zdigits2]. rewrite (digits53 k Hk).
  replace (Z.max (53 + e - 53) (3 - 1024 - 53) - e) with 0 by lia.
  cbn [shr shr_record_of_loc shr_m].
  replace (e <=? 1024 - 53) with true by (symmetry; apply Z.leb_le; lia).
  reflexivity.
Qed.

(** A wider exact mantissa is shifted, rounded, and fits without carry. *)
Lemma binary_round_aux_shift (P : positive) (e : Z) (s : positive) (k : positive) :
  Zpos (digits2_pos P) = 53 + Zpos s ->
  2 ^ 52 <= Zpos k < 2 ^ 53 ->
  F64.rne_shift (Zpos P) (Zpos s) = Zpos k ->
  -1074 <= e + Zpos s <= 971 ->
  binary_round_aux F64.prec F64.emax false (Zpos P) e loc_Exact = S754_finite false k (e + Zpos s).
Proof.
  intros Hd Hk Hr He. unfold binary_round_aux, shr_fexp, fexp, emin, F64.prec, F64.emax.
  cbn [Zdigits2]. rewrite Hd.
  replace (Z.max (53 + Zpos s + e - 53) (3 - 1024 - 53) - e) with (Zpos s) by lia.
  cbn [shr shr_record_of_loc].
  rewrite (round_shr (Zpos P) s) by lia. rewrite Hr.
  cbn [Zdigits2]. rewrite (digits53 k Hk).
  replace (Z.max (53 + (e + Zpos s) - 53) (3 - 1024 - 53) - (e + Zpos s)) with 0 by lia.
  cbn [shr shr_record_of_loc shr_m].
  replace (e + Zpos s <=? 1024 - 53) with true by (symmetry; apply Z.leb_le; lia).
  reflexivity.
Qed.

(** The same when rounding carries into a 54th bit. *)
Lemma binary_round_aux_carry (P : positive) (e : Z) (s : positive) :
  Zpos (digits2_pos P) = 53 + Zpos s ->
  F64.rne_shift (Zpos P) (Zpos s) = 2 ^ 53 ->
  -1074 <= e + Zpos s <= 970 ->
  binary_round_aux F64.prec F64.emax false (Zpos P) e loc_Exact
  = S754_finite false 4503599627370496 (e + Zpos s + 1).
Proof.
  intros Hd Hr He. unfold binary_round_aux, shr_fexp, fexp, emin, F64.prec, F64.emax.
  cbn [Zdigits2]. rewrite Hd.
  replace (Z.max (53 + Zpos s + e - 53) (3 - 1024 - 53) - e) with (Zpos s) by lia.
  cbn [shr shr_record_of_loc].
  rewrite (round_shr (Zpos P) s) by lia. rewrite Hr.
  change (2 ^ 53) with (Zpos 9007199254740992).
  cbn [Zdigits2].
  change (Zpos (digits2_pos 9007199254740992)) with 54.
  replace (Z.max (54 + (e + Zpos s) - 53) (3 - 1024 - 53) - (e + Zpos s)) with 1 by lia.
  cbn [shr shr_record_of_loc SpecFloat.iter_pos shr_1 shr_m].
  replace (e + Zpos s + 1 <=? 1024 - 53) with true by (symmetry; apply Z.leb_le; lia).
  reflexivity.
Qed.

Lemma Zpos_iter_xO (p q : positive) : Zpos (Pos.iter xO p q) = Zpos p * 2 ^ Zpos q.
Proof.
  rewrite <- Z.shiftl_mul_pow2 by lia. cbn [Z.shiftl].
  apply (Pos.iter_swap_gen _ _ Zpos xO (Z.mul 2)). intros a. reflexivity.
Qed.

(** [float(n)] is exact below [2^53]: a 53-bit mantissa [n * 2^s]. *)
Lemma of_int_spec (n : Z) :
  1 <= n < 2 ^ 53 ->
  exists (p : positive) (s : Z),
    0 <= s <= 52 /\ Zpos p = n * 2 ^ s /\ 2 ^ 52 <= Zpos p < 2 ^ 53
    /\ 2 ^ 52 <= n * 2 ^ s /\ F64.of_int n = S754_finite false p (- s).
Proof.
  intros Hn. destruct n as [| p |]; try lia.
  pose proof (digits2_pos_bounds p) as Hb.
  set (d := Zpos (digits2_pos p)) in *.
  assert (Hd : 1 <= d <= 53).
  { split; [subst d; lia |].
    destruct (Z.le_gt_cases d 53) as [|Hgt]; [assumption|].
    assert (2 ^ 53 <= 2 ^ (d - 1)) by (apply Z.pow_le_mono_r; lia). lia. }
  assert (Hpow : 2 ^ (d - 1) * 2 ^ (53 - d) = 2 ^ 52)
    by (rewrite <- Z.pow_add_r by lia; f_equal; lia).
  assert (Hpow' : 2 ^ d * 2 ^ (53 - d) = 2 ^ 53)
    by (rewrite <- Z.pow_add_r by lia; f_equal; lia).
  assert (Hs : 0 < 2 ^ (53 - d)) by (apply Z.pow_pos_nonneg; lia).
  assert (Hrange : 2 ^ 52 <= Zpos p * 2 ^ (53 - d) < 2 ^ 53) by nia.
  unfold F64.of_int, binary_normalize, binary_round, shl_align, fexp, emin, F64.prec, F64.emax.
  fold d.
  replace (Z.max (d + 0 - 53) (3 - 1024 - 53)) with (d - 53) by lia.
  replace (d - 53 - 0) with (d - 53) by lia.
  destruct (Z.eq_dec d 53) as [E | E].
  - exists p, 0. rewrite E in *. change (53 - 53) with 0 in *. change (2 ^ 0) with 1 in *.
    rewrite Z.mul_1_r in *.
    repeat split; try lia.
    apply binary_round_aux_53; try lia. reflexivity.
  - destruct (d - 53) as [| q | q] eqn:Eq; try lia.
    exists (Pos.iter xO p q), (Zpos q).
    assert (Hq : 53 - d = Zpos q) by lia.
    rewrite Hq in *.
    pose proof (Zpos_iter_xO p q) as Hit.
    repeat split; try lia.
    apply binary_round_aux_53; try lia. reflexivity.
Qed.

Lemma round_new_location (D q r : Z) :
  0 < D -> 0 <= r < D ->
  round_nearest_even q (new_location D r)
  = match 2 * r ?= D with
    | Lt => q
    | Eq => if Z.even q then q else q + 1
    | Gt => q + 1
    end.
Proof.
  intros HD Hr. unfold new_location, new_location_even, new_location_odd.
  destruct (Z.even D) eqn:Ev; cbv beta; destruct (Z.eqb_spec r 0) as [-> | Hr0];
    cbn [round_nearest_even].
  - replace (2 * 0 ?= D) with Lt by (symmetry; apply Z.compare_lt_iff; lia). reflexivity.
  - reflexivity.
  - replace (2 * 0 ?= D) with Lt by (symmetry; apply Z.compare_lt_iff; lia). reflexivity.
  - pose proof (Zmod_even D) as Hm. rewrite Ev in Hm.
    destruct (Z.compare_spec (2 * r + 1) D) as [E | L | G].
    + replace (2 * r ?= D) with Lt by (symmetry; apply Z.compare_lt_iff; lia). reflexivity.
    + replace (2 * r ?= D) with Lt by (symmetry; apply Z.compare_lt_iff; lia). reflexivity.
    + replace (2 * r ?= D) with Gt; [reflexivity |].
      symmetry. apply Z.compare_gt_iff.
      assert (2 * r <> D) by (intros <-; rewrite Z.mul_comm, Z.mod_mul in Hm; lia). lia.
Qed.

(** Division of two 53-bit mantissas, numerator below denominator. *)
Lemma div_canonical (mx my k : positive) (ex ey : Z) :
  2 ^ 52 <= Zpos mx < 2 ^ 53 ->
  2 ^ 52 <= Zpos my < 2 ^ 53 ->
  Zpos mx < Zpos my ->
  -500 <= ex - ey <= 500 ->
  F64.rne_div (Zpos mx * 2 ^ 53) (Zpos my) = Zpos k ->
  2 ^ 52 <= Zpos k < 2 ^ 53 ->
  SFdiv F64.prec F64.emax (S754_finite false mx ex) (S754_finite false my ey)
  = S754_finite false k (ex - ey - 53).
Proof.
  intros Hx Hy Hlt He Hk Hkr.
  unfold SFdiv, SFdiv_core_binary, fexp, emin, F64.prec, F64.emax. cbn [Zdigits2 xorb].
  rewrite (digits53 mx Hx), (digits53 my Hy).
  replace (Z.min (Z.max (53 + ex - (53 + ey) - 53) (3 - 1024 - 53)) (ex - ey))
    with (ex - ey - 53) by lia.
  replace (ex - ey - (ex - ey - 53)) with 53 by lia.
  rewrite Z.shiftl_mul_pow2 by lia.
  pose proof (Z.div_mod (Zpos mx * 2 ^ 53) (Zpos my) ltac:(lia)) as Hdm.
  pose proof (Z.mod_pos_bound (Zpos mx * 2 ^ 53) (Zpos my) ltac:(lia)) as Hmb.
  unfold F64.rne_div in Hk. unfold Z.div, Z.modulo in Hdm, Hmb, Hk.
  destruct (Z.div_eucl (Zpos mx * 2 ^ 53) (Zpos my)) as [q r].
  assert (Hq : 2 ^ 52 <= q < 2 ^ 53) by nia.
  destruct q as [| q |]; try lia.
  apply binary_round_aux_53; try lia.
  rewrite round_new_location by lia. exact Hk.
Qed.

Lemma rne_shift_near (P M : Z) (s : Z) :
  0 <= s ->
  2 * Z.abs (P - M * 2 ^ s) < 2 ^ s ->
  F64.rne_shift P s = M.
Proof.
  intros Hs Hnear. unfold F64.rne_shift.
  assert (HK : 0 < 2 ^ s) by (apply Z.pow_pos_nonneg; lia).
  set (K := 2 ^ s) in *.
  destruct (Z.le_gt_cases (M * K) P) as [Hle | Hgt].
  - assert (Hq : P / K = M) by (symmetry; apply Z.div_unique with (P - M * K); lia).
    assert (Hr : P mod K = P - M * K) by (symmetry; apply Z.mod_unique with M; lia).
    rewrite Hq, Hr.
    replace (2 * (P - M * K) ?= K) with Lt by (symmetry; apply Z.compare_lt_iff; lia).
    reflexivity.
  - assert (Hq : P / K = M - 1) by (symmetry; apply Z.div_unique with (P - (M - 1) * K); lia).
    assert (Hr : P mod K = P - (M - 1) * K) by (symmetry; apply Z.mod_unique with (M - 1); lia).
    rewrite Hq, Hr.
    replace (2 * (P - (M - 1) * K) ?= K) with Gt by (symmetry; apply Z.compare_gt_iff; lia).
    lia.
Qed.

Lemma rne_shift_carry (P : Z) :
  2 ^ 105 - 2 ^ 51 <= P < 2 ^ 105 ->
  F64.rne_shift P 52 = 2 ^ 53.
Proof.
  intros HP. unfold F64.rne_shift.
  assert (Hq : P / 2 ^ 52 = 2 ^ 53 - 1)
    by (symmetry; apply Z.div_unique with (P - (2 ^ 53 - 1) * 2 ^ 52); lia).
  assert (Hr : P mod 2 ^ 52 = P - (2 ^ 53 - 1) * 2 ^ 52)
    by (symmetry; apply Z.mod_unique with (2 ^ 53 - 1); lia).
  rewrite Hq, Hr.
  destruct (Z.compare_spec (2 * (P - (2 ^ 53 - 1) * 2 ^ 52)) (2 ^ 52)); try lia.
  reflexivity.
Qed.

Lemma rne_div_near (N D : Z) :
  0 < D ->
  2 * Z.abs (F64.rne_div N D * D - N) <= D
  /\ N / D <= F64.rne_div N D <= N / D + 1.
Proof.
  intros HD. unfold F64.rne_div.
  pose proof (Z.div_mod N D ltac:(lia)) as Hdm.
  pose proof (Z.mod_pos_bound N D HD) as Hmb.
  set (q := N / D) in *. set (r := N mod D) in *.
  destruct (Z.compare_spec (2 * r) D) as [E | L | G].
  - destruct (Z.even q); split; nia.
  - split; nia.
  - split; nia.
Qed.

(** With the binade of [n] known, the exponent of [float(n)] is known. *)
Lemma of_int_binade (n t : Z) :
  0 <= t <= 52 ->
  2 ^ t <= n < 2 * 2 ^ t ->
  exists p : positive,
    Zpos p = n * 2 ^ (52 - t) /\ F64.of_int n = S754_finite false p (t - 52).
Proof.
  intros Ht Hn.
  assert (HT : 0 < 2 ^ t) by (apply Z.pow_pos_nonneg; lia).
  assert (Hn53 : 1 <= n < 2 ^ 53).
  { assert (2 * 2 ^ t <= 2 ^ 53).
    { rewrite <- Z.pow_succ_r by lia. apply Z.pow_le_mono_r; lia. }
    lia. }
  destruct (of_int_spec n Hn53) as (p & s & Hs & Hp & Hr & _ & Hof).
  assert (s = 52 - t).
  { assert (HS : 0 < 2 ^ s) by (apply Z.pow_pos_nonneg; lia).
    assert (H1 : 2 ^ (t + s) < 2 ^ 53) by (rewrite Z.pow_add_r by lia; nia).
    assert (H2 : 2 ^ 52 < 2 ^ (Z.succ t + s)).
    { rewrite Z.pow_add_r, Z.pow_succ_r by lia. nia. }
    apply Z.pow_lt_mono_r_iff in H1; try lia.
    apply Z.pow_lt_mono_r_iff in H2; lia. }
  subst s. exists p. split; [exact Hp |].
  rewrite Hof. f_equal. lia.
Qed.

Lemma sf_eqb_eq (x y : spec_float) : F64.sf_eqb x y = true -> x = y.
Proof.
  destruct x as [| | | s m e], y as [| | | s' m' e']; cbn; try discriminate.
  intros H. apply andb_prop in H as [H He]. apply andb_prop in H as [Hs Hm].
  apply Bool.eqb_prop in Hs. apply Pos.eqb_eq in Hm. apply Z.eqb_eq in He.
  congruence.
Qed.

Lemma pow2_cases : forallb F64.pow2_case (seq 1 52) = true.
Proof. vm_compute. reflexivity. Qed.

Lemma mul_div_pred_pow2 (t : Z) :
  1 <= t <= 52 ->
  let q := F64.div (F64.of_int (2 ^ t - 1)) (F64.of_int (2 ^ t)) in
  F64.clamp01 q = q /\ F64.mul (F64.of_int (2 ^ t)) q = F64.of_int (2 ^ t - 1).
Proof.
  intros Ht q.
  pose proof pow2_cases as H. rewrite forallb_forall in H.
  specialize (H (Z.to_nat t)).
  unfold F64.pow2_case in H. rewrite Z2Nat.id in H by lia.
  assert (Hin : In (Z.to_nat t) (seq 1 52)) by (apply in_seq; lia).
  apply H in Hin. apply andb_prop in Hin as [H1 H2].
  split; apply sf_eqb_eq; assumption.
Qed.

(** The product [n * ((n - 1) / n)] evaluated in binary64 is exactly
    [n - 1]: the two roundings cancel. *)
Theorem mul_div_pred (n : Z) :
  2 <= n < 2 ^ 53 ->
  let q := F64.div (F64.of_int (n - 1)) (F64.of_int n) in
  F64.clamp01 q = q /\ F64.mul (F64.of_int n) q = F64.of_int (n - 1).
Proof.
  intros Hn q. subst q.
  pose proof (Z.log2_spec n ltac:(lia)) as Hlog.
  pose proof (Z.log2_nonneg n) as Hlog0.
  set (t := Z.log2 n) in *.
  rewrite Z.pow_succ_r in Hlog by lia.
  assert (HT : 0 < 2 ^ t) by (apply Z.pow_pos_nonneg; lia).
  assert (Ht52 : t <= 52).
  { destruct (Z.le_gt_cases t 52) as [|Hgt]; [assumption|].
    assert (2 ^ 53 <= 2 ^ t) by (apply Z.pow_le_mono_r; lia). lia. }
  assert (Ht1 : 1 <= t).
  { destruct (Z.eq_dec t 0) as [E|]; [|lia]. rewrite E in Hlog. change (2 ^ 0) with 1 in Hlog. lia. }
  destruct (Z.eq_dec n (2 ^ t)) as [Epow | Hnp].
  { rewrite Epow. apply mul_div_pred_pow2. lia. }
  destruct (of_int_binade n t ltac:(lia) ltac:(lia)) as (pn & Hpn & Hofn).
  destruct (of_int_binade (n - 1) t ltac:(lia) ltac:(lia)) as (pa & Hpa & Hofa).
  rewrite Hofn, Hofa.
  assert (HS : 0 < 2 ^ (52 - t)) by (apply Z.pow_pos_nonneg; lia).
  assert (HTS : 2 ^ t * 2 ^ (52 - t) = 2 ^ 52)
    by (rewrite <- Z.pow_add_r by lia; f_equal; lia).
  assert (HTeven : exists T', 2 ^ t = 2 * T').
  { exists (2 ^ (t - 1)). rewrite <- Z.pow_succ_r by lia. f_equal. lia. }
  destruct HTeven as [T' HT'].
  set (T := 2 ^ t) in *. set (S := 2 ^ (52 - t)) in *.
  assert (Hpn_r : 2 ^ 52 <= Zpos pn < 2 ^ 53) by nia.
  assert (Hpa_r : 2 ^ 52 <= Zpos pa < 2 ^ 53) by nia.
  destruct (rne_div_near (Zpos pa * 2 ^ 53) (Zpos pn) ltac:(lia)) as [Hnear Hbnd].
  set (k := F64.rne_div (Zpos pa * 2 ^ 53) (Zpos pn)) in *.
  assert (Hq_lo : 2 ^ 52 <= Zpos pa * 2 ^ 53 / Zpos pn)
    by (apply Z.div_le_lower_bound; nia).
  assert (Hq_hi : Zpos pa * 2 ^ 53 / Zpos pn < 2 ^ 53)
    by (apply Z.div_lt_upper_bound; nia).
  assert (Hk : 2 ^ 52 <= k < 2 ^ 53).
  { split; [lia |].
    destruct (Z.eq_dec k (2 ^ 53)) as [E |]; [| lia].
    exfalso. rewrite E in Hnear. nia. }
  destruct k as [| pk |] eqn:Ek; try lia.
  unfold F64.mul, F64.div.
  rewrite (div_canonical pa pn pk (t - 52) (t - 52)); try lia.
  replace (t - 52 - (t - 52) - 53) with (-53) by lia.
  split; [reflexivity |].
  unfold SFmul. cbn [xorb].
  set (P := Zpos pn * Zpos pk).
  assert (HP : 2 ^ 104 <= P < 2 ^ 106) by (subst P; nia).
  assert (HPnear : 2 * Z.abs (P - Zpos pa * 2 ^ 53) <= Zpos pn).
  { subst P. replace (Zpos pn * Zpos pk - Zpos pa * 2 ^ 53)
      with (Zpos pk * Zpos pn - Zpos pa * 2 ^ 53) by ring. exact Hnear. }
  destruct (Z.le_gt_cases (2 ^ 105) P) as [Hbig | Hsmall].
  - rewrite (binary_round_aux_shift (pn * pk) (t - 52 + -53) 53 pa); try lia.
    + f_equal. lia.
    + apply digits2_pos_unique. rewrite Pos2Z.inj_mul. fold P. 
      change (53 + 53 - 1) with 105. change (53 + 53) with 106. lia.
    + rewrite Pos2Z.inj_mul. fold P. apply rne_shift_near; [lia |].
      change (2 ^ Zpos 53) with (2 ^ 53). nia.
  - assert (Epa : Zpos pa = 2 ^ 52) by lia.
    assert (HPlo : 2 ^ 105 - 2 ^ 51 <= P).
    { assert (Hx : 2 ^ 105 - P = S * ((n - 1) * 2 ^ 53 - n * Zpos pk)).
      { subst P. rewrite Hpn. replace (2 ^ 105) with (Zpos pa * 2 ^ 53) by (rewrite Epa; reflexivity).
        rewrite Hpa. ring. }
      assert (Hn1 : n - 1 = T) by nia.
      assert (Hpn' : Zpos pn = S * (T + 1)) by (rewrite Hpn; nia).
      set (x := (n - 1) * 2 ^ 53 - n * Zpos pk) in *.
      assert (2 * (S * x) <= S * (T + 1)) by lia.
      assert (2 * x <= T + 1) by nia.
      assert (x <= T') by lia.
      assert (S * x <= S * T') by nia.
      assert (2 * (S * T') = 2 ^ 52) by nia.
      lia. }
    rewrite (binary_round_aux_carry (pn * pk) (t - 52 + -53) 52); try lia.
    + injection Epa as ->. f_equal. lia.
    + apply digits2_pos_unique. rewrite Pos2Z.inj_mul. fold P.
      change (53 + 52 - 1) with 104. change (53 + 52) with 105. lia.
    + rewrite Pos2Z.inj_mul. fold P. apply rne_shift_carry. lia.
Qed.

(** ** The world: what each primitive changes *)


Lemma same_env_refl w : same_env w w.
Proof. repeat split. Qed.

Lemma same_env_trans w1 w2 w3 : same_env w1 w2 -> same_env w2 w3 -> same_env w1 w3.
Proof. intros (a & b & c) (a' & b' & c'). repeat split; congruence. Qed.

Lemma w_write_spec (p : string * string) (c : content) (w : world) :
  w_write p c w =
  if bool_decide (p ∈ unwritable w) then (w, Raise OSError)
  else (set_files (<[p := mk_file c (total_microseconds (clock w (tick w)))]> (files w)) w, Ok tt).
Proof. reflexivity. Qed.


Lemma w_write_ok p c w :
  exists w' r, w_write p c w = (w', r)
    /\ (forall x, r = Raise x -> x = OSError)
    /\ same_env w w' /\ tick w' = tick w /\ log w' = log w.
Proof.
  rewrite w_write_spec. case_bool_decide; eexists _, _; (split; [reflexivity|]);
    repeat split; intros; congruence.
Qed.

Lemma export_to_json_ok : exporter_ok (fun d p i => export_to_json d p i None).
Proof.
  intros dps p i w. unfold export_to_json.
  destruct (w_write_ok p (CJson (VList (map json_of_DataPoint (select i dps)))) w)
    as (w' & r & E & Hr & H).
  exists w', r. split; [exact E|]. split; [|exact H].
  intros x Hx. rewrite (Hr x Hx). reflexivity.
Qed.

Lemma export_to_gpx_ok : exporter_ok export_to_gpx.
Proof.
  intros dps p i w. unfold export_to_gpx.
  destruct (w_write_ok p (CGpx (omap gpx_point (select i dps))) w)
    as (w' & r & E & Hr & H).
  exists w', r. split; [exact E|]. split; [|exact H].
  intros x Hx. rewrite (Hr x Hx). reflexivity.
Qed.

Lemma csv_row_failure header row e :
  csv_row header row = Raise e -> is_Exception e = true.
Proof. unfold csv_row. case_match; intros [= <-]. reflexivity. Qed.

Lemma csv_rows_failure header dps rows e :
  csv_rows header dps = (rows, Some e) -> is_Exception e = true.
Proof.
  revert rows. induction dps as [| dp dps IH]; intros rows; cbn [csv_rows].
  - discriminate.
  - destruct (csv_row header _) as [r | e'] eqn:Er.
    + destruct (csv_rows header dps) as [rs e''] eqn:E. intros [= <- ->]. eapply IH. reflexivity.
    + intros [= <- <-]. eapply csv_row_failure. exact Er.
Qed.

Lemma export_to_csv_ok : exporter_ok (fun d p i => export_to_csv d p i None).
Proof.
  intros dps p i w. unfold export_to_csv, bind, ret, raise.
  destruct (select i dps) as [| dp rest] eqn:Es.
  - eexists _, _. split; [reflexivity|]. repeat split. intros x [= <-]. reflexivity.
  - destruct (csv_rows ("timestamp" :: dict_keys (input_data dp)) (dp :: rest)) as [rows failure] eqn:Er.
    destruct (w_write_ok p (CCsv ("timestamp" :: dict_keys (input_data dp)) rows) w)
      as (w' & r & E & Hr & H).
    rewrite E. destruct r as [[] | x].
    + destruct failure as [e |].
      * eexists _, _. split; [reflexivity|]. split; [|exact H].
        intros x [= <-]. eapply csv_rows_failure. exact Er.
      * eexists _, _. split; [reflexivity|]. split; [|exact H]. intros x [=].
    + eexists _, _. split; [reflexivity|]. split; [|exact H].
      intros y [= <-]. rewrite (Hr x eq_refl). reflexivity.
Qed.

Lemma export_methods_ok s e : _export_methods s = Some e -> exporter_ok e.
Proof.
  unfold _export_methods. repeat case_match; intros [= <-];
    auto using export_to_json_ok, export_to_csv_ok, export_to_gpx_ok.
Qed.

(** ** [Track.save] *)


Lemma w_log_spec level msg w : w_log level msg w = (add_log level msg w, Ok tt).
Proof. reflexivity. Qed.

(** What [save] does with the JSON exporter and a given file name. *)
Lemma save_json_spec (fname dir : string) (interval : slice) (t : Track) (w : world) :
  let p := (dir, fname +:+ "." +:+ "json") in
  save (FmtStr "json") (Some fname) (Some dir) (Some interval) (t, w) =
  if bool_decide (p ∈ unwritable w)
  then ((t, add_log "critical" "error in saving track" w), Ok tt)
  else ((t, add_log "info" "saving track"
              (set_files (<[p := mk_file (CJson (VList (map json_of_DataPoint
                                            (select (Some interval) (data_points t)))))
                                         (total_microseconds (clock w (tick w)))]> (files w)) w)),
        Ok tt).
Proof.
  intros p. unfold save, try_except, bind, ret, self, in_world. cbn.
  unfold export_to_json. rewrite w_write_spec. fold p.
  case_bool_decide; reflexivity.
Qed.

(** The outcome of [save], whatever the format: it returns, the recorder
    is untouched, and the last log record tells how the export went. *)
Lemma save_spec (fmt : file_format) (fname out : option string) (interval : option slice)
    (t : Track) (w : world) :
  hashable fmt = true ->
  exists w',
    save fmt fname out interval (t, w) = ((t, w'), Ok tt)
    /\ same_env w w'
    /\ (last (log w') = Some ("info", "saving track")
        \/ last (log w') = Some ("critical", "error in saving track")).
Proof.
  intros Hhash. unfold save.
  (* the file name *)
  assert (Hname : exists fname' w0,
             (match fname with
              | Some f => ret f
              | None => do now <- in_world w_now; ret (strftime now)
              end) (t, w) = ((t, w0), Ok fname') /\ same_env w w0).
  { destruct fname as [f |].
    - exists f, w. split; [reflexivity | apply same_env_refl].
    - eexists _, _. split; [reflexivity |]. repeat split. }
  destruct Hname as (fname' & w0 & Ename & Henv0).
  unfold bind at 1. rewrite Ename.
  unfold bind at 1. unfold self at 1.
  destruct fmt as [s | f | |]; [| | | discriminate].
  - destruct (_export_methods s) as [e |] eqn:Em.
    + unfold bind at 1, ret at 1. unfold try_except, bind, ret, self, in_world.
      destruct (export_methods_ok s e Em (data_points t) (default (output_dir t) out, fname' +:+ "." +:+ s) interval w0)
        as (w1 & r & Ee & Hr & Henv1 & _ & _).
      rewrite Ee. destruct r as [[] | x].
      * eexists. split; [reflexivity |]. split.
        -- eapply same_env_trans; [exact Henv0 |]. destruct Henv1 as (a & b & c). repeat split; assumption.
        -- left. cbn. apply last_snoc.
      * rewrite (Hr x eq_refl). eexists. split; [reflexivity |]. split.
        -- eapply same_env_trans; [exact Henv0 |]. destruct Henv1 as (a & b & c). repeat split; assumption.
        -- right. cbn. apply last_snoc.
    + eexists. split; [reflexivity |]. split.
      * destruct Henv0 as (a & b & c). repeat split; assumption.
      * right. cbn. apply last_snoc.
  - eexists. split; [reflexivity |]. split.
    + destruct Henv0 as (a & b & c). repeat split; assumption.
    + right. cbn. apply last_snoc.
  - eexists. split; [reflexivity |]. split.
    + destruct Henv0 as (a & b & c). repeat split; assumption.
    + right. cbn. apply last_snoc.
Qed.

(** ** The trim of a full buffer *)

Lemma to_int_of_int (a : Z) : 0 <= a < 2 ^ 53 -> F64.to_int (F64.of_int a) = Ok a.
Proof.
  intros Ha. destruct (Z.eq_dec a 0) as [-> | Hnz]; [reflexivity |].
  destruct (of_int_spec a ltac:(lia)) as (p & s & Hs & Hp & _ & _ & Hof).
  rewrite Hof. cbn [F64.to_int]. f_equal.
  destruct s as [| q | q]; try lia.
  - change (- 0) with 0. cbv iota. rewrite Z.shiftl_0_r. rewrite Hp. change (2 ^ 0) with 1. lia.
  - change (- Z.pos q) with (Z.neg q). cbv iota. rewrite Z.shiftr_div_pow2 by lia. rewrite Hp.
    apply Z.div_mul. apply Z.pow_nonzero; lia.
Qed.

(** [int(n * max(0.0, min((n - 1) / n, 1.0)))] is [n - 1]. *)
Lemma num_to_remove_exact (n : Z) :
  1 <= n < 2 ^ 53 ->
  exists q, F64.truediv (n - 1) n = Ok q
            /\ F64.to_int (F64.mul (F64.of_int n) (F64.clamp01 q)) = Ok (n - 1).
Proof.
  intros Hn. unfold F64.truediv.
  destruct (Z.eqb_spec n 0) as [-> | _]; [lia |].
  eexists. split; [reflexivity |].
  destruct (Z.eq_dec n 1) as [-> | Hn1]; [reflexivity |].
  destruct (mul_div_pred n ltac:(lia)) as [Hc Hm].
  rewrite Hc, Hm. apply to_int_of_int. lia.
Qed.

Lemma py_del_slice_front {A} (l : list A) (k : Z) :
  0 <= k <= Z.of_nat (length l) ->
  py_del_slice 0 k l = drop (Z.to_nat k) l.
Proof.
  intros Hk. unfold py_del_slice, slice_bounds, clamp_index. cbn [from_option].
  replace (0 <? 0) with false by reflexivity.
  replace (k <? 0) with false by (symmetry; apply Z.ltb_ge; lia).
  rewrite (Z.min_l 0) by lia. rewrite (Z.min_l k) by lia.
  destruct (Z.ltb_spec 0 k) as [Hpos | Hzero].
  - reflexivity.
  - replace k with 0 by lia. reflexivity.
Qed.

Lemma remove_datapoints_full (t : Track) (w : world) (q : spec_float) :
  1 <= len (data_points t) ->
  F64.to_int (F64.mul (F64.of_int (len (data_points t))) (F64.clamp01 q))
  = Ok (len (data_points t) - 1) ->
  _remove_datapoints 0 q (t, w) =
  ((set_data_points (drop (Z.to_nat (len (data_points t) - 1)) (data_points t)) t,
    add_log "info" "cleared data points" w), Ok tt).
Proof.
  intros Hn Hq. unfold _remove_datapoints, bind, self, lift, on_track, in_world.
  destruct (data_points t) as [| dp dps] eqn:Edps.
  - unfold len in Hn. cbn in Hn. lia.
  - rewrite Hq. set (n := len (dp :: dps)) in *.
    replace (Z.max 0 (Z.min 0 (n - 1))) with 0 by lia.
    replace (Z.min (0 + (n - 1)) n) with (n - 1) by lia.
    rewrite py_del_slice_front by (unfold n, len in *; lia).
    reflexivity.
Qed.

(** ** Directory listings *)

Lemma listdir_lookup (d n : string) (f : file) (w : world) :
  (n, f) ∈ listdir d w -> files w !! (d, n) = Some f.
Proof.
  unfold listdir. rewrite list_elem_of_omap. intros ([[d' n'] f'] & Hin & Hf).
  apply elem_of_map_to_list in Hin.
  destruct (String.eqb_spec d' d) as [-> |]; [| discriminate].
  injection Hf as -> ->. exact Hin.
Qed.

Lemma insert_by_elem_of {A} (key : A -> Z) (x y : A) (l : list A) :
  y ∈ insert_by key x l <-> y = x \/ y ∈ l.
Proof.
  induction l as [| z l IH]; cbn [insert_by].
  - rewrite list_elem_of_singleton, elem_of_nil. tauto.
  - destruct (key x <=? key z).
    + rewrite !elem_of_cons. tauto.
    + rewrite !elem_of_cons, IH. tauto.
Qed.

Lemma sort_by_elem_of {A} (key : A -> Z) (y : A) (l : list A) :
  y ∈ sort_by key l <-> y ∈ l.
Proof.
  induction l as [| x l IH]; cbn [sort_by]; [reflexivity |].
  rewrite insert_by_elem_of, elem_of_cons, IH. reflexivity.
Qed.

(** Every checkpoint counted for retention exists and is not a [-full] one. *)
Lemma chk_files_elem_of (t : Track) (w : world) (n : string) (f : file) :
  (n, f) ∈ chk_files t w ->
  is_full n = false /\ files w !! (checkpoint_dir t, n) = Some f.
Proof.
  unfold chk_files, glob_glob. rewrite sort_by_elem_of, !list_elem_of_filter.
  intros (Hfull & _ & Hin). split; [exact Hfull | apply listdir_lookup; exact Hin].
Qed.

(** ** Checkpoints *)

Lemma prune_checkpoints_spec (t : Track) (w : world) :
  exists w' r,
    prune_checkpoints (t, w) = ((t, w'), r)
    /\ same_env w w' /\ log w' = log w /\ tick w' = tick w
    /\ (files w' = files w
        \/ exists n, is_full n = false /\ files w' = delete (checkpoint_dir t, n) (files w))
    /\ (r = Ok tt \/ r = Raise OSError)
    /\ (undeletable w = ∅ -> r = Ok tt).
Proof.
  unfold prune_checkpoints, bind, get.
  destruct (max_checkpoint_files t <? length (chk_files t w))%nat eqn:Hlen.
  - destruct (chk_files t w) as [| [n f] rest] eqn:Ef.
    + cbn in Hlen. discriminate Hlen.
    + assert (Hin : (n, f) ∈ chk_files t w) by (rewrite Ef; left).
      apply chk_files_elem_of in Hin as [Hfull Hlook].
      unfold in_world, w_remove. rewrite Hlook.
      case_bool_decide as Hdel.
      * exists w, (Raise OSError). repeat split; auto.
        intros Hempty. rewrite Hempty in Hdel. set_solver.
      * eexists _, _. split; [reflexivity |]. repeat split; auto.
        right. exists n. split; [exact Hfull | reflexivity].
  - exists w, (Ok tt). repeat split; auto.
Qed.

Lemma set_last_checkpoint_id (t : Track) : set_last_checkpoint (_last_checkpoint t) t = t.
Proof. destruct t; reflexivity. Qed.

Lemma same_but_checkpoint_refl (t : Track) : same_but_checkpoint t t.
Proof. exists (_last_checkpoint t). symmetry. apply set_last_checkpoint_id. Qed.

Lemma same_but_checkpoint_trans (t1 t2 t3 : Track) :
  same_but_checkpoint t1 t2 -> same_but_checkpoint t2 t3 -> same_but_checkpoint t1 t3.
Proof. intros [c ->] [c' ->]. exists c'. reflexivity. Qed.

Lemma same_but_checkpoint_fields (t t' : Track) :
  same_but_checkpoint t t' ->
  data_points t' = data_points t /\ max_datapoints t' = max_datapoints t
  /\ field_names t' = field_names t /\ preprocessors t' = preprocessors t
  /\ save_mode t' = save_mode t /\ checkpoint_interval t' = checkpoint_interval t
  /\ checkpoint_dir t' = checkpoint_dir t
  /\ _save_interval_start t' = _save_interval_start t
  /\ max_checkpoint_files t' = max_checkpoint_files t.
Proof. intros [c ->]. repeat split. Qed.

Lemma write_checkpoint_spec (now : datetime) (sp : option string) (t : Track) (w : world) :
  exists w',
    write_checkpoint now sp (t, w) = ((set_last_checkpoint (Some now) t, w'), Ok tt)
    /\ same_env w w'.
Proof.
  unfold write_checkpoint, bind, on_track. unfold self at 1.
  destruct (save_spec (FmtStr "json")
              (Some match sp with
                    | Some sp0 => (strftime now +:+ sp0) +:+ ".chk"
                    | None => strftime now +:+ ".chk"
                    end)
              (Some (checkpoint_dir (set_last_checkpoint (Some now) t)))
              (Some (mk_slice (_save_interval_start (set_last_checkpoint (Some now) t))
                              (Some (len (data_points (set_last_checkpoint (Some now) t)) - 1))))
              (set_last_checkpoint (Some now) t) w eq_refl) as (w' & E & Henv & _).
  exists w'. split; [exact E | exact Henv].
Qed.

(** [_save_checkpoint] never touches the buffer, and fails only when a
    checkpoint file cannot be deleted. *)
Lemma save_checkpoint_frame (force : bool) (sp : option string) (t : Track) (w : world) :
  exists t' w' r,
    _save_checkpoint force sp (t, w) = ((t', w'), r)
    /\ same_but_checkpoint t t' /\ same_env w w'
    /\ (r = Ok tt \/ r = Raise OSError)
    /\ (undeletable w = ∅ -> r = Ok tt).
Proof.
  unfold _save_checkpoint. unfold bind at 1, self at 1.
  destruct (checkpoint_interval t) as [every |].
  2:{ exists t, w, (Ok tt). repeat split; auto using same_but_checkpoint_refl. }
  destruct (String.eqb (save_mode t) "continuous").
  2:{ exists t, w, (Ok tt). repeat split; auto using same_but_checkpoint_refl. }
  unfold bind at 1. unfold in_world at 1, w_now at 1.
  set (w0 := mk_world (files w) (unwritable w) (undeletable w) (clock w) (S (tick w)) (log w)).
  assert (Henv0 : same_env w w0) by (repeat split).
  unfold bind at 1.
  destruct (checkpoint_due t every (clock w (tick w)) force).
  - destruct (write_checkpoint_spec (clock w (tick w)) sp t w0) as (w1 & E1 & Henv1).
    rewrite E1.
    destruct (prune_checkpoints_spec (set_last_checkpoint (Some (clock w (tick w))) t) w1)
      as (w2 & r & E2 & Henv2 & _ & _ & _ & Hr & Hok).
    rewrite E2. eexists _, _, _. split; [reflexivity |].
    split; [eexists; reflexivity |].
    split; [eauto using same_env_trans |].
    split; [exact Hr |].
    intros Hu. apply Hok. destruct Henv1 as (_ & -> & _). exact Hu.
  - unfold ret at 1.
    destruct (prune_checkpoints_spec t w0) as (w2 & r & E2 & Henv2 & _ & _ & _ & Hr & Hok).
    rewrite E2. eexists _, _, _. split; [reflexivity |].
    split; [apply same_but_checkpoint_refl |].
    split; [eauto using same_env_trans |].
    split; [exact Hr |]. exact Hok.
Qed.

(** ** [add_point] *)

Lemma same_env_add_log level msg (w : world) : same_env w (add_log level msg w).
Proof. repeat split. Qed.

Lemma w_in_log level msg (t : Track) (w : world) :
  in_world (w_log level msg) (t, w) = ((t, add_log level msg w), Ok tt).
Proof. reflexivity. Qed.

Lemma add_point_mismatch ts data names (t : Track) (w : world) :
  field_names t = Some names -> schema_mismatch names data = true ->
  add_point ts data (t, w) = ((t, w), Raise (ValueError "inconsistent fields")).
Proof.
  intros Hf Hm. unfold add_point. unfold bind at 1, self at 1.
  rewrite Hf, Hm. reflexivity.
Qed.


Lemma add_point_spec ts data (t : Track) (w : world) :
  schema_ok t data ->
  len (data_points t) < 2 ^ 53 ->
  exists t' w' r,
    add_point ts data (t, w) = ((t', w'), r)
    /\ same_env w w'
    /\ (r = Ok tt \/ r = Raise OSError)
    /\ (undeletable w = ∅ -> r = Ok tt)
    /\ (data_points t' = kept_after_trim t ++ [preprocess t (mk_DataPoint ts data)]
        \/ (r = Raise OSError /\ data_points t' = data_points t))
    /\ (exists t0, same_but_checkpoint t t0 /\ t' = set_data_points (data_points t') t0).
Proof.
  intros Hschema Hlen. unfold add_point. unfold bind at 1, self at 1.
  assert (Hcheck : (match field_names t with
                    | Some names => if schema_mismatch names data
                                    then raise (ValueError "inconsistent fields") else ret tt
                    | None => ret tt
                    end) (t, w) = ((t, w), Ok tt)).
  { unfold schema_ok in Hschema. destruct (field_names t); [rewrite Hschema |]; reflexivity. }
  unfold bind at 1. rewrite Hcheck. clear Hcheck.
  unfold bind at 1. unfold kept_after_trim.
  destruct (Z.of_nat (max_datapoints t) <? len (data_points t)) eqn:Hover.
  - (* the buffer is over the threshold *)
    apply Z.ltb_lt in Hover.
    unfold bind at 1. rewrite w_in_log.
    unfold bind at 1.
    destruct (save_checkpoint_frame true (Some "-full") t (add_log "warning" "maximum number of datapoints reached" w))
      as (t1 & w1 & r1 & E1 & Ht1 & Henv1 & Hr1 & Hok1).
    rewrite E1.
    pose proof (same_but_checkpoint_fields _ _ Ht1) as (Hdp1 & Hmax1 & Hfn1 & Hpp1 & _).
    destruct Hr1 as [-> | ->].
    2:{ eexists _, _, _. split; [reflexivity |].
        split; [eapply same_env_trans; [apply same_env_add_log | exact Henv1] |].
        split; [right; reflexivity |].
        split; [intros Hu; apply Hok1; exact Hu |].
        split; [right; split; [reflexivity | exact Hdp1] |].
        exists t1. split; [exact Ht1 |]. destruct t1; reflexivity. }
    unfold bind at 1, self at 1.
    destruct (num_to_remove_exact (len (data_points t1)) ltac:(rewrite Hdp1; lia)) as (q & Eq & Hq).
    unfold bind at 1, lift at 1. rewrite Eq.
    rewrite (remove_datapoints_full t1 w1 q ltac:(rewrite Hdp1; lia) Hq).
    unfold bind at 1, self at 1. unfold bind at 1, on_track at 1.
    set (t2 := set_data_points (drop (Z.to_nat (len (data_points t1) - 1)) (data_points t1)) t1).
    set (w2 := add_log "info" "cleared data points" w1).
    destruct (save_checkpoint_frame false None
                (set_data_points (data_points t2 ++ [preprocess t2 (mk_DataPoint ts data)]) t2) w2)
      as (t3 & w3 & r3 & E3 & Ht3 & Henv3 & Hr3 & Hok3).
    rewrite E3.
    pose proof (same_but_checkpoint_fields _ _ Ht3) as (Hdp3 & _).
    eexists _, _, _. split; [reflexivity |].
    split.
    { eapply same_env_trans; [| exact Henv3].
      eapply same_env_trans; [| apply same_env_add_log].
      eapply same_env_trans; [apply same_env_add_log | exact Henv1]. }
    split; [exact Hr3 |].
    split.
    { intros Hu. apply Hok3. subst w2. cbn. destruct Henv1 as (_ & -> & _). exact Hu. }
    split.
    { left. rewrite Hdp3. cbn. rewrite Hdp1. f_equal. f_equal.
      unfold preprocess. cbn. rewrite Hpp1. reflexivity. }
    destruct Ht1 as [c1 ->]. destruct Ht3 as [c3 ->].
    exists (set_last_checkpoint c3 t). split; [eexists; reflexivity |].
    destruct t; reflexivity.
  - (* no trim *)
    unfold ret at 1. unfold bind at 1, self at 1. unfold bind at 1, on_track at 1.
    destruct (save_checkpoint_frame false None
                (set_data_points (data_points t ++ [preprocess t (mk_DataPoint ts data)]) t) w)
      as (t3 & w3 & r3 & E3 & Ht3 & Henv3 & Hr3 & Hok3).
    rewrite E3.
    pose proof (same_but_checkpoint_fields _ _ Ht3) as (Hdp3 & _).
    eexists _, _, _. split; [reflexivity |].
    split; [exact Henv3 |].
    split; [exact Hr3 |].
    split; [exact Hok3 |].
    split; [left; rewrite Hdp3; reflexivity |].
    destruct Ht3 as [c3 ->].
    exists (set_last_checkpoint c3 t). split; [eexists; reflexivity |].
    destruct t; reflexivity.
Qed.

(** ** The claims on the recorder *)




(** C10. [get_latest_data] returns (the empty list) exactly when the buffer
    is empty; on any non-empty buffer it raises [AttributeError], reading
    the attribute [data] that [DataPoint] does not define. *)
Theorem get_latest_data_raises (t : Track) (w : world) :
  (data_points t = [] -> get_latest_data (t, w) = ((t, w), Ok []))
  /\ (data_points t <> [] -> get_latest_data (t, w) = ((t, w), Raise AttributeError))
  /\ (forall s r, get_latest_data (t, w) = (s, Ok r) -> data_points t = [] /\ r = []).
Proof.
  assert (Hne : data_points t <> [] ->
                get_latest_data (t, w) = ((t, w), Raise AttributeError)).
  { intros H. unfold get_latest_data, bind, self.
    destruct (data_points t) as [| dp dps]; [congruence | reflexivity]. }
  assert (He : data_points t = [] -> get_latest_data (t, w) = ((t, w), Ok [])).
  { intros H. unfold get_latest_data, bind, self. rewrite H. reflexivity. }
  split; [exact He |]. split; [exact Hne |].
  intros s r E. destruct (data_points t) as [| dp dps] eqn:Edp.
  - rewrite He in E by reflexivity. injection E as _ <-. split; reflexivity.
  - rewrite Hne in E by discriminate. discriminate.
Qed.

Lemma get_latest_data_raises_witness :
  data_points (track_of 5 "continuous" None [sample 1]) <> []
  /\ get_latest_data (track_of 5 "continuous" None [sample 1], quiet_world)
     = ((track_of 5 "continuous" None [sample 1], quiet_world), Raise AttributeError).
Proof.
  split; [discriminate |].
  apply (get_latest_data_raises (track_of 5 "continuous" None [sample 1]) quiet_world).
  discriminate.
Defined.

(** *** The bound on the buffer *)

Lemma kept_after_trim_length (t : Track) :
  (length (kept_after_trim t) <= 1
   \/ length (kept_after_trim t) <= max_datapoints t)%nat.
Proof.
  unfold kept_after_trim, len.
  destruct (Z.ltb_spec (Z.of_nat (max_datapoints t)) (Z.of_nat (length (data_points t)))).
  - left. rewrite length_drop. lia.
  - right. lia.
Qed.

Lemma add_point_step_bound ts data (t : Track) (w : world) :
  (1 <= max_datapoints t)%nat ->
  Z.of_nat (max_datapoints t) + 1 < 2 ^ 53 ->
  within_bound t ->
  within_bound (fst (fst (add_point ts data (t, w))))
  /\ max_datapoints (fst (fst (add_point ts data (t, w)))) = max_datapoints t.
Proof.
  intros Hmax Hbig Hb. unfold within_bound in *.
  destruct (field_names t) as [names |] eqn:Hf.
  - destruct (schema_mismatch names data) eqn:Hm.
    + rewrite (add_point_mismatch ts data names t w Hf Hm). cbn. split; [exact Hb | reflexivity].
    + destruct (add_point_spec ts data t w) as (t' & w' & r & E & _ & _ & _ & Hdp & t0 & Ht0 & Ht').
      { unfold schema_ok. rewrite Hf. exact Hm. }
      { unfold len. lia. }
      rewrite E. cbn [fst].
      pose proof (same_but_checkpoint_fields _ _ Ht0) as (_ & Hmax0 & _).
      assert (Hm' : max_datapoints t' = max_datapoints t) by (rewrite Ht'; cbn; exact Hmax0).
      split; [| exact Hm']. rewrite Hm'.
      destruct Hdp as [-> | [_ ->]]; [| exact Hb].
      rewrite length_app. cbn [length]. destruct (kept_after_trim_length t); lia.
  - destruct (add_point_spec ts data t w) as (t' & w' & r & E & _ & _ & _ & Hdp & t0 & Ht0 & Ht').
    { unfold schema_ok. rewrite Hf. exact I. }
    { unfold len. lia. }
    rewrite E. cbn [fst].
    pose proof (same_but_checkpoint_fields _ _ Ht0) as (_ & Hmax0 & _).
    assert (Hm' : max_datapoints t' = max_datapoints t) by (rewrite Ht'; cbn; exact Hmax0).
    split; [| exact Hm']. rewrite Hm'.
    destruct Hdp as [-> | [_ ->]]; [| exact Hb].
    rewrite length_app. cbn [length]. destruct (kept_after_trim_length t); lia.
Qed.

(** C1, for [max_datapoints >= 1]. With [1 <= max_datapoints] (and [max_datapoints + 1]
    below [2^53]), a buffer within [max_datapoints + 1] stays within it
    after every [add_point] call of any sequence, whether the call returns
    or raises. *)
Theorem buffer_bound_invariant (calls : list (datetime * list (string * pyval)))
    (t : Track) (w : world) :
  (1 <= max_datapoints t)%nat ->
  Z.of_nat (max_datapoints t) + 1 < 2 ^ 53 ->
  within_bound t ->
  Forall (fun s => within_bound (fst s)) (states_after calls (t, w)).
Proof.
  revert t w. induction calls as [| [ts data] calls IH]; intros t w Hmax Hbig Hb; cbn [states_after].
  - constructor.
  - destruct (add_point_step_bound ts data t w Hmax Hbig Hb) as [Hb' Hm'].
    destruct (add_point ts data (t, w)) as [[t' w'] r] eqn:E. cbn [fst] in *.
    constructor; [exact Hb' |].
    apply IH; [rewrite Hm'; exact Hmax | rewrite Hm'; exact Hbig | exact Hb'].
Qed.

Lemma buffer_bound_invariant_witness :
  Forall (fun s => within_bound (fst s))
         (states_after [(noon, [("a", VInt 2)]); (noon, [("a", VInt 3)]); (noon, [("a", VInt 4)])]
                       (track_of 1 "continuous" (Some ["a"]) [sample 1], quiet_world)).
Proof.
  apply buffer_bound_invariant.
  - cbn. lia.
  - cbn. lia.
  - unfold within_bound. cbn. lia.
Defined.

(** C1 does not hold when [max_datapoints = 0]: one sample is always
    kept, so the call leaves two samples in a buffer bounded by one. *)
Lemma buffer_bound_fails_at_zero :
  within_bound (track_of 0 "on-demand" (Some ["a"]) [sample 1])
  /\ schema_ok (track_of 0 "on-demand" (Some ["a"]) [sample 1]) [("a", VInt 2)]
  /\ exists t' w',
       add_point noon [("a", VInt 2)]
         (track_of 0 "on-demand" (Some ["a"]) [sample 1], quiet_world)
       = ((t', w'), Ok tt)
       /\ data_points t' = [sample 1; sample 2]
       /\ ~ within_bound t'.
Proof.
  split; [unfold within_bound; cbn; lia |].
  split; [vm_compute; reflexivity |].
  eexists _, _. split; [vm_compute; reflexivity |].
  split; [reflexivity |].
  unfold within_bound. cbn. lia.
Qed.

(** ** The schema check *)



(** The spec's two examples: schema [{a, b}], keys [{a}] and [{a, b}]. *)
Example add_point_schema_examples :
  snd (add_point noon [("a", VInt 1)]
         (track_of 5 "continuous" (Some ["a"; "b"]) [], quiet_world))
  = Raise (ValueError "inconsistent fields")
  /\ snd (add_point noon [("a", VInt 1); ("b", VInt 2)]
            (track_of 5 "continuous" (Some ["a"; "b"]) [], quiet_world))
     = Ok tt.
Proof. split; vm_compute; reflexivity. Qed.


(** With three samples in the buffer and no run start index, the final
    export of [end_run] and a forced checkpoint both hold the first two
    samples only. *)
Example export_slice_example :
  (exists t' w',
     end_run (track_of 5 "continuous" None [sample 1; sample 2; sample 3], quiet_world)
     = ((t', w'), Ok tt)
     /\ f_content <$> files w' !! ("data", "20240102-120000.json")
        = Some (CJson (VList (map json_of_DataPoint [sample 1; sample 2]))))
  /\ (exists t' w',
        _save_checkpoint true None
          (track_of 5 "continuous" None [sample 1; sample 2; sample 3], quiet_world)
        = ((t', w'), Ok tt)
        /\ f_content <$> files w' !! ("data/chk", "20240102-120000.chk.json")
           = Some (CJson (VList (map json_of_DataPoint [sample 1; sample 2])))).
Proof.
  split; eexists _, _; (split; [vm_compute; reflexivity | vm_compute; reflexivity]).
Qed.

(** ** Checkpoint file names *)

Lemma string_app_cons (c : ascii) (s r : string) :
  String c s +:+ r = String c (s +:+ r).
Proof. reflexivity. Qed.

Lemma string_app_assoc (s1 s2 s3 : string) :
  (s1 +:+ s2) +:+ s3 = s1 +:+ (s2 +:+ s3).
Proof.
  induction s1 as [| c s1 IH]; [reflexivity |].
  rewrite !string_app_cons, IH. reflexivity.
Qed.

Lemma string_length_app (s1 s2 : string) :
  String.length (s1 +:+ s2) = (String.length s1 + String.length s2)%nat.
Proof.
  induction s1 as [| c s1 IH]; [reflexivity |].
  rewrite string_app_cons. cbn [String.length]. rewrite IH. reflexivity.
Qed.

Lemma pad_length (k : nat) (n : Z) : String.length (pad k n) = k.
Proof. induction k as [| k IH]; cbn [pad String.length]; [reflexivity | rewrite IH; reflexivity]. Qed.

Lemma strftime_length (t : datetime) : String.length (strftime t) = 15%nat.
Proof. unfold strftime. rewrite !string_length_app, !pad_length. reflexivity. Qed.

Lemma ends_with_refl (s : string) : ends_with s s = true.
Proof. destruct s; cbn [ends_with]; rewrite String.eqb_refl; reflexivity. Qed.

Lemma ends_with_app (suf s : string) : ends_with suf (s +:+ suf) = true.
Proof.
  induction s as [| c s IH].
  - apply ends_with_refl.
  - rewrite string_app_cons. cbn [ends_with]. rewrite IH. apply orb_true_r.
Qed.

Lemma checkpoint_name_full (now : datetime) :
  is_full (checkpoint_name now (Some "-full")) = true.
Proof.
  unfold is_full, checkpoint_name. rewrite !string_app_assoc.
  apply (ends_with_app "-full.chk.json").
Qed.

Lemma checkpoint_name_length (now : datetime) :
  String.length (checkpoint_name now (Some "-full")) = 29%nat
  /\ String.length (checkpoint_name now None) = 24%nat.
Proof.
  unfold checkpoint_name. rewrite !string_length_app, !strftime_length. split; reflexivity.
Qed.

Lemma checkpoint_names_differ (now now' : datetime) :
  checkpoint_name now (Some "-full") <> checkpoint_name now' None.
Proof.
  intros H. apply (f_equal String.length) in H.
  destruct (checkpoint_name_length now) as [H1 _].
  destruct (checkpoint_name_length now') as [_ H2]. congruence.
Qed.

(** ** The files a checkpoint evaluation touches *)

Lemma write_checkpoint_files (now : datetime) (sp : option string) (t : Track) (w : world) :
  let p := (checkpoint_dir t, checkpoint_name now sp) in
  exists w',
    write_checkpoint now sp (t, w) = ((set_last_checkpoint (Some now) t, w'), Ok tt)
    /\ same_env w w' /\ tick w' = tick w
    /\ (if bool_decide (p ∈ unwritable w) then files w' = files w
        else files w' = <[p := mk_file (checkpoint_doc t)
                                        (total_microseconds (clock w (tick w)))]> (files w)).
Proof.
  intros p. unfold write_checkpoint, bind, on_track. unfold self at 1.
  rewrite save_json_spec. cbn [checkpoint_dir set_last_checkpoint _save_interval_start data_points].
  unfold checkpoint_name in p. fold p.
  case_bool_decide; eexists; (split; [reflexivity |]); repeat split.
Qed.

Lemma prune_keeps_full (t : Track) (w : world) s' r (p : string * string) :
  prune_checkpoints (t, w) = (s', r) ->
  is_full (snd p) = true ->
  files (snd s') !! p = files w !! p.
Proof.
  intros E Hfull.
  destruct (prune_checkpoints_spec t w) as (w' & r' & E' & _ & _ & _ & Hfiles & _).
  rewrite E' in E. injection E as <- <-. cbn [snd].
  destruct Hfiles as [-> | (n & Hn & ->)]; [reflexivity |].
  apply lookup_delete_ne. intros <-. cbn [snd] in Hfull. congruence.
Qed.

(** A checkpoint evaluation leaves every [-full] file alone, except the
    one it writes itself. *)
Lemma save_checkpoint_keeps_full (force : bool) (sp : option string) (t : Track) (w : world)
    s' r (p : string * string) :
  _save_checkpoint force sp (t, w) = (s', r) ->
  is_full (snd p) = true ->
  p <> (checkpoint_dir t, checkpoint_name (clock w (tick w)) sp) ->
  files (snd s') !! p = files w !! p.
Proof.
  intros E Hfull Hne. unfold _save_checkpoint in E. unfold bind at 1, self at 1 in E.
  destruct (checkpoint_interval t) as [every |]; [| injection E as <- _; reflexivity].
  destruct (String.eqb (save_mode t) "continuous"); [| injection E as <- _; reflexivity].
  unfold bind at 1 in E. unfold in_world at 1, w_now at 1 in E.
  set (w0 := mk_world (files w) (unwritable w) (undeletable w) (clock w) (S (tick w)) (log w)) in E.
  unfold bind at 1 in E.
  destruct (checkpoint_due t every (clock w (tick w)) force).
  - destruct (write_checkpoint_files (clock w (tick w)) sp t w0) as (w1 & E1 & _ & _ & Hf1).
    rewrite E1 in E.
    rewrite (prune_keeps_full _ _ _ _ p E Hfull).
    case_bool_decide; rewrite Hf1; [reflexivity |].
    apply lookup_insert_ne. congruence.
  - unfold ret at 1 in E. rewrite (prune_keeps_full _ _ _ _ p E Hfull). reflexivity.
Qed.

(** A forced checkpoint in continuous mode writes its file. *)
Lemma forced_checkpoint_written (sp : option string) (t : Track) (w : world) s' r :
  save_mode t = "continuous" ->
  is_Some (checkpoint_interval t) ->
  let p := (checkpoint_dir t, checkpoint_name (clock w (tick w)) sp) in
  p ∉ unwritable w ->
  is_full (snd p) = true ->
  _save_checkpoint true sp (t, w) = (s', r) ->
  f_content <$> files (snd s') !! p = Some (checkpoint_doc t).
Proof.
  intros Hmode [every Hev] p Hw Hfull E.
  unfold _save_checkpoint in E. unfold bind at 1, self at 1 in E.
  rewrite Hev, Hmode, String.eqb_refl in E.
  unfold bind at 1 in E. unfold in_world at 1, w_now at 1 in E.
  set (w0 := mk_world (files w) (unwritable w) (undeletable w) (clock w) (S (tick w)) (log w)) in E.
  unfold bind at 1 in E.
  assert (Hdue : checkpoint_due t every (clock w (tick w)) true = true).
  { unfold checkpoint_due. destruct (_last_checkpoint t); [apply orb_true_r | reflexivity]. }
  rewrite Hdue in E.
  destruct (write_checkpoint_files (clock w (tick w)) sp t w0) as (w1 & E1 & _ & _ & Hf1).
  rewrite E1 in E. fold p in Hf1.
  rewrite (prune_keeps_full _ _ _ _ p E Hfull).
  rewrite bool_decide_eq_false_2 in Hf1 by exact Hw.
  rewrite Hf1, lookup_insert_eq. reflexivity.
Qed.

(** ** The slice handed to the exporter *)

(** [l[start : len(l) - 1]] is [l[start:]] without the last element, as long
    as [start] lies inside the list. *)
Lemma py_slice_misses_last {A} (start : option Z) (l : list A) (x : A) :
  from_option (fun s => s < Z.of_nat (length (l ++ [x]))) True start ->
  py_slice start None (l ++ [x])
  = py_slice start (Some (Z.of_nat (length (l ++ [x])) - 1)) (l ++ [x]) ++ [x].
Proof.
  intros Hstart. unfold py_slice, slice_bounds. cbn [from_option].
  assert (Hn : Z.of_nat (length (l ++ [x])) = Z.of_nat (length l) + 1)
    by (rewrite length_app; cbn [length]; lia).
  set (n := Z.of_nat (length (l ++ [x]))) in *. clearbody n.
  set (a := from_option (clamp_index n) 0 start).
  assert (Ha : 0 <= a <= Z.of_nat (length l)).
  { unfold a. destruct start as [s |]; cbn [from_option] in *; [| lia].
    unfold clamp_index. clear a.
    destruct (Z.ltb_spec s 0); lia. }
  assert (Hb : clamp_index n (n - 1) = n - 1).
  { unfold clamp_index. clearbody a.
    destruct (Z.ltb_spec (n - 1) 0); [lia |]. apply Z.min_l. lia. }
  rewrite Hb.
  rewrite drop_app_le by lia.
  rewrite (take_ge (drop (Z.to_nat a) l ++ [x]) (Z.to_nat (n - a)))
    by (rewrite length_app, length_drop; cbn [length]; lia).
  rewrite take_app_le by (rewrite length_drop; lia).
  rewrite take_ge by (rewrite length_drop; lia).
  reflexivity.
Qed.

(** [save()] with the defaults [end_run] uses: the file is named after the
    clock and goes to [output_dir]. *)
Lemma save_default_spec (interval : slice) (t : Track) (w : world) :
  let p := (output_dir t, strftime (clock w (tick w)) +:+ "." +:+ "json") in
  exists w',
    save (FmtStr "json") None None (Some interval) (t, w) = ((t, w'), Ok tt)
    /\ same_env w w'
    /\ (if bool_decide (p ∈ unwritable w) then files w' = files w
        else files w' = <[p := mk_file (CJson (VList (map json_of_DataPoint
                                            (select (Some interval) (data_points t)))))
                                        (total_microseconds (clock w (S (tick w))))]> (files w)).
Proof.
  intros p. unfold save, try_except, bind, ret, self, in_world. cbn.
  unfold export_to_json. rewrite w_write_spec. cbn [unwritable]. fold p.
  case_bool_decide; eexists; (split; [reflexivity |]); split; try reflexivity; repeat split.
Qed.

(** Deleting files of directory [d] leaves the other directories alone. *)
Lemma remove_loop_other_dirs (d : string) (l : list (string * file)) (t : Track) (w : world)
    (p : string * string) :
  fst p <> d ->
  exists w' r,
    for_each l (fun '(n, _) => in_world (w_remove (d, n))) (t, w) = ((t, w'), r)
    /\ same_env w w'
    /\ files w' !! p = files w !! p.
Proof.
  intros Hp. revert w. induction l as [| [n f] l IH]; intros w.
  - exists w, (Ok tt). split; [reflexivity |]. split; [apply same_env_refl | reflexivity].
  - cbn [for_each]. unfold bind at 1, in_world at 1, w_remove at 1.
    destruct (files w !! (d, n)) as [f' |].
    + case_bool_decide.
      * exists w, (Raise OSError). split; [reflexivity |].
        split; [apply same_env_refl | reflexivity].
      * destruct (IH (set_files (delete (d, n) (files w)) w)) as (w' & r & E & Henv & Hf).
        exists w', r. split; [exact E |]. split.
        -- destruct Henv as (a & b & c). repeat split; assumption.
        -- rewrite Hf. cbn [files set_files]. apply lookup_delete_ne.
           intros <-. apply Hp. reflexivity.
    + exists w, (Raise OSError). split; [reflexivity |].
      split; [apply same_env_refl | reflexivity].
Qed.

(** The final export of [end_run]. *)
Lemma end_run_export (t : Track) (w : world) :
  save_mode t <> "on-demand" ->
  output_dir t <> checkpoint_dir t ->
  let p := (output_dir t, strftime (clock w (tick w)) +:+ "." +:+ "json") in
  p ∉ unwritable w ->
  exists t' w' r,
    end_run (t, w) = ((t', w'), r)
    /\ f_content <$> files w' !! p = Some (checkpoint_doc t).
Proof.
  intros Hmode Hdir p Hw. unfold end_run. unfold bind at 1, self at 1.
  destruct (String.eqb_spec (save_mode t) "on-demand") as [| _]; [contradiction |].
  cbn [negb]. unfold bind at 1.
  destruct (save_default_spec
              (mk_slice (_save_interval_start t) (Some (len (data_points t) - 1))) t w)
    as (w1 & E1 & Henv1 & Hf1).
  rewrite E1. fold p in Hf1. rewrite bool_decide_eq_false_2 in Hf1 by exact Hw.
  unfold bind at 1, get at 1. cbn [snd]. unfold bind at 1.
  destruct (remove_loop_other_dirs (checkpoint_dir t)
              (filter (fun '(n, _) => is_full n = false)
                      (glob_glob (checkpoint_dir t) ".chk.json" w1)) t w1 p Hdir)
    as (w2 & r2 & E2 & _ & Hf2).
  rewrite E2.
  assert (Hfile : f_content <$> files w2 !! p = Some (checkpoint_doc t)).
  { rewrite Hf2, Hf1, lookup_insert_eq. reflexivity. }
  destruct r2 as [[] | e]; eexists _, _, _; (split; [reflexivity | exact Hfile]).
Qed.

(** C3. What the code exports. On a buffer [l ++ [x]] with the run start
    index inside it, the slice [[start, len)] is the slice
    [[start, len - 1)] followed by the last sample [x]; the document of a
    checkpoint ([write_checkpoint], through which [_save_checkpoint] writes
    every checkpoint) and the final export of [end_run] hold the slice
    [[start, len - 1)] only, so [x] is not exported. *)
Theorem export_slice_drops_last_sample (t : Track) (w : world)
    (l : list DataPoint) (x : DataPoint) :
  data_points t = l ++ [x] ->
  from_option (fun s => s < len (data_points t)) True (_save_interval_start t) ->
  py_slice (_save_interval_start t) None (data_points t)
  = py_slice (_save_interval_start t) (Some (len (data_points t) - 1)) (data_points t) ++ [x]
  /\ (forall now sp,
        (checkpoint_dir t, checkpoint_name now sp) ∉ unwritable w ->
        exists w',
          write_checkpoint now sp (t, w) = ((set_last_checkpoint (Some now) t, w'), Ok tt)
          /\ f_content <$> files w' !! (checkpoint_dir t, checkpoint_name now sp)
             = Some (checkpoint_doc t))
  /\ (save_mode t <> "on-demand" ->
      output_dir t <> checkpoint_dir t ->
      (output_dir t, strftime (clock w (tick w)) +:+ "." +:+ "json") ∉ unwritable w ->
      exists t' w' r,
        end_run (t, w) = ((t', w'), r)
        /\ f_content <$> files w' !! (output_dir t, strftime (clock w (tick w)) +:+ "." +:+ "json")
           = Some (checkpoint_doc t)).
Proof.
  intros Hdps Hstart. split; [| split].
  - unfold len in *. rewrite Hdps in *. apply py_slice_misses_last. exact Hstart.
  - intros now sp Hw.
    destruct (write_checkpoint_files now sp t w) as (w' & E & _ & _ & Hf).
    exists w'. split; [exact E |].
    rewrite bool_decide_eq_false_2 in Hf by exact Hw.
    rewrite Hf, lookup_insert_eq. reflexivity.
  - intros Hmode Hdir Hw. apply end_run_export; assumption.
Qed.

Lemma export_slice_drops_last_sample_witness :
  py_slice None None [sample 1; sample 2; sample 3]
  = py_slice None (Some 2) [sample 1; sample 2; sample 3] ++ [sample 3]
  /\ checkpoint_doc (track_of 5 "continuous" None [sample 1; sample 2; sample 3])
     = CJson (VList (map json_of_DataPoint [sample 1; sample 2])).
Proof.
  split; [| reflexivity].
  apply (export_slice_drops_last_sample
           (track_of 5 "continuous" None [sample 1; sample 2; sample 3]) quiet_world
           [sample 1; sample 2] (sample 3)).
  - reflexivity.
  - exact I.
Defined.

(** ** The overflow path of [add_point] *)

(** [add_point] on a buffer over the threshold: the forced checkpoint, the
    trim to the last sample, the append, the ordinary checkpoint. *)
Lemma add_point_overflow_path ts data (t : Track) (w : world) :
  schema_ok t data ->
  Z.of_nat (max_datapoints t) < len (data_points t) ->
  len (data_points t) < 2 ^ 53 ->
  exists t1 w1 r1,
    _save_checkpoint true (Some "-full")
      (t, add_log "warning" "maximum number of datapoints reached" w) = ((t1, w1), r1)
    /\ same_but_checkpoint t t1
    /\ match r1 with
       | Ok _ =>
           add_point ts data (t, w) =
           _save_checkpoint false None
             (set_data_points (drop (Z.to_nat (len (data_points t) - 1)) (data_points t)
                               ++ [preprocess t (mk_DataPoint ts data)]) t1,
              add_log "info" "cleared data points" w1)
       | Raise e => add_point ts data (t, w) = ((t1, w1), Raise e)
       end.
Proof.
  intros Hschema Hover Hlen.
  assert (Hcheck : (match field_names t with
                    | Some names => if schema_mismatch names data
                                    then raise (ValueError "inconsistent fields") else ret tt
                    | None => ret tt
                    end) (t, w) = ((t, w), Ok tt)).
  { unfold schema_ok in Hschema. destruct (field_names t); [rewrite Hschema |]; reflexivity. }
  destruct (save_checkpoint_frame true (Some "-full") t
              (add_log "warning" "maximum number of datapoints reached" w))
    as (t1 & w1 & r1 & E1 & Ht1 & _).
  exists t1, w1, r1. split; [exact E1 |]. split; [exact Ht1 |].
  pose proof (same_but_checkpoint_fields _ _ Ht1) as (Hdp1 & _ & _ & Hpp1 & _).
  destruct r1 as [[] | e];
    unfold add_point; unfold bind at 1, self at 1;
    unfold bind at 1; rewrite Hcheck;
    unfold bind at 1; rewrite (proj2 (Z.ltb_lt _ _) Hover);
    unfold bind at 1; rewrite w_in_log; unfold bind at 1; rewrite E1;
    [| reflexivity].
  unfold bind at 1, self at 1.
  destruct (num_to_remove_exact (len (data_points t1)) ltac:(rewrite Hdp1; lia)) as (q & Eq & Hq).
  unfold bind at 1, lift at 1. rewrite Eq.
  rewrite (remove_datapoints_full t1 w1 q ltac:(rewrite Hdp1; lia) Hq).
  unfold bind at 1, self at 1. unfold bind at 1, on_track at 1.
  f_equal. f_equal. cbn [data_points set_data_points]. rewrite Hdp1.
  unfold preprocess. cbn [preprocessors set_data_points]. rewrite Hpp1.
  destruct t1; reflexivity.
Qed.

(** C2, in the form that holds in every save mode. When the buffer is over [max_datapoints], an
    [add_point] call that passes the schema check and returns has trimmed
    the buffer to its last sample before appending, whatever the save mode:
    two samples remain. The [-full] checkpoint is written only in
    ["continuous"] mode with an interval configured; if its path is
    writable, the file then holds the old buffer's slice
    [[_save_interval_start, len - 1)]. *)
Theorem add_point_overflow ts data (t : Track) (w : world) (t' : Track) (w' : world) :
  Z.of_nat (max_datapoints t) < len (data_points t) ->
  len (data_points t) < 2 ^ 53 ->
  schema_ok t data ->
  add_point ts data (t, w) = ((t', w'), Ok tt) ->
  data_points t'
  = drop (Z.to_nat (len (data_points t) - 1)) (data_points t)
    ++ [preprocess t (mk_DataPoint ts data)]
  /\ length (data_points t') = 2%nat
  /\ (save_mode t = "continuous" ->
      is_Some (checkpoint_interval t) ->
      (checkpoint_dir t, checkpoint_name (clock w (tick w)) (Some "-full")) ∉ unwritable w ->
      is_full (checkpoint_name (clock w (tick w)) (Some "-full")) = true
      /\ f_content <$> files w' !! (checkpoint_dir t,
                                    checkpoint_name (clock w (tick w)) (Some "-full"))
         = Some (checkpoint_doc t)).
Proof.
  intros Hover Hlen Hschema E.
  destruct (add_point_overflow_path ts data t w Hschema Hover Hlen)
    as (t1 & w1 & r1 & E1 & Ht1 & Hpath).
  destruct r1 as [[] | e]; [| rewrite Hpath in E; discriminate].
  rewrite Hpath in E.
  destruct (save_checkpoint_frame false None
              (set_data_points (drop (Z.to_nat (len (data_points t) - 1)) (data_points t)
                                ++ [preprocess t (mk_DataPoint ts data)]) t1)
              (add_log "info" "cleared data points" w1))
    as (t3 & w3 & r3 & E3 & Ht3 & _).
  pose proof E as E'. rewrite E3 in E'. injection E' as -> -> ->.
  pose proof (same_but_checkpoint_fields _ _ Ht3) as (Hdp3 & _).
  cbn [data_points set_data_points] in Hdp3.
  split; [exact Hdp3 |]. split.
  { rewrite Hdp3, length_app, length_drop. cbn [length]. unfold len in *. lia. }
  intros Hmode Hint Hw. split; [apply checkpoint_name_full |].
  set (p := (checkpoint_dir t, checkpoint_name (clock w (tick w)) (Some "-full"))) in *.
  assert (Hne : p <> (checkpoint_dir
                        (set_data_points
                           (drop (Z.to_nat (len (data_points t) - 1)) (data_points t)
                            ++ [preprocess t (mk_DataPoint ts data)]) t1),
                      checkpoint_name
                        (clock (add_log "info" "cleared data points" w1)
                               (tick (add_log "info" "cleared data points" w1))) None)).
  { intros H. apply (f_equal snd) in H. exact (checkpoint_names_differ _ _ H). }
  pose proof (save_checkpoint_keeps_full _ _ _ _ _ _ p E (checkpoint_name_full _) Hne) as Hk.
  cbn [snd files add_log] in Hk. rewrite Hk.
  apply (forced_checkpoint_written (Some "-full") t
           (add_log "warning" "maximum number of datapoints reached" w) (t1, w1) (Ok tt));
    try assumption.
  apply checkpoint_name_full.
Qed.

Lemma add_point_overflow_witness :
  f_content <$>
    files (snd (fst (add_point noon [("a", VInt 3)]
                       (track_of 1 "continuous" None [sample 1; sample 2], quiet_world))))
    !! ("data/chk", checkpoint_name noon (Some "-full"))
  = Some (checkpoint_doc (track_of 1 "continuous" None [sample 1; sample 2])).
Proof.
  apply (add_point_overflow noon [("a", VInt 3)]
           (track_of 1 "continuous" None [sample 1; sample 2]) quiet_world
           (fst (fst (add_point noon [("a", VInt 3)]
                        (track_of 1 "continuous" None [sample 1; sample 2], quiet_world))))
           (snd (fst (add_point noon [("a", VInt 3)]
                        (track_of 1 "continuous" None [sample 1; sample 2], quiet_world))))).
  - vm_compute. reflexivity.
  - vm_compute. reflexivity.
  - exact I.
  - vm_compute. reflexivity.
  - reflexivity.
  - eexists. reflexivity.
  - cbn. set_solver.
Defined.

(** C2 does not hold outside ["continuous"] mode: the buffer is trimmed
    and nothing is written to disk. *)
Lemma no_full_checkpoint_on_demand :
  Z.of_nat (max_datapoints (track_of 1 "on-demand" None [sample 1; sample 2]))
  < len (data_points (track_of 1 "on-demand" None [sample 1; sample 2]))
  /\ exists t' w',
       add_point noon [("a", VInt 3)]
         (track_of 1 "on-demand" None [sample 1; sample 2], quiet_world)
       = ((t', w'), Ok tt)
       /\ data_points t' = [sample 2; sample 3]
       /\ files w' = ∅.
Proof.
  split; [vm_compute; reflexivity |].
  eexists _, _. split; [vm_compute; reflexivity |]. split; reflexivity.
Qed.

(** ** Timestamps survive [str] then [fromisoformat] *)

Lemma digit_val_char (d : Z) : 0 <= d < 10 -> digit_val (digit_char d) = Some d.
Proof.
  intros Hd. unfold digit_val, digit_char.
  rewrite nat_ascii_embedding by lia.
  replace (Z.of_nat (48 + Z.to_nat d)) with (48 + d) by lia.
  replace (48 <=? 48 + d) with true by (symmetry; apply Z.leb_le; lia).
  replace (48 + d <=? 57) with true by (symmetry; apply Z.leb_le; lia).
  cbn [andb]. f_equal. lia.
Qed.

Lemma parse_digits_pad (k : nat) (n acc : Z) (rest : string) :
  parse_digits k acc (pad k n +:+ rest) = Some (acc * 10 ^ Z.of_nat k + n mod 10 ^ Z.of_nat k, rest).
Proof.
  revert acc. induction k as [| k IH]; intros acc.
  - cbn [pad parse_digits]. change (10 ^ Z.of_nat 0) with 1.
    rewrite Z.mod_1_r. do 2 f_equal. lia.
  - cbn [pad]. rewrite string_app_cons. cbn [parse_digits].
    assert (Hp : 0 < 10 ^ Z.of_nat k) by (apply Z.pow_pos_nonneg; lia).
    rewrite digit_val_char by (apply Z.mod_pos_bound; lia).
    rewrite IH. do 2 f_equal.
    rewrite Nat2Z.inj_succ, Z.pow_succ_r by lia.
    rewrite (Z.mul_comm 10 (10 ^ Z.of_nat k)), Z.rem_mul_r by lia. lia.
Qed.

Lemma parse_digits_exact (k : nat) (n : Z) (rest : string) :
  0 <= n < 10 ^ Z.of_nat k ->
  parse_digits k 0 (pad k n +:+ rest) = Some (n, rest).
Proof.
  intros Hn. rewrite parse_digits_pad, Z.mod_small by exact Hn. reflexivity.
Qed.

Lemma string_app_nil_r (s : string) : s +:+ "" = s.
Proof. induction s as [| c s IH]; [reflexivity |]. rewrite string_app_cons, IH. reflexivity. Qed.

Lemma days_in_month_le (y m : Z) : days_in_month y m <= 31.
Proof.
  unfold days_in_month. destruct ((m =? 2) && is_leap y); [lia |].
  destruct (Z.to_nat m) as [| [| [| [| [| [| [| [| [| [| [| [| [| k]]]]]]]]]]]]]; cbn; try lia.
  destruct k; cbn; lia.
Qed.

Lemma parse_isoformat_isoformat (sep : ascii) (t : datetime) :
  valid_datetime t = true -> parse_isoformat (isoformat sep t) = Some t.
Proof.
  intros Hv. unfold valid_datetime in Hv.
  repeat (apply andb_prop in Hv as [Hv ?]).
  repeat match goal with
         | H : (_ <=? _) = true |- _ => apply Z.leb_le in H
         | H : (_ <? _) = true |- _ => apply Z.ltb_lt in H
         end.
  pose proof (days_in_month_le (year t) (month t)).
  unfold parse_isoformat, isoformat.
  rewrite parse_digits_exact by (change (10 ^ Z.of_nat 4) with 10000; lia).
  cbn [mbind option_bind]. rewrite string_app_cons. cbn [expect Ascii.eqb Bool.eqb mbind option_bind].
  change ("" +:+ ?s) with s.
  rewrite parse_digits_exact by (change (10 ^ Z.of_nat 2) with 100; lia).
  cbn [mbind option_bind]. rewrite string_app_cons. cbn [expect Ascii.eqb Bool.eqb mbind option_bind].
  change ("" +:+ ?s) with s.
  rewrite parse_digits_exact by (change (10 ^ Z.of_nat 2) with 100; lia).
  cbn [mbind option_bind any_char].
  rewrite parse_digits_exact by (change (10 ^ Z.of_nat 2) with 100; lia).
  cbn [mbind option_bind]. rewrite string_app_cons. cbn [expect Ascii.eqb Bool.eqb mbind option_bind].
  change ("" +:+ ?s) with s.
  rewrite parse_digits_exact by (change (10 ^ Z.of_nat 2) with 100; lia).
  cbn [mbind option_bind]. rewrite string_app_cons. cbn [expect Ascii.eqb Bool.eqb mbind option_bind].
  change ("" +:+ ?s) with s.
  rewrite parse_digits_exact by (change (10 ^ Z.of_nat 2) with 100; lia).
  cbn [mbind option_bind].
  destruct (Z.eqb_spec (microsecond t) 0) as [E0 | Hnz].
  - cbn [parse_fraction mbind option_bind]. destruct t; cbn in *; subst; reflexivity.
  - rewrite string_app_cons. cbn [parse_fraction Ascii.eqb Bool.eqb].
    change ("" +:+ ?s) with s.
    rewrite <- (string_app_nil_r (pad 6 (microsecond t))).
    rewrite parse_digits_exact by (change (10 ^ Z.of_nat 6) with 1000000; lia).
    cbn [mbind option_bind]. destruct t; reflexivity.
Qed.

Lemma fromisoformat_str (t : datetime) :
  valid_datetime t = true -> fromisoformat (datetime_str t) = Ok t.
Proof.
  intros Hv. unfold fromisoformat, datetime_str.
  rewrite parse_isoformat_isoformat by exact Hv. rewrite Hv. reflexivity.
Qed.

(** ** Export then load *)

Lemma load_DataPoint_json (dp : DataPoint) :
  valid_datetime (timestamp dp) = true ->
  load_DataPoint (json_of_DataPoint dp) = Ok dp.
Proof.
  intros Hv. unfold load_DataPoint, json_of_DataPoint.
  change (py_getitem (VDict _) "timestamp")
    with (@Ok pyval (VStr (datetime_str (timestamp dp)))).
  cbv iota. rewrite (fromisoformat_str _ Hv).
  change (py_getitem (VDict _) "input_data") with (@Ok pyval (VDict (input_data dp))).
  destruct dp; reflexivity.
Qed.

Lemma load_DataPoints_json (dps : list DataPoint) :
  Forall (fun dp => valid_datetime (timestamp dp) = true) dps ->
  load_DataPoints (map json_of_DataPoint dps) = Ok dps.
Proof.
  induction 1 as [| dp dps Hv _ IH]; cbn [map load_DataPoints]; [reflexivity |].
  rewrite (load_DataPoint_json dp Hv), IH. reflexivity.
Qed.

(** C9. Exporting a non-empty list of samples with scalar field values to
    the JSON format and loading the file back yields the same ordered
    samples: [load] replaces the buffer by the exported list. Timestamps are
    valid naive datetimes, and the file can be written. *)
Theorem json_round_trip (dps : list DataPoint) (p : string * string) (t : Track) (w : world) :
  dps <> [] ->
  Forall (fun dp => Forall (fun kv => is_scalar (snd kv) = true) (input_data dp)) dps ->
  Forall (fun dp => valid_datetime (timestamp dp) = true) dps ->
  p ∉ unwritable w ->
  exists w1,
    export_to_json (Some dps) p None None w = (w1, Ok tt)
    /\ load p (t, w1) = ((set_mode "replay" (set_data_points dps t), w1), Ok tt).
Proof.
  intros _ _ Hv Hw. unfold export_to_json. rewrite w_write_spec.
  rewrite bool_decide_eq_false_2 by exact Hw.
  eexists. split; [reflexivity |].
  unfold load, bind, in_world, w_read. cbn [files set_files].
  rewrite lookup_insert_eq. cbn [f_content json_load ret lift py_iter select].
  rewrite (load_DataPoints_json dps Hv). reflexivity.
Qed.

Lemma json_round_trip_witness :
  exists w1,
    export_to_json (Some [sample 1; sample 2]) ("data", "run.json") None None quiet_world
    = (w1, Ok tt)
    /\ load ("data", "run.json") (track_of 5 "continuous" None [], w1)
       = ((set_mode "replay"
             (set_data_points [sample 1; sample 2] (track_of 5 "continuous" None [])), w1),
          Ok tt).
Proof.
  apply (json_round_trip [sample 1; sample 2] ("data", "run.json")
           (track_of 5 "continuous" None []) quiet_world).
  - discriminate.
  - repeat constructor.
  - repeat constructor.
  - cbn. set_solver.
Defined.

(** ** The index: resolving and removing a track *)

Lemma in_world_db_log level msg (D : Database) (w : world) :
  in_world_db (w_log level msg) (D, w) = ((D, add_log level msg w), Ok tt).
Proof. reflexivity. Qed.

(** A table operation changes the table as its updater says, whatever the
    write does next; the write can only fail with the [TypeError] of a
    flush, and does not when the count stays below the cache size. *)
Lemma update_table_spec {A} (updater : Database -> Database * A) (D : Database) (w : world) :
  exists n st r,
    _update_table updater (D, w) = ((set_unflushed n st (updater D).1, w), r)
    /\ (r = Ok (updater D).2 \/ r = Raise TypeError)
    /\ ((S (db_unflushed (updater D).1) < WRITE_CACHE_SIZE)%nat -> r = Ok (updater D).2)
    /\ (forallb (fun row => serializable (snd row)) (db (updater D).1) = true ->
        r = Ok (updater D).2)
    /\ (n <= S (db_unflushed (updater D).1))%nat.
Proof.
  unfold _update_table, bind, on_db, storage_write, ret.
  destruct (updater D) as [D1 a]. cbn [fst snd].
  destruct (Nat.leb_spec WRITE_CACHE_SIZE (S (db_unflushed D1))) as [Hle | Hlt].
  - destruct (forallb (fun row => serializable (snd row)) (db D1)) eqn:Hs.
    + eexists _, _, _. split; [reflexivity |]. split; [left; reflexivity |].
      split; [reflexivity |]. split; [reflexivity | lia].
    + eexists _, _, _. split; [reflexivity |]. split; [right; reflexivity |].
      split; [lia |]. split; [discriminate | lia].
  - eexists _, _, _. split; [reflexivity |]. split; [left; reflexivity |].
    split; [reflexivity |]. split; [reflexivity | lia].
Qed.

Lemma db_insert_spec (d : doc) (D : Database) (w : world) :
  exists n st r,
    db_insert d (D, w)
    = ((set_unflushed n st
          (set_db (db D ++ [(db_next_id D, d)]) (S (db_next_id D)) (OpInsert d) D), w), r)
    /\ (r = Ok (db_next_id D) \/ r = Raise TypeError)
    /\ ((S (db_unflushed D) < WRITE_CACHE_SIZE)%nat -> r = Ok (db_next_id D))
    /\ (forallb (fun row => serializable (snd row)) (db D ++ [(db_next_id D, d)]) = true ->
        r = Ok (db_next_id D))
    /\ (n <= S (db_unflushed D))%nat.
Proof. exact (update_table_spec _ D w). Qed.

Lemma db_update_spec (d : doc) (name : string) (D : Database) (w : world) :
  let rows := map (fun '(i, old) => if String.eqb (d_filename old) name
                                    then (i, doc_update d old) else (i, old)) (db D) in
  let ids := map fst (filter (fun '(_, old) => d_filename old = name) (db D)) in
  exists n st r,
    db_update d name (D, w)
    = ((set_unflushed n st (set_db rows (db_next_id D) (OpUpdate d name) D), w), r)
    /\ (r = Ok ids \/ r = Raise TypeError)
    /\ ((S (db_unflushed D) < WRITE_CACHE_SIZE)%nat -> r = Ok ids)
    /\ (forallb (fun row => serializable (snd row)) rows = true -> r = Ok ids)
    /\ (n <= S (db_unflushed D))%nat.
Proof. intros rows ids. exact (update_table_spec _ D w). Qed.

(** [truncate] never raises: an empty table can always be flushed. *)
Lemma db_truncate_spec (D : Database) (w : world) :
  exists n st,
    db_truncate (D, w)
    = ((mk_Database (directory D) (db_fname D) (validation D) (extractors D)
                    [] 1 (tracks D) (db_writes D ++ [OpTruncate]) n st, w), Ok tt)
    /\ (n <= S (db_unflushed D))%nat.
Proof.
  unfold db_truncate. unfold bind at 1.
  destruct (update_table_spec (fun D0 => (set_db [] (db_next_id D0) OpTruncate D0, tt)) D w)
    as (n & st & r & E & _ & _ & Hser & Hn).
  rewrite E, (Hser eq_refl). exists n, st. split; [reflexivity | exact Hn].
Qed.

Lemma db_remove_spec (name : string) (D : Database) (w : world) :
  let rows := filter (fun '(_, old) => d_filename old <> name) (db D) in
  let ids := map fst (filter (fun '(_, old) => d_filename old = name) (db D)) in
  exists n st r,
    db_remove name (D, w)
    = ((set_unflushed n st (set_db rows (db_next_id D) (OpRemove name) D), w), r)
    /\ (r = Ok ids \/ r = Raise TypeError)
    /\ ((S (db_unflushed D) < WRITE_CACHE_SIZE)%nat -> r = Ok ids)
    /\ (forallb (fun row => serializable (snd row)) rows = true -> r = Ok ids)
    /\ (n <= S (db_unflushed D))%nat.
Proof. intros rows ids. exact (update_table_spec _ D w). Qed.




(** A record and its file, with the file protected against deletion. *)
Example remove_track_disk_failure :
  let D := mk_Database "data" "tracks_metadata.json" true (fun _ _ => ∅)
             [(1%nat, mk_doc "run.json" ∅ None)] 2 [] [] 0 [] in
  let w := mk_world {[ ("data", "run.json") := mk_file (CJson (VList [])) 0 ]}
             ∅ {[ ("data", "run.json") ]} (fun _ => noon) 0 [] in
  exists D' w',
    remove_track (IdStr "run.json") true (D, w) = ((D', w'), Raise TypeError)
    /\ db D' = [] /\ is_Some (files w' !! ("data", "run.json")).
Proof.
  eexists _, _. split; [vm_compute; reflexivity |].
  split; [reflexivity |]. eexists. vm_compute. reflexivity.
Qed.

(** ** Dictionaries *)

Section DictFacts.
Context {V : Type}.
Implicit Types (d : list (string * V)) (k g : string) (v : V).

Lemma dict_get_set g k v d :
  dict_get g (dict_set k v d) = if String.eqb g k then Some v else dict_get g d.
Proof.
  induction d as [| [k' v'] d IH]; cbn [dict_set dict_get].
  - destruct (String.eqb g k); reflexivity.
  - destruct (String.eqb_spec k k') as [<- | Hne]; cbn [dict_get].
    + destruct (String.eqb g k); reflexivity.
    + rewrite IH. destruct (String.eqb_spec g k') as [-> | _]; [| reflexivity].
      destruct (String.eqb_spec k' k); [congruence | reflexivity].
Qed.

Lemma dict_keys_set g k v d : g ∈ dict_keys (dict_set k v d) <-> g = k \/ g ∈ dict_keys d.
Proof.
  unfold dict_keys. induction d as [| [k' v'] d IH]; cbn [dict_set map fst].
  - rewrite list_elem_of_singleton, elem_of_nil. tauto.
  - destruct (String.eqb_spec k k') as [<- | Hne]; cbn [map fst]; rewrite !elem_of_cons.
    + tauto.
    + rewrite IH. tauto.
Qed.

Lemma dict_set_NoDup k v d : NoDup (dict_keys d) -> NoDup (dict_keys (dict_set k v d)).
Proof.
  unfold dict_keys. induction d as [| [k' v'] d IH]; cbn [dict_set map fst]; intros Hnd.
  - apply NoDup_singleton.
  - apply NoDup_cons in Hnd as [Hnotin Hnd].
    destruct (String.eqb_spec k k') as [<- | Hne]; cbn [map fst].
    + apply NoDup_cons. split; assumption.
    + apply NoDup_cons. split; [| apply IH; exact Hnd].
      intros Hin. apply (dict_keys_set k' k v d) in Hin as [-> | Hin]; [congruence | contradiction].
Qed.

Lemma dict_get_None g d : dict_get g d = None <-> g ∉ dict_keys d.
Proof.
  unfold dict_keys. induction d as [| [k' v'] d IH]; cbn [dict_get map fst].
  - split; [intros _; apply not_elem_of_nil | reflexivity].
  - rewrite not_elem_of_cons. destruct (String.eqb_spec g k') as [-> | Hne].
    + split; [discriminate | intros [H _]; congruence].
    + rewrite IH. tauto.
Qed.

Lemma dict_get_del g k d :
  NoDup (dict_keys d) ->
  dict_get g (dict_del k d) = if String.eqb g k then None else dict_get g d.
Proof.
  unfold dict_keys. induction d as [| [k' v'] d IH]; cbn [dict_del dict_get map fst]; intros Hnd.
  - destruct (String.eqb g k); reflexivity.
  - apply NoDup_cons in Hnd as [Hnotin Hnd].
    destruct (String.eqb_spec k k') as [<- | Hne].
    + destruct (String.eqb_spec g k) as [-> | _]; [| reflexivity].
      apply dict_get_None. exact Hnotin.
    + cbn [dict_get]. rewrite (IH Hnd).
      destruct (String.eqb_spec g k') as [-> | _]; [| reflexivity].
      destruct (String.eqb_spec k' k); [congruence | reflexivity].
Qed.

Lemma dict_del_keys g k d : g ∈ dict_keys (dict_del k d) -> g ∈ dict_keys d.
Proof.
  unfold dict_keys. induction d as [| [k' v'] d IH]; cbn [dict_del map fst]; [tauto |].
  destruct (String.eqb k k'); cbn [map fst]; rewrite !elem_of_cons; tauto.
Qed.

Lemma dict_del_NoDup k d : NoDup (dict_keys d) -> NoDup (dict_keys (dict_del k d)).
Proof.
  unfold dict_keys. induction d as [| [k' v'] d IH]; cbn [dict_del map fst]; intros Hnd; [exact Hnd |].
  apply NoDup_cons in Hnd as [Hnotin Hnd].
  destruct (String.eqb k k'); cbn [map fst]; [exact Hnd |].
  apply NoDup_cons. split; [| apply IH; exact Hnd].
  intros Hin. apply Hnotin. eapply dict_del_keys. exact Hin.
Qed.

Lemma dict_mem_spec g d : dict_mem g d = true <-> g ∈ dict_keys d.
Proof.
  unfold dict_mem. rewrite bool_decide_eq_true.
  destruct (dict_get g d) eqn:E.
  - split; [intros _ | intros _; eexists; reflexivity].
    destruct (decide (g ∈ dict_keys d)) as [H | H]; [exact H |].
    apply dict_get_None in H. congruence.
  - split; [intros [x Hx]; discriminate |].
    intros H. apply dict_get_None in E. contradiction.
Qed.

End DictFacts.

(** ** The records of one file under the table operations *)

Lemma docs_of_insert (g : string) (rows : list (nat * doc)) (i : nat) (meta : doc) :
  docs_of g (rows ++ [(i, meta)])
  = docs_of g rows ++ (if decide (d_filename meta = g) then [meta] else []).
Proof.
  unfold docs_of. rewrite map_app, filter_app. cbn [map snd].
  rewrite filter_cons, filter_nil. reflexivity.
Qed.

Lemma docs_of_update (g f : string) (meta : doc) (rows : list (nat * doc)) :
  d_filename meta = f ->
  docs_of g (map (fun '(i, old) => if String.eqb (d_filename old) f
                                   then (i, doc_update meta old) else (i, old)) rows)
  = if decide (g = f) then map (doc_update meta) (docs_of f rows) else docs_of g rows.
Proof.
  intros Hmeta. unfold docs_of.
  induction rows as [| [i old] rows IH]; cbn [map snd].
  - rewrite !filter_nil. destruct (decide (g = f)); reflexivity.
  - destruct (String.eqb_spec (d_filename old) f) as [Hf | Hf]; cbn [snd];
      rewrite !filter_cons, IH; cbn [doc_update d_filename].
    + rewrite Hmeta. destruct (decide (g = f)) as [-> | Hg].
      * rewrite !decide_True by (assumption || reflexivity). reflexivity.
      * rewrite !decide_False by congruence. reflexivity.
    + destruct (decide (g = f)) as [-> | Hg].
      * rewrite !decide_False by assumption. reflexivity.
      * reflexivity.
Qed.

Lemma docs_of_remove (g k : string) (rows : list (nat * doc)) :
  docs_of g (filter (fun '(_, old) => d_filename old <> k) rows)
  = if decide (g = k) then [] else docs_of g rows.
Proof.
  unfold docs_of. induction rows as [| [i old] rows IH]; cbn [map snd].
  - rewrite !filter_nil. destruct (decide (g = k)); reflexivity.
  - rewrite (filter_cons _ (i, old)). destruct (decide (d_filename old <> k)) as [Hne | Heq].
    + cbn [map snd]. rewrite !filter_cons, IH.
      destruct (decide (g = k)) as [-> | Hg]; [| reflexivity].
      rewrite decide_False by assumption. reflexivity.
    + rewrite IH, filter_cons. destruct (decide (g = k)) as [-> | Hg]; [reflexivity |].
      rewrite decide_False; [reflexivity |].
      intros H. apply Heq. congruence.
Qed.

Lemma docs_of_elem_of (g : string) (rows : list (nat * doc)) (d : doc) :
  d ∈ docs_of g rows <-> d_filename d = g /\ d ∈ map snd rows.
Proof. unfold docs_of. rewrite list_elem_of_filter. reflexivity. Qed.

(** The snapshot of the table by file name holds, for each name, the last
    of its records. *)
Lemma existing_tracks_get_gen (g : string) (l : list doc) (acc : list (string * doc)) :
  dict_get g (fold_left (fun acc t => dict_set (d_filename t) t acc) l acc)
  = match last (filter (fun d => d_filename d = g) l) with
    | Some d => Some d
    | None => dict_get g acc
    end.
Proof.
  revert acc. induction l as [| d l IH]; intros acc; cbn [fold_left].
  - rewrite filter_nil. reflexivity.
  - rewrite IH, filter_cons. destruct (decide (d_filename d = g)) as [Hd | Hd].
    + destruct (filter (fun d0 => d_filename d0 = g) l) as [| x xs] eqn:E.
      * cbn [last]. rewrite dict_get_set, <- Hd, String.eqb_refl. reflexivity.
      * change (last (d :: x :: xs)) with (last (x :: xs)).
        destruct (last (x :: xs)) eqn:El; [reflexivity |].
        apply last_None in El. discriminate.
    + destruct (last (filter (fun d0 => d_filename d0 = g) l)); [reflexivity |].
      rewrite dict_get_set. destruct (String.eqb_spec g (d_filename d)); [congruence | reflexivity].
Qed.

Lemma existing_tracks_get (g : string) (D : Database) :
  dict_get g (existing_tracks_of D) = last (docs_of g (db D)).
Proof.
  unfold existing_tracks_of, db_all, docs_of. rewrite existing_tracks_get_gen.
  destruct (last _); reflexivity.
Qed.

Lemma existing_tracks_NoDup_gen (l : list doc) (acc : list (string * doc)) :
  NoDup (dict_keys acc) ->
  NoDup (dict_keys (fold_left (fun acc t => dict_set (d_filename t) t acc) l acc)).
Proof.
  revert acc. induction l as [| d l IH]; intros acc Hnd; cbn [fold_left]; [exact Hnd |].
  apply IH. apply dict_set_NoDup. exact Hnd.
Qed.

Lemma existing_tracks_NoDup (D : Database) : NoDup (dict_keys (existing_tracks_of D)).
Proof. apply existing_tracks_NoDup_gen. apply NoDup_nil_2. Qed.

(** ** One file of the pass *)

Lemma validate_json_spec (p : string * string) (D : Database) (w : world) :
  exists w',
    validate_json p (D, w) = ((D, w'), check_file p w)
    /\ files w' = files w /\ same_env w w'.
Proof.
  unfold validate_json, check_file, bind, in_world_db, w_read.
  destruct (files w !! p) as [f |].
  - destruct (json_load (f_content f)) as [data | e].
    + destruct (validate_schema data); eexists; (split; [reflexivity |]); repeat split.
    + destruct e; eexists; (split; [reflexivity |]); repeat split.
  - eexists; (split; [reflexivity |]); repeat split.
Qed.

(** Reading a file can fail; with a [TypeError] it never does. *)
Lemma check_file_not_TypeError (p : string * string) (w : world) :
  check_file p w <> Raise TypeError.
Proof.
  unfold check_file. destruct (files w !! p) as [f |]; [| discriminate].
  destruct (f_content f); cbn; discriminate.
Qed.

Lemma extract_all_spec (p : string * string) (D : Database) (w : world) :
  exists w' extracted,
    extract_all p (D, w) = ((D, w'), Ok extracted)
    /\ files w' = files w /\ same_env w w'.
Proof.
  unfold extract_all, bind, this, try_except, in_world_db, w_read, lift.
  destruct (files w !! p) as [f |].
  - destruct (json_load (f_content f)) as [data | e] eqn:Ej.
    + eexists _, _; (split; [reflexivity |]); repeat split.
    + assert (is_Exception e = true) as ->
        by (destruct (f_content f); cbn in Ej; try discriminate Ej;
            injection Ej as <-; reflexivity).
      eexists _, _; (split; [reflexivity |]); repeat split.
  - eexists _, _; (split; [reflexivity |]); repeat split.
Qed.

Lemma build_meta_reindexed extracted f p c m exports :
  reindexed exports f m (build_meta extracted f p c m exports).
Proof.
  unfold reindexed, build_meta. cbn [d_filename d_fields].
  split; [reflexivity |]. split.
  - destruct (dict_get (base_name f) exports); simplify_map_eq; reflexivity.
  - intros exts ->. simplify_map_eq. reflexivity.
Qed.

Lemma doc_update_reindexed exports f m (meta old : doc) :
  reindexed exports f m meta -> reindexed exports f m (doc_update meta old).
Proof.
  intros (Hf & Hm & He). unfold reindexed, doc_update. cbn [d_filename d_fields].
  split; [exact Hf |]. split.
  - apply lookup_union_Some_l. exact Hm.
  - intros exts Hx. apply lookup_union_Some_l. apply He. exact Hx.
Qed.

Lemma same_config_refl (D : Database) : same_config D D.
Proof. repeat split. Qed.

Lemma same_config_trans (D1 D2 D3 : Database) :
  same_config D1 D2 -> same_config D2 D3 -> same_config D1 D3.
Proof. intros (a & b & c & d) (a' & b' & c' & d'). repeat split; congruence. Qed.

(** What one turn of the sync loop does to the table. *)
Lemma sync_file_spec ex exports (f : string) (m : Z) (D : Database) (w : world) :
  exists D' w' r,
    sync_file ex exports (f, m) (D, w) = ((D', w'), r)
    /\ files w' = files w /\ same_env w w' /\ same_config D D'
    /\ (forall g, g <> f -> docs_of g (db D') = docs_of g (db D))
    /\ (if is_dirty (dict_get f ex) m then
          match check_file (full_path_of D f) w with
          | Raise e => r = Raise e /\ D' = D
          | Ok v =>
              if v || negb (validation D) then
                (r = Ok tt \/ r = Raise TypeError)
                /\ ((S (db_unflushed D) < WRITE_CACHE_SIZE)%nat -> r = Ok tt)
                /\ exists meta, reindexed exports f m meta
                  /\ match dict_get f ex with
                     | Some _ =>
                         docs_of f (db D') = map (doc_update meta) (docs_of f (db D))
                         /\ db_writes D' = db_writes D ++ [OpUpdate meta f]
                     | None =>
                         docs_of f (db D') = docs_of f (db D) ++ [meta]
                         /\ db_writes D' = db_writes D ++ [OpInsert meta]
                     end
              else r = Ok tt /\ D' = D
          end
        else r = Ok tt /\ D' = D).
Proof.
  unfold sync_file.
  destruct (is_dirty (dict_get f ex) m) eqn:Hdirty.
  2:{ exists D, w, (Ok tt). repeat split. }
  unfold bind at 1, this at 1. unfold bind at 1.
  destruct (validate_json_spec (full_path_of D f) D w) as (w1 & Ev & Hf1 & Henv1).
  rewrite Ev.
  destruct (check_file (full_path_of D f) w) as [v | e].
  2:{ exists D, w1, (Raise e). repeat split; try apply Henv1. exact Hf1. }
  destruct (v || negb (validation D)) eqn:Hacc.
  2:{ exists D, w1, (Ok tt). split; [reflexivity |]. repeat split; try apply Henv1. exact Hf1. }
  unfold bind at 1.
  destruct (extract_all_spec (full_path_of D f) D w1) as (w2 & extracted & Ee & Hf2 & Henv2).
  rewrite Ee.
  set (meta := build_meta extracted f (full_path_of D f) (ends_with ".chk.json" f) m exports).
  assert (Hmeta : reindexed exports f m meta) by apply build_meta_reindexed.
  assert (Hmf : d_filename meta = f) by apply Hmeta.
  assert (Henv12 : same_env w w2) by (eapply same_env_trans; eassumption).
  destruct (dict_get f ex) as [old |] eqn:Hget.
  - unfold bind at 1. unfold bind at 1.
    destruct (db_update_spec meta f D w2) as (n & st & rr & Eu & Hrr & Hlow & _).
    rewrite Eu.
    assert (Hoth : forall g, g <> f ->
              docs_of g (map (fun '(i, old0) => if String.eqb (d_filename old0) f
                                                then (i, doc_update meta old0) else (i, old0))
                             (db D)) = docs_of g (db D)).
    { intros g Hg. rewrite (docs_of_update g f meta (db D) Hmf).
      rewrite decide_False by exact Hg. reflexivity. }
    assert (Hnew : docs_of f (map (fun '(i, old0) => if String.eqb (d_filename old0) f
                                                     then (i, doc_update meta old0)
                                                     else (i, old0))
                                  (db D)) = map (doc_update meta) (docs_of f (db D))).
    { rewrite (docs_of_update f f meta (db D) Hmf). rewrite decide_True by reflexivity.
      reflexivity. }
    destruct Hrr as [-> | ->].
    + eexists _, _, _. split; [reflexivity |].
      cbn [db db_writes set_db set_unflushed directory db_fname validation extractors
           files add_log].
      split; [congruence |]. split; [eauto using same_env_trans, same_env_add_log |].
      split; [repeat split |]. split; [exact Hoth |].
      split; [left; reflexivity |]. split; [reflexivity |].
      exists meta. split; [exact Hmeta |]. split; [exact Hnew | reflexivity].
    + eexists _, _, _. split; [reflexivity |].
      cbn [db db_writes set_db set_unflushed directory db_fname validation extractors
           files add_log].
      split; [congruence |]. split; [exact Henv12 |].
      split; [repeat split |]. split; [exact Hoth |].
      split; [right; reflexivity |]. split; [intros Hlt; specialize (Hlow Hlt); discriminate |].
      exists meta. split; [exact Hmeta |]. split; [exact Hnew | reflexivity].
  - unfold bind at 1. unfold bind at 1.
    destruct (db_insert_spec meta D w2) as (n & st & rr & Eu & Hrr & Hlow & _).
    rewrite Eu.
    assert (Hoth : forall g, g <> f ->
              docs_of g (db D ++ [(db_next_id D, meta)]) = docs_of g (db D)).
    { intros g Hg. rewrite docs_of_insert. rewrite decide_False by congruence.
      apply app_nil_r. }
    assert (Hnew : docs_of f (db D ++ [(db_next_id D, meta)]) = docs_of f (db D) ++ [meta]).
    { rewrite docs_of_insert. rewrite decide_True by exact Hmf. reflexivity. }
    destruct Hrr as [-> | ->].
    + eexists _, _, _. split; [reflexivity |].
      cbn [db db_writes set_db set_unflushed directory db_fname validation extractors
           files add_log].
      split; [congruence |]. split; [eauto using same_env_trans, same_env_add_log |].
      split; [repeat split |]. split; [exact Hoth |].
      split; [left; reflexivity |]. split; [reflexivity |].
      exists meta. split; [exact Hmeta |]. split; [exact Hnew | reflexivity].
    + eexists _, _, _. split; [reflexivity |].
      cbn [db db_writes set_db set_unflushed directory db_fname validation extractors
           files add_log].
      split; [congruence |]. split; [exact Henv12 |].
      split; [repeat split |]. split; [exact Hoth |].
      split; [right; reflexivity |]. split; [intros Hlt; specialize (Hlow Hlt); discriminate |].
      exists meta. split; [exact Hmeta |]. split; [exact Hnew | reflexivity].
Qed.

(** ** The sync loop *)

Lemma check_file_files p (w w' : world) :
  files w' = files w -> check_file p w' = check_file p w.
Proof. intros H. unfold check_file. rewrite H. reflexivity. Qed.

Lemma full_path_of_config (D D' : Database) f :
  same_config D D' -> full_path_of D' f = full_path_of D f.
Proof.
  intros (Hd & _). unfold full_path_of, checkpoint_directory. rewrite Hd. reflexivity.
Qed.

Lemma accepted_config (D D' : Database) (w w' : world) f :
  same_config D D' -> files w' = files w -> accepted D' w' f = accepted D w f.
Proof.
  intros Hc Hf. unfold accepted.
  rewrite (full_path_of_config D D' f Hc), (check_file_files _ w w' Hf).
  destruct Hc as (_ & _ & -> & _). reflexivity.
Qed.

Lemma steady_config (D D' : Database) (w w' : world) look entries :
  same_config D D' -> files w' = files w ->
  steady D' w' look entries -> steady D w look entries.
Proof.
  intros Hc Hf. induction entries as [| [f m] rest IH]; cbn [steady]; [tauto |].
  rewrite (full_path_of_config D D' f Hc), (check_file_files _ w w' Hf).
  destruct Hc as (_ & _ & Hv & _). rewrite Hv.
  destruct (is_dirty (look f) m); [| exact IH].
  destruct (check_file (full_path_of D f) w); [| tauto].
  intros [H1 H2]. split; [exact H1 | apply IH; exact H2].
Qed.

Lemma steady_ext (D : Database) (w : world) look look' entries :
  (forall f, f ∈ map fst entries -> look f = look' f) ->
  steady D w look entries -> steady D w look' entries.
Proof.
  induction entries as [| [f m] rest IH]; cbn [steady map fst]; intros Heq; [tauto |].
  rewrite <- (Heq f) by left.
  assert (Hrest : forall g, g ∈ map fst rest -> look g = look' g)
    by (intros g Hg; apply Heq; right; exact Hg).
  destruct (is_dirty (look f) m); [| apply IH; exact Hrest].
  destruct (check_file (full_path_of D f) w); [| tauto].
  intros [H1 H2]. split; [exact H1 | apply IH; assumption].
Qed.

Lemma is_dirty_reindexed exports f m (d : doc) :
  reindexed exports f m d -> is_dirty (Some d) m = false.
Proof.
  intros (_ & Hm & _). unfold is_dirty, py_ne_mtime. rewrite Hm, Z.eqb_refl. reflexivity.
Qed.

Lemma last_Forall {A} (P : A -> Prop) (l : list A) (x : A) :
  Forall P l -> last l = Some x -> P x.
Proof.
  intros HF Hl. rewrite Forall_forall in HF. apply HF.
  apply last_Some in Hl as [l' ->]. apply elem_of_app. right. left.
Qed.

(** The outcome of the loop over the snapshot for a table whose records
    the loop's [existing_tracks] describes. *)
Lemma sync_loop_spec ex exports (entries : list (string * Z)) (D : Database) (w : world) :
  NoDup (map fst entries) ->
  (forall f, f ∈ map fst entries -> dict_get f ex = last (docs_of f (db D))) ->
  exists D' w' r,
    for_each entries (sync_file ex exports) (D, w) = ((D', w'), r)
    /\ files w' = files w /\ same_env w w' /\ same_config D D'
    /\ (forall g, g ∉ map fst entries -> docs_of g (db D') = docs_of g (db D))
    /\ (r <> Raise TypeError -> steady D w (fun g => last (docs_of g (db D'))) entries)
    /\ (r = Ok tt -> forall f m, (f, m) ∈ entries ->
        if is_dirty (dict_get f ex) m && accepted D w f
        then docs_of f (db D') <> [] /\ Forall (reindexed exports f m) (docs_of f (db D'))
        else docs_of f (db D') = docs_of f (db D)).
Proof.
  revert D w. induction entries as [| [f m] rest IH]; intros D w Hnd Hex.
  - exists D, w, (Ok tt). split; [reflexivity |]. split; [reflexivity |].
    split; [apply same_env_refl |]. split; [apply same_config_refl |].
    split; [reflexivity |]. split; [intros _; exact I |].
    intros _ f m Hin. apply elem_of_nil in Hin. contradiction.
  - cbn [map fst] in Hnd, Hex. apply NoDup_cons in Hnd as [Hfresh Hnd].
    assert (Hexf : dict_get f ex = last (docs_of f (db D))) by (apply Hex; left).
    destruct (sync_file_spec ex exports f m D w)
      as (D1 & w1 & r1 & E1 & Hf1 & Henv1 & Hc1 & Hoth1 & Hcase).
    cbn [for_each]. unfold bind at 1. rewrite E1.
    (* the rest of the loop, from the state the first turn leaves *)
    assert (Hex1 : forall g, g ∈ map fst rest -> dict_get g ex = last (docs_of g (db D1))).
    { intros g Hg. rewrite Hoth1 by (intros ->; contradiction). apply Hex. right. exact Hg. }
    destruct (IH D1 w1 Hnd Hex1) as (D' & w' & r & E & Hf & Henv & Hc & Hoth & Hst & Hok).
    assert (Hstd : r <> Raise TypeError ->
                   steady D w (fun g => last (docs_of g (db D'))) rest)
      by (intros Hnt; eapply steady_config; [exact Hc1 | exact Hf1 | exact (Hst Hnt)]).
    assert (Hrest : r = Ok tt -> forall f' m', (f', m') ∈ rest ->
              if is_dirty (dict_get f' ex) m' && accepted D w f'
              then docs_of f' (db D') <> [] /\ Forall (reindexed exports f' m') (docs_of f' (db D'))
              else docs_of f' (db D') = docs_of f' (db D)).
    { intros Hr f' m' Hin. specialize (Hok Hr f' m' Hin).
      rewrite (accepted_config D D1 w w1 f' Hc1 Hf1) in Hok.
      assert (f' <> f).
      { intros ->. apply Hfresh. apply list_elem_of_fmap. exists (f, m'). split; [reflexivity | exact Hin]. }
      rewrite (Hoth1 f') in Hok by assumption. exact Hok. }
    assert (Hother : forall g, g ∉ f :: map fst rest -> docs_of g (db D') = docs_of g (db D)).
    { intros g Hg. apply not_elem_of_cons in Hg as [Hgf Hg].
      rewrite Hoth by exact Hg. apply Hoth1. exact Hgf. }
    assert (Hff : docs_of f (db D') = docs_of f (db D1)) by (apply Hoth; exact Hfresh).
    unfold accepted in *.
    destruct (is_dirty (dict_get f ex) m) eqn:Hdirty.
    + destruct (check_file (full_path_of D f) w) as [v | e] eqn:Hchk.
      * destruct (v || negb (validation D)) eqn:Hacc.
        -- (* the file is (re)indexed *)
           destruct Hcase as (Hr1 & _ & meta & Hmeta & Hdocs).
           destruct Hr1 as [-> | ->].
           2:{ (* the write raised: the loop stops here *)
               exists D1, w1, (Raise TypeError). split; [reflexivity |].
               split; [exact Hf1 |]. split; [exact Henv1 |]. split; [exact Hc1 |].
               split; [intros g Hg; apply Hoth1; intros ->; apply Hg; left |].
               split; [intros Hnt; contradiction | discriminate]. }
           assert (Hnew : docs_of f (db D1) <> [] /\ Forall (reindexed exports f m) (docs_of f (db D1))).
           { destruct (dict_get f ex) as [old |] eqn:Hget.
             - destruct Hdocs as [-> _]. split.
               + symmetry in Hexf. apply last_Some in Hexf as [l' ->].
                 rewrite map_app. intros H. apply app_eq_nil in H as [_ H]. discriminate.
               + apply Forall_map. apply Forall_forall. intros old' _.
                 apply doc_update_reindexed. exact Hmeta.
             - destruct Hdocs as [-> _]. symmetry in Hexf. apply last_None in Hexf.
               rewrite Hexf. cbn [app]. split; [discriminate |].
               constructor; [exact Hmeta | constructor]. }
           exists D', w', r. split; [exact E |].
           split; [congruence |]. split; [eauto using same_env_trans |].
           split; [eauto using same_config_trans |]. split; [exact Hother |]. split.
           ++ intros Hnt. cbn [steady]. rewrite Hff.
              destruct (last (docs_of f (db D1))) as [d |] eqn:Hl.
              ** rewrite (is_dirty_reindexed exports f m d) by (eapply last_Forall; [apply Hnew | exact Hl]).
                 exact (Hstd Hnt).
              ** apply last_None in Hl. destruct Hnew as [Hne _]. contradiction.
           ++ intros Hr f' m' Hin. apply elem_of_cons in Hin as [[= -> ->] | Hin].
              ** rewrite Hdirty, Hchk, Hacc. cbn [andb]. rewrite Hff. exact Hnew.
              ** apply Hrest; assumption.
        -- destruct Hcase as [-> Hcase]. subst D1. exists D', w', r. split; [exact E |].
           split; [congruence |]. split; [eauto using same_env_trans |].
           split; [exact Hc |]. split; [exact Hother |]. split.
           ++ intros Hnt. cbn [steady]. rewrite Hff, <- Hexf, Hdirty, Hchk.
              split; [exact Hacc | exact (Hstd Hnt)].
           ++ intros Hr f' m' Hin. apply elem_of_cons in Hin as [[= -> ->] | Hin].
              ** rewrite Hdirty, Hchk, Hacc. cbn [andb]. exact Hff.
              ** apply Hrest; assumption.
      * destruct Hcase as [-> ->].
        exists D, w1, (Raise e). split; [reflexivity |].
        split; [exact Hf1 |]. split; [exact Henv1 |]. split; [apply same_config_refl |].
        split; [reflexivity |]. split.
        -- intros _. cbn [steady]. rewrite <- Hexf, Hdirty, Hchk. exact I.
        -- discriminate.
    + destruct Hcase as [-> ->].
      exists D', w', r. split; [exact E |].
      split; [congruence |]. split; [eauto using same_env_trans |].
      split; [exact Hc |]. split; [exact Hother |]. split.
      * intros Hnt. cbn [steady]. rewrite Hff, <- Hexf, Hdirty. exact (Hstd Hnt).
      * intros Hr f' m' Hin. apply elem_of_cons in Hin as [[= -> ->] | Hin].
        -- rewrite Hdirty. cbn [andb]. exact Hff.
        -- apply Hrest; assumption.
Qed.

Lemma same_config_sym (D D' : Database) : same_config D D' -> same_config D' D.
Proof. intros (H1 & H2 & H3 & H4). repeat split; symmetry; assumption. Qed.

Lemma listdir_files d (w w' : world) : files w' = files w -> listdir d w' = listdir d w.
Proof. intros H. unfold listdir. rewrite H. reflexivity. Qed.

Lemma found_files_config (D D' : Database) (w w' : world) :
  same_config D D' -> files w' = files w -> found_files D' w' = found_files D w.
Proof.
  intros (Hd & Hn & _) Hf. unfold found_files, path_glob, checkpoint_directory.
  rewrite Hd, Hn, !(listdir_files _ w w' Hf). reflexivity.
Qed.

Lemma fold_dict_NoDup {A V} (step : list (string * V) -> A -> list (string * V))
    (l : list A) (acc : list (string * V)) :
  (forall acc x, NoDup (dict_keys acc) -> NoDup (dict_keys (step acc x))) ->
  NoDup (dict_keys acc) -> NoDup (dict_keys (fold_left step l acc)).
Proof.
  intros Hstep. revert acc. induction l as [| x l IH]; intros acc Hacc; cbn [fold_left].
  - exact Hacc.
  - apply IH, Hstep, Hacc.
Qed.

Lemma found_files_NoDup (D : Database) (w : world) : NoDup (dict_keys (found_files D w)).
Proof.
  unfold found_files. apply fold_dict_NoDup.
  - intros acc [n f] Hacc. apply dict_set_NoDup, Hacc.
  - apply fold_dict_NoDup.
    + intros acc [n f] Hacc. destruct (String.eqb n (db_fname D)); [exact Hacc |].
      apply dict_set_NoDup, Hacc.
    + constructor.
Qed.

(** ** Dropping the records of missing files *)

Lemma drop_missing_loop (found : list (string * Z)) (keys : list string)
    (existing : list (string * doc)) (D : Database) (w : world) :
  NoDup (dict_keys existing) ->
  (forall g, dict_get g existing = last (docs_of g (db D))) ->
  exists D' w' r,
    fold_m (fun existing db_filename =>
              if dict_mem db_filename found then ret existing
              else
                run in_world_db (w_log "info" "Removing entry from DB");
                run db_remove db_filename;
                ret (dict_del db_filename existing))
           keys existing (D, w) = ((D', w'), r)
    /\ files w' = files w /\ same_env w w' /\ same_config D D'
    /\ (forall g, docs_of g (db D') = docs_of g (db D)
                  \/ (docs_of g (db D') = [] /\ dict_mem g found = false))
    /\ match r with
       | Ok existing' =>
           NoDup (dict_keys existing')
           /\ (forall g, dict_get g existing' = last (docs_of g (db D')))
           /\ (forall g, g ∈ keys -> dict_mem g found = false -> docs_of g (db D') = [])
       | Raise e => e = TypeError
       end.
Proof.
  revert existing D w. induction keys as [| k ks IH]; intros existing D w Hnd Hinv.
  - exists D, w, (Ok existing). split; [reflexivity |]. split; [reflexivity |].
    split; [apply same_env_refl |]. split; [apply same_config_refl |].
    split; [intros g; left; reflexivity |].
    split; [exact Hnd |]. split; [exact Hinv |].
    intros g Hg. apply elem_of_nil in Hg. contradiction.
  - cbn [fold_m]. unfold bind at 1.
    destruct (dict_mem k found) eqn:Hmem.
    + cbn [ret].
      destruct (IH existing D w Hnd Hinv)
        as (D' & w' & r & E & Hf & Henv & Hc & Hdocs & Hr).
      exists D', w', r. split; [exact E |]. split; [exact Hf |].
      split; [exact Henv |]. split; [exact Hc |]. split; [exact Hdocs |].
      destruct r as [ex' | e]; [| exact Hr].
      destruct Hr as (Hnd' & Hinv' & Hgone).
      split; [exact Hnd' |]. split; [exact Hinv' |].
      intros g Hg Hgm. apply elem_of_cons in Hg as [-> | Hg]; [congruence |].
      apply Hgone; assumption.
    + unfold bind at 1. rewrite in_world_db_log. unfold bind at 1.
      set (w0 := add_log "info" "Removing entry from DB" w).
      destruct (db_remove_spec k D w0) as (n & st & rr & Er & Hrr & _).
      rewrite Er.
      set (D1 := set_unflushed n st
                   (set_db (filter (fun '(_, old) => d_filename old <> k) (db D))
                           (db_next_id D) (OpRemove k) D)).
      assert (Hdocs1 : forall g, docs_of g (db D1)
                                 = if decide (g = k) then [] else docs_of g (db D))
        by (intros g; apply docs_of_remove).
      assert (Hstep : forall g, docs_of g (db D1) = docs_of g (db D)
                                \/ (docs_of g (db D1) = [] /\ dict_mem g found = false)).
      { intros g. rewrite Hdocs1. destruct (decide (g = k)) as [-> | Hne].
        - right. split; [reflexivity | exact Hmem].
        - left. reflexivity. }
      destruct Hrr as [-> | ->].
      2:{ exists D1, w0, (Raise TypeError). split; [reflexivity |].
          split; [reflexivity |]. split; [apply same_env_add_log |].
          split; [repeat split |]. split; [exact Hstep | reflexivity]. }
      assert (Hinv1 : forall g, dict_get g (dict_del k existing) = last (docs_of g (db D1))).
      { intros g. rewrite dict_get_del by exact Hnd. rewrite Hdocs1.
        destruct (String.eqb_spec g k) as [-> | Hne].
        - rewrite decide_True by reflexivity. reflexivity.
        - rewrite decide_False by exact Hne. apply Hinv. }
      destruct (IH (dict_del k existing) D1 w0 (dict_del_NoDup _ _ Hnd) Hinv1)
        as (D' & w' & r & E & Hf & Henv & Hc & Hdocs & Hr).
      exists D', w', r. split; [exact E |].
      split; [exact Hf |]. split.
      { eapply same_env_trans; [apply same_env_add_log | exact Henv]. }
      split.
      { eapply same_config_trans; [| exact Hc]. repeat split. }
      split.
      { intros g. destruct (Hdocs g) as [Hg | Hg].
        - rewrite Hg. apply Hstep.
        - right. exact Hg. }
      destruct r as [ex' | e]; [| exact Hr].
      destruct Hr as (Hnd' & Hinv' & Hgone).
      split; [exact Hnd' |]. split; [exact Hinv' |].
      intros g Hg Hgm. apply elem_of_cons in Hg as [-> | Hg].
      * destruct (Hdocs k) as [Hk | [Hk _]]; [| exact Hk].
        rewrite Hk, Hdocs1. rewrite decide_True by reflexivity. reflexivity.
      * apply Hgone; assumption.
Qed.

(** When every key is in the snapshot, the loop does nothing. *)
Lemma drop_missing_noop (found : list (string * Z)) (keys : list string)
    (existing : list (string * doc)) (s : Database * world) :
  (forall k, k ∈ keys -> dict_mem k found = true) ->
  fold_m (fun existing db_filename =>
            if dict_mem db_filename found then ret existing
            else
              run in_world_db (w_log "info" "Removing entry from DB");
              run db_remove db_filename;
              ret (dict_del db_filename existing))
         keys existing s = (s, Ok existing).
Proof.
  intros Hall. induction keys as [| k ks IH]; cbn [fold_m]; [reflexivity |].
  unfold bind at 1. rewrite (Hall k) by left. cbn [ret].
  apply IH. intros k' Hk'. apply Hall. right. exact Hk'.
Qed.

(** A steady loop writes nothing. *)
Lemma sync_loop_steady ex exports (entries : list (string * Z)) (D : Database) (w : world) :
  steady D w (fun g => dict_get g ex) entries ->
  exists w' r,
    for_each entries (sync_file ex exports) (D, w) = ((D, w'), r)
    /\ files w' = files w /\ same_env w w'.
Proof.
  revert w. induction entries as [| [f m] rest IH]; intros w Hst.
  - exists w, (Ok tt). split; [reflexivity |]. split; [reflexivity | apply same_env_refl].
  - cbn [steady] in Hst. cbn [for_each]. unfold bind at 1.
    destruct (sync_file_spec ex exports f m D w)
      as (D1 & w1 & r1 & E1 & Hf1 & Henv1 & Hc1 & _ & Hcase).
    rewrite E1.
    assert (Hgo : steady D w (fun g => dict_get g ex) rest -> D1 = D -> r1 = Ok tt ->
                  exists w' r,
                    match r1 with
                    | Ok a => for_each rest (sync_file ex exports) (D1, w1)
                    | Raise e => ((D1, w1), Raise e)
                    end = ((D, w'), r) /\ files w' = files w /\ same_env w w').
    { intros Hrest -> ->.
      destruct (IH w1) as (w' & r & E & Hf & Henv).
      - eapply steady_config; [apply same_config_refl | | exact Hrest]. congruence.
      - exists w', r. split; [exact E |]. split; [congruence |].
        eapply same_env_trans; eassumption. }
    destruct (is_dirty (dict_get f ex) m).
    + destruct (check_file (full_path_of D f) w) as [v | e].
      * destruct Hst as [Hacc Hrest]. rewrite Hacc in Hcase. destruct Hcase as [Hr HD].
        apply Hgo; assumption.
      * destruct Hcase as [-> ->]. exists w1, (Raise e).
        split; [reflexivity |]. split; assumption.
    + destruct Hcase as [Hr HD]. apply Hgo; assumption.
Qed.

(** ** One pass *)

Lemma dict_keys_get {V} g (d : list (string * V)) :
  g ∈ dict_keys d <-> dict_get g d <> None.
Proof.
  rewrite dict_get_None. split; [tauto |].
  intros H. destruct (decide (g ∈ dict_keys d)); tauto.
Qed.

Lemma load_tracks_incrementally_spec (D : Database) (w : world) :
  exists D' w' r,
    load_tracks_incrementally (D, w) = ((D', w'), r)
    /\ files w' = files w /\ same_env w w' /\ same_config D D'
    /\ (r <> Raise TypeError ->
        forall g, g ∉ dict_keys (found_files D w) -> docs_of g (db D') = [])
    /\ (r <> Raise TypeError ->
        steady D w (fun g => last (docs_of g (db D'))) (found_files D w))
    /\ (r = Ok tt -> forall f m, (f, m) ∈ found_files D w ->
        if is_dirty (last (docs_of f (db D))) m && accepted D w f
        then docs_of f (db D') <> []
             /\ Forall (reindexed (existing_exports D w) f m) (docs_of f (db D'))
        else docs_of f (db D') = docs_of f (db D)).
Proof.
  unfold load_tracks_incrementally. unfold bind at 1. cbn [get].
  unfold drop_missing. unfold bind at 1.
  destruct (drop_missing_loop (found_files D w) (dict_keys (existing_tracks_of D))
              (existing_tracks_of D) D w (existing_tracks_NoDup D)
              (fun g => existing_tracks_get g D))
    as (D0 & w0 & r0 & E0 & Hf0 & Henv0 & Hc0 & Hdocs0 & Hr0).
  rewrite E0.
  destruct r0 as [ex | e0].
  2:{ subst e0. exists D0, w0, (Raise TypeError). split; [reflexivity |].
      split; [exact Hf0 |]. split; [exact Henv0 |]. split; [exact Hc0 |].
      split; [intros H; contradiction |]. split; [intros H; contradiction | discriminate]. }
  destruct Hr0 as (Hnd0 & Hinv0 & Hgone0).
  assert (Hkept : forall g, g ∈ dict_keys (found_files D w) ->
                            docs_of g (db D0) = docs_of g (db D)).
  { intros g Hg. destruct (Hdocs0 g) as [H | [_ H]]; [exact H |].
    apply dict_mem_spec in Hg. congruence. }
  destruct (sync_loop_spec ex (existing_exports D w) (found_files D w) D0 w0
              (found_files_NoDup D w) (fun g _ => Hinv0 g))
    as (D1 & w1 & r1 & E1 & Hf1 & Henv1 & Hc1 & Hoth1 & Hst1 & Hok1).
  unfold bind at 1. rewrite E1.
  assert (Hmissing : forall g, g ∉ dict_keys (found_files D w) -> docs_of g (db D1) = []).
  { intros g Hg. rewrite (Hoth1 g Hg).
    destruct (docs_of g (db D)) eqn:Hd.
    - destruct (Hdocs0 g) as [H | [H _]]; congruence.
    - apply Hgone0.
      + apply dict_keys_get. rewrite existing_tracks_get, Hd.
        intros H. apply last_None in H. discriminate.
      + destruct (dict_mem g (found_files D w)) eqn:Hm; [| reflexivity].
        apply dict_mem_spec in Hm. contradiction. }
  assert (Hst : r1 <> Raise TypeError ->
                steady D w (fun g => last (docs_of g (db D1))) (found_files D w))
    by (intros Hnt; eapply steady_config; [exact Hc0 | exact Hf0 | exact (Hst1 Hnt)]).
  destruct r1 as [[] | e].
  - eexists _, _, _. split; [reflexivity |]. cbn [db set_tracks].
    split; [congruence |]. split; [eauto using same_env_trans |].
    split; [eapply same_config_trans; [exact Hc0 |];
            eapply same_config_trans; [exact Hc1 |]; repeat split |].
    split; [intros _; exact Hmissing |]. split; [exact Hst |].
    intros _ f m Hin. specialize (Hok1 eq_refl f m Hin).
    assert (Hfk : f ∈ dict_keys (found_files D w)).
    { apply list_elem_of_fmap. exists (f, m). split; [reflexivity | exact Hin]. }
    rewrite (accepted_config D D0 w w0 f Hc0 Hf0), Hinv0, (Hkept f Hfk) in Hok1.
    exact Hok1.
  - exists D1, w1, (Raise e). split; [reflexivity |].
    split; [congruence |]. split; [eauto using same_env_trans |].
    split; [eauto using same_config_trans |].
    split; [intros _; exact Hmissing |]. split; [exact Hst |]. discriminate.
Qed.

(** A pass on a settled index writes nothing. *)
Lemma load_tracks_incrementally_steady (D : Database) (w : world) :
  (forall g, g ∉ dict_keys (found_files D w) -> docs_of g (db D) = []) ->
  steady D w (fun g => last (docs_of g (db D))) (found_files D w) ->
  exists D' w' r,
    load_tracks_incrementally (D, w) = ((D', w'), r)
    /\ db D' = db D /\ db_writes D' = db_writes D /\ files w' = files w
    /\ db_unflushed D' = db_unflushed D /\ db_stored D' = db_stored D.
Proof.
  intros Hmissing Hst.
  unfold load_tracks_incrementally. unfold bind at 1. cbn [get].
  unfold drop_missing. unfold bind at 1.
  rewrite drop_missing_noop.
  2:{ intros k Hk. destruct (dict_mem k (found_files D w)) eqn:Hm; [reflexivity |].
      exfalso. apply dict_keys_get in Hk. apply Hk.
      rewrite existing_tracks_get, Hmissing; [reflexivity |].
      intros Hin. apply dict_mem_spec in Hin. congruence. }
  destruct (sync_loop_steady (existing_tracks_of D) (existing_exports D w)
              (found_files D w) D w) as (w1 & r1 & E1 & Hf1 & _).
  { eapply steady_ext; [| exact Hst]. intros f _. cbn beta.
    symmetry. apply existing_tracks_get. }
  unfold bind at 1. rewrite E1. destruct r1 as [[] | e].
  - eexists _, _, _. split; [reflexivity |]. cbn [db db_writes set_tracks].
    split; [reflexivity |]. split; [reflexivity |]. split; [exact Hf1 |].
    split; reflexivity.
  - exists D, w1, (Raise e). split; [reflexivity |].
    split; [reflexivity |]. split; [reflexivity |]. split; [exact Hf1 |].
    split; reflexivity.
Qed.

(** ** The export files found by a pass *)

(** [existing_exports[base].append(ext)], over a list of (base, ext). *)
Lemma exports_fold_get (b : string) (pairs : list (string * string))
    (acc : list (string * list string)) :
  dict_get b (fold_left (fun acc '(k, ext) =>
                           dict_set k (default [] (dict_get k acc) ++ [ext]) acc)
                        pairs acc)
  = match filter (fun p => fst p = b) pairs with
    | [] => dict_get b acc
    | l => Some (default [] (dict_get b acc) ++ map snd l)
    end.
Proof.
  revert acc. induction pairs as [| [k ext] pairs IH]; intros acc; cbn [fold_left].
  - reflexivity.
  - rewrite IH, dict_get_set.
    destruct (decide (k = b)) as [-> | Hne].
    + rewrite filter_cons_True by reflexivity.
      rewrite String.eqb_refl.
      destruct (filter (fun p => fst p = b) pairs) as [| p l]; cbn [default map snd].
      * reflexivity.
      * unfold id. rewrite <- app_assoc. reflexivity.
    + rewrite filter_cons_False by exact Hne.
      destruct (String.eqb_spec b k) as [-> | _]; [contradiction | reflexivity].
Qed.

Lemma listdir_elem_of (d n : string) (f : file) (w : world) :
  files w !! (d, n) = Some f -> (n, f) ∈ listdir d w.
Proof.
  intros Hf. unfold listdir. rewrite list_elem_of_omap. exists ((d, n), f).
  split; [apply elem_of_map_to_list; exact Hf |].
  rewrite String.eqb_refl. reflexivity.
Qed.

(** The (base, extension) pairs in the order the two loops meet them. *)
Lemma existing_exports_pairs (D : Database) (w : world) :
  existing_exports D w
  = fold_left (fun acc '(k, ext) => dict_set k (default [] (dict_get k acc) ++ [ext]) acc)
              (flat_map (fun ext => map (fun '(n, _) => (stem n, ext))
                                        (path_glob (directory D) ("." +:+ ext) w))
                        export_extensions)
              [].
Proof.
  unfold existing_exports. generalize (@nil (string * list string)).
  induction export_extensions as [| ext exts IH]; intros acc; cbn [fold_left flat_map].
  - reflexivity.
  - rewrite fold_left_app, IH. f_equal.
    generalize (path_glob (directory D) ("." +:+ ext) w). intros l. revert acc.
    induction l as [| [n f] l IHl]; intros acc; cbn [fold_left map]; [reflexivity |].
    apply IHl.
Qed.

(** What a pass finds for a base name: the supported extensions, in
    order, for which the primary directory holds a file with that stem. *)
Lemma existing_exports_spec (D : Database) (w : world) (b : string) (exts : list string) :
  dict_get b (existing_exports D w) = Some exts ->
  forall ext, ext ∈ exts <->
    ext ∈ export_extensions
    /\ exists n f, files w !! (directory D, n) = Some f
                   /\ ends_with ("." +:+ ext) n = true /\ stem n = b.
Proof.
  rewrite existing_exports_pairs, exports_fold_get. cbn [dict_get default app].
  set (pairs := flat_map _ _).
  intros Hget ext.
  assert (Hexts : exts = map snd (filter (fun p => fst p = b) pairs)).
  { destruct (filter (fun p => fst p = b) pairs); [discriminate | congruence]. }
  rewrite Hexts. clear Hget Hexts.
  rewrite list_elem_of_fmap. split.
  - intros ([k e] & -> & Hin). cbn [snd].
    apply list_elem_of_filter in Hin as [Hk Hin]. cbn [fst] in Hk. subst k.
    apply list_elem_of_In, in_flat_map in Hin as (e' & He' & Hin).
    apply list_elem_of_In, list_elem_of_fmap in Hin as ([n f] & Heq & Hin).
    injection Heq as Hb <-.
    split; [apply list_elem_of_In; exact He' |].
    apply list_elem_of_filter in Hin as [Hends Hin].
    apply listdir_lookup in Hin.
    exists n, f. auto.
  - intros (He & n & f & Hf & Hends & Hstem).
    exists (b, ext). split; [reflexivity |].
    apply list_elem_of_filter. split; [reflexivity |].
    apply list_elem_of_In, in_flat_map. exists ext.
    split; [apply list_elem_of_In; exact He |].
    apply list_elem_of_In, list_elem_of_fmap. exists (n, f).
    split; [rewrite Hstem; reflexivity |].
    apply list_elem_of_filter. split; [exact Hends |].
    apply listdir_elem_of. exact Hf.
Qed.

(** ** The claims on the sync pass *)

(** What holds of C6 on the code: after a pass that was not cut short by
    the [TypeError] of a cache flush, a second pass on any world with the
    same files changes no record, makes no call to [insert], [update] or
    [remove] on the table, and writes nothing to the storage. *)
Lemma settled_pass_is_idempotent (D : Database) (w w1 : world) :
  (load_tracks_incrementally (D, w)).2 <> Raise TypeError ->
  files w1 = files (after_sync (D, w)).2 ->
  db (after_sync ((after_sync (D, w)).1, w1)).1 = db (after_sync (D, w)).1
  /\ db_writes (after_sync ((after_sync (D, w)).1, w1)).1 = db_writes (after_sync (D, w)).1
  /\ db_stored (after_sync ((after_sync (D, w)).1, w1)).1 = db_stored (after_sync (D, w)).1
  /\ files (after_sync ((after_sync (D, w)).1, w1)).2 = files w1.
Proof.
  unfold after_sync.
  destruct (load_tracks_incrementally_spec D w)
    as (D1 & w1' & r & E & Hf & _ & Hc & Hmissing & Hst & _).
  rewrite E. cbn [fst snd]. intros Hnt Hw1.
  assert (Hfound : found_files D1 w1 = found_files D w)
    by (apply found_files_config; [exact Hc | congruence]).
  destruct (load_tracks_incrementally_steady D1 w1)
    as (D2 & w2 & r2 & E2 & Hdb & Hwr & Hf2 & _ & Hsto).
  - rewrite Hfound. exact (Hmissing Hnt).
  - rewrite Hfound. eapply steady_config; [apply same_config_sym; exact Hc | | exact (Hst Hnt)].
    congruence.
  - rewrite E2. cbn [fst snd]. auto.
Qed.

(** C6 fails on the code once the cache of the table flushes. The index has
    taken 999 writes since its last flush and two tracks are not indexed
    yet. The first pass inserts the record of [a.json], whose ["filepath"]
    is a [Path]; this is the 1000th write, the flush cannot serialise the
    record and the pass ends in a [TypeError]. The second pass, over the
    same files, finds [b.json] still missing from the table, inserts its
    record, and ends in the same [TypeError]: it has made one insertion. *)
Theorem second_pass_after_failed_flush :
  let s1 := load_tracks_incrementally (full_cache_index, two_tracks_world) in
  let s2 := load_tracks_incrementally (s1.1.1, two_tracks_world) in
  s1.2 = Raise TypeError
  /\ map (fun row => d_filename row.2) (db s1.1.1) = ["a.json"]
  /\ s2.2 = Raise TypeError
  /\ map (fun row => d_filename row.2) (db s2.1.1) = ["a.json"; "b.json"]
  /\ db_writes s2.1.1
     = db_writes s1.1.1
       ++ [OpInsert (build_meta ∅ "b.json" ("data", "b.json") false 6
                                [("a", ["json"]); ("b", ["json"])])].
Proof. cbv zeta. repeat (split; [vm_compute; reflexivity |]). vm_compute. reflexivity. Qed.

(** C7, as the code has it: on a pass that returns, the export extensions
    found for a file's base name ([existing_exports_spec]) are attached to
    its records when the file is new or modified and is accepted; the
    records of every other file of the snapshot are left as they were. *)
Theorem exports_attached_when_reindexed (D D' : Database) (w w' : world) (f : string) (m : Z) :
  load_tracks_incrementally (D, w) = ((D', w'), Ok tt) ->
  (f, m) ∈ found_files D w ->
  if is_dirty (last (docs_of f (db D))) m && accepted D w f
  then docs_of f (db D') <> []
       /\ Forall (fun d => d_fields d !! "mtime" = Some (VInt m)
                           /\ exports_attached (existing_exports D w) d)
                 (docs_of f (db D'))
  else docs_of f (db D') = docs_of f (db D).
Proof.
  intros E Hin.
  destruct (load_tracks_incrementally_spec D w)
    as (D1 & w1 & r & E1 & _ & _ & _ & _ & _ & Hok).
  rewrite E in E1. injection E1 as <- <- <-.
  specialize (Hok eq_refl f m Hin).
  destruct (is_dirty (last (docs_of f (db D))) m && accepted D w f); [| exact Hok].
  destruct Hok as [Hne Hall]. split; [exact Hne |].
  eapply Forall_impl; [exact Hall |].
  intros d (Hname & Hm & Hexp). split; [exact Hm |].
  unfold exports_attached. rewrite Hname. exact Hexp.
Qed.

Lemma exports_attached_when_reindexed_witness :
  if is_dirty (last (docs_of "a.json" (db (index_of [])))) 5
     && accepted (index_of []) track_world "a.json"
  then docs_of "a.json" (db (after_sync (index_of [], track_world)).1) <> []
       /\ Forall (fun d => d_fields d !! "mtime" = Some (VInt 5)
                           /\ exports_attached (existing_exports (index_of []) track_world) d)
                 (docs_of "a.json" (db (after_sync (index_of [], track_world)).1))
  else docs_of "a.json" (db (after_sync (index_of [], track_world)).1)
       = docs_of "a.json" (db (index_of [])).
Proof.
  apply (exports_attached_when_reindexed (index_of []) _ track_world
           (after_sync (index_of [], track_world)).2 "a.json" 5).
  - vm_compute. reflexivity.
  - vm_compute. left.
Defined.

(** C7 does not hold for a clean record: [a.json] is indexed and unmodified, [a.csv] lies
    next to it, and the pass leaves the record without its exports. *)
Lemma exports_not_attached_to_clean_record :
  exists D' w',
    load_tracks_incrementally (index_of [(1%nat, clean_record)], track_world)
    = ((D', w'), Ok tt)
    /\ dict_get (base_name "a.json")
                (existing_exports (index_of [(1%nat, clean_record)]) track_world)
       = Some ["json"; "csv"]
    /\ db_all D' = [clean_record]
    /\ d_fields clean_record !! "exports" = None.
Proof.
  eexists _, _. split; [vm_compute; reflexivity |].
  split; [vm_compute; reflexivity |].
  split; reflexivity.
Qed.

(** * Further properties *)

(** ** The snapshot of a pass and the records it leaves *)

Lemma fold_dict_set_keys (skip : string -> bool) (l : list (string * file))
    (acc : list (string * Z)) (g : string) :
  g ∈ dict_keys (fold_left (fun acc '(n, f) => if skip n then acc
                                               else dict_set n (f_mtime f) acc) l acc)
  <-> g ∈ dict_keys acc \/ exists f, (g, f) ∈ l /\ skip g = false.
Proof.
  revert acc. induction l as [| [n f] l IH]; intros acc; cbn [fold_left].
  - split; [auto |]. intros [H | (x & Hx & _)]; [exact H |].
    apply elem_of_nil in Hx. contradiction.
  - rewrite IH. destruct (skip n) eqn:Hs.
    + split.
      * intros [H | (y & Hy & Hsy)]; [auto |].
        right. exists y. split; [right; exact Hy | auto].
      * intros [H | (y & Hy & Hsy)]; [auto |].
        apply elem_of_cons in Hy as [[= -> ->] | Hy]; [congruence |].
        right. exists y. auto.
    + rewrite dict_keys_set. split.
      * intros [[-> | H] | (y & Hy & Hsy)]; [| auto |].
        -- right. exists f. split; [left | auto].
        -- right. exists y. split; [right; exact Hy | auto].
      * intros [H | (y & Hy & Hsy)]; [auto |].
        apply elem_of_cons in Hy as [[= -> ->] | Hy].
        -- left. left. reflexivity.
        -- right. exists y. auto.
Qed.

Lemma fold_dict_set_keys_all (l : list (string * file)) (acc : list (string * Z)) (g : string) :
  g ∈ dict_keys (fold_left (fun acc '(n, f) => dict_set n (f_mtime f) acc) l acc)
  <-> g ∈ dict_keys acc \/ exists f, (g, f) ∈ l.
Proof.
  pose proof (fold_dict_set_keys (fun _ => false) l acc g) as H. cbv beta iota in H.
  rewrite H. split; intros [Ha | (f & Hf)]; auto; right; exists f; tauto.
Qed.

(** The names of the snapshot: the [.json] files of the primary directory
    other than the index's own file, and the [.chk.json] files of the
    checkpoint directory. *)
Lemma found_files_keys (D : Database) (w : world) (g : string) :
  g ∈ dict_keys (found_files D w)
  <-> (exists f, files w !! (directory D, g) = Some f
                 /\ ends_with ".json" g = true /\ g <> db_fname D)
      \/ (exists f, files w !! (checkpoint_directory D, g) = Some f
                    /\ ends_with ".chk.json" g = true).
Proof.
  unfold found_files.
  rewrite fold_dict_set_keys_all, (fold_dict_set_keys (fun n => String.eqb n (db_fname D))).
  unfold path_glob. split.
  - intros [[H | (f & Hin & Hskip)] | (f & Hin)].
    + apply elem_of_nil in H. contradiction.
    + apply list_elem_of_filter in Hin as [Hend Hin].
      left. exists f. split; [apply listdir_lookup; exact Hin |].
      split; [exact Hend |]. apply String.eqb_neq. exact Hskip.
    + apply list_elem_of_filter in Hin as [Hend Hin].
      right. exists f. split; [apply listdir_lookup; exact Hin | exact Hend].
  - intros [(f & Hf & Hend & Hne) | (f & Hf & Hend)].
    + left. right. exists f. split.
      * apply list_elem_of_filter. split; [exact Hend | apply listdir_elem_of; exact Hf].
      * apply String.eqb_neq. exact Hne.
    + right. exists f.
      apply list_elem_of_filter. split; [exact Hend | apply listdir_elem_of; exact Hf].
Qed.

(** A sync pass, whether it returns or raises, writes and deletes no file.
    Unless it is cut short by the [TypeError] of a cache flush (a call of
    [remove], [update] or [insert] that raises after changing the table), it
    leaves no record whose file is missing from both directories. *)
Theorem sync_pass_drops_missing_records (D : Database) (w : world) :
  exists D' w' r,
    load_tracks_incrementally (D, w) = ((D', w'), r)
    /\ files w' = files w
    /\ (r <> Raise TypeError ->
        forall d, d ∈ db_all D' ->
          (exists f, files w !! (directory D, d_filename d) = Some f
                     /\ ends_with ".json" (d_filename d) = true
                     /\ d_filename d <> db_fname D)
          \/ (exists f, files w !! (checkpoint_directory D, d_filename d) = Some f
                        /\ ends_with ".chk.json" (d_filename d) = true)).
Proof.
  destruct (load_tracks_incrementally_spec D w)
    as (D' & w' & r & E & Hf & _ & _ & Hmissing & _).
  exists D', w', r. split; [exact E |]. split; [exact Hf |].
  intros Hnt d Hd. apply found_files_keys.
  destruct (decide (d_filename d ∈ dict_keys (found_files D w))) as [Hin | Hout]; [exact Hin |].
  specialize (Hmissing Hnt _ Hout).
  assert (Hd' : d ∈ docs_of (d_filename d) (db D'))
    by (unfold docs_of; apply list_elem_of_filter; split; [reflexivity | exact Hd]).
  rewrite Hmissing in Hd'. apply elem_of_nil in Hd'. contradiction.
Qed.

(** ** After a pass: what is indexed *)

(** After a pass that returns, a file of the snapshot that is accepted
    (valid, or validation off) has a record, and the record the next pass
    looks at carries the file's modification time; a file that is not
    accepted keeps exactly the records it had. *)
Theorem sync_pass_indexes_accepted_files (D D' : Database) (w w' : world)
    (f : string) (m : Z) :
  load_tracks_incrementally (D, w) = ((D', w'), Ok tt) ->
  (f, m) ∈ found_files D w ->
  (accepted D w f = true ->
   docs_of f (db D') <> [] /\ is_dirty (last (docs_of f (db D'))) m = false)
  /\ (accepted D w f = false -> docs_of f (db D') = docs_of f (db D)).
Proof.
  intros E Hin.
  destruct (load_tracks_incrementally_spec D w)
    as (D1 & w1 & r & E1 & _ & _ & _ & _ & _ & Hok).
  rewrite E in E1. injection E1 as <- <- <-.
  specialize (Hok eq_refl f m Hin).
  destruct (is_dirty (last (docs_of f (db D))) m) eqn:Hdirty; cbn [andb] in Hok.
  - split; intros Hacc; rewrite Hacc in Hok; [| exact Hok].
    destruct Hok as [Hne Hall]. split; [exact Hne |].
    destruct (last (docs_of f (db D'))) as [d |] eqn:Hl.
    + eapply is_dirty_reindexed. eapply last_Forall; [exact Hall | exact Hl].
    + apply last_None in Hl. contradiction.
  - split; intros _; [| exact Hok]. rewrite Hok. split; [| exact Hdirty].
    intros Hnil. rewrite Hnil in Hdirty. discriminate.
Qed.

Lemma sync_pass_indexes_accepted_files_witness :
  (accepted (index_of []) track_world "a.json" = true ->
   docs_of "a.json" (db (after_sync (index_of [], track_world)).1) <> []
   /\ is_dirty (last (docs_of "a.json" (db (after_sync (index_of [], track_world)).1))) 5
      = false)
  /\ (accepted (index_of []) track_world "a.json" = false ->
      docs_of "a.json" (db (after_sync (index_of [], track_world)).1)
      = docs_of "a.json" (db (index_of []))).
Proof.
  apply (sync_pass_indexes_accepted_files (index_of []) _ track_world
           (after_sync (index_of [], track_world)).2 "a.json" 5).
  - vm_compute. reflexivity.
  - vm_compute. left.
Defined.

(** The export extensions a pass finds for a base name are the supported
    extensions for which the primary directory holds a file with that
    stem: a file is matched by its stem alone, whatever it holds. *)
Theorem exports_found_by_stem (D : Database) (w : world) (b : string) (exts : list string) :
  dict_get b (existing_exports D w) = Some exts ->
  forall ext, ext ∈ exts <->
    ext ∈ export_extensions
    /\ exists n f, files w !! (directory D, n) = Some f
                   /\ ends_with ("." +:+ ext) n = true /\ stem n = b.
Proof. exact (existing_exports_spec D w b exts). Qed.

Lemma exports_found_by_stem_witness :
  "csv"%string ∈ ["json"; "csv"]%string <->
    "csv"%string ∈ export_extensions
    /\ exists n f, files track_world !! (directory (index_of []), n) = Some f
                   /\ ends_with ("." +:+ "csv") n = true /\ stem n = "a"%string.
Proof.
  apply (exports_found_by_stem (index_of []) track_world "a" ["json"; "csv"]).
  vm_compute. reflexivity.
Defined.

(** ** What the JSON exporter writes, and the index's validation *)

Lemma valid_item_json_of_DataPoint (dp : DataPoint) :
  valid_item (json_of_DataPoint dp) = forallb (fun kv => is_scalar (snd kv)) (input_data dp).
Proof. reflexivity. Qed.

Lemma validate_schema_export (dps : list DataPoint) :
  validate_schema (VList (map json_of_DataPoint dps))
  = forallb (fun dp => forallb (fun kv => is_scalar (snd kv)) (input_data dp)) dps.
Proof.
  cbn [validate_schema]. induction dps as [| dp dps IH]; cbn [map forallb]; [reflexivity |].
  rewrite IH, valid_item_json_of_DataPoint. reflexivity.
Qed.

(** A file written by [export_to_json] passes the index's schema validation
    exactly when every field value of every exported sample is a scalar; the
    validation itself changes no file and does not raise. *)
Theorem exported_json_validates (dps : list DataPoint) (p : string * string)
    (interval : option slice) (names : option (list string)) (D : Database) (w : world) :
  p ∉ unwritable w ->
  exists w1 w2,
    export_to_json (Some dps) p interval names w = (w1, Ok tt)
    /\ validate_json p (D, w1)
       = ((D, w2),
          Ok (forallb (fun dp => forallb (fun kv => is_scalar (snd kv)) (input_data dp))
                      (select interval dps)))
    /\ files w2 = files w1.
Proof.
  intros Hw. unfold export_to_json. rewrite w_write_spec.
  rewrite bool_decide_eq_false_2 by exact Hw.
  eexists. destruct (validate_json_spec p D
    (set_files (<[p := mk_file (CJson (VList (map json_of_DataPoint (select interval dps))))
                               (total_microseconds (clock w (tick w)))]> (files w)) w))
    as (w2 & E & Hf & _).
  exists w2. split; [reflexivity |]. split; [| exact Hf].
  rewrite E. unfold check_file. cbn [files set_files].
  rewrite lookup_insert_eq. cbn [f_content json_load].
  rewrite validate_schema_export. reflexivity.
Qed.

Lemma exported_json_validates_witness :
  exists w1 w2,
    export_to_json (Some [sample 1; sample 2]) ("data", "run.json") None None quiet_world
    = (w1, Ok tt)
    /\ validate_json ("data", "run.json") (index_of [], w1)
       = ((index_of [], w2),
          Ok (forallb (fun dp => forallb (fun kv => is_scalar (snd kv)) (input_data dp))
                      (select None [sample 1; sample 2])))
    /\ files w2 = files w1.
Proof.
  apply (exported_json_validates [sample 1; sample 2] ("data", "run.json") None None
           (index_of []) quiet_world).
  cbn. set_solver.
Defined.

(** ** [Track.load] fails without a trace *)

(** [load] is all or nothing: it never touches a file; when it raises, the
    buffer and the mode are as before (a missing file raises [OSError], a
    file that is not JSON raises [RuntimeError]); when it returns, the mode
    is ["replay"]. *)
Theorem load_all_or_nothing (p : string * string) (t : Track) (w : world) :
  exists t' w' r,
    load p (t, w) = ((t', w'), r)
    /\ files w' = files w
    /\ (forall e, r = Raise e -> t' = t)
    /\ (r = Ok tt -> mode t' = "replay")
    /\ (files w !! p = None -> r = Raise OSError /\ w' = w)
    /\ (forall f, files w !! p = Some f ->
          (forall v, f_content f <> CJson v) ->
          r = Raise (RuntimeError "could not load file into a Track")).
Proof.
  unfold load, bind, in_world, w_read.
  destruct (files w !! p) as [f |] eqn:Ef.
  2:{ exists t, w, (Raise OSError). split; [reflexivity |]. split; [reflexivity |].
      split; [reflexivity |]. split; [discriminate |]. split; [auto |]. discriminate. }
  destruct (f_content f) as [v | h rows | pts | s |] eqn:Ec; cbn [json_load].
  2-5: eexists _, _, _; (split; [reflexivity |]); (split; [reflexivity |]);
       (split; [reflexivity |]); (split; [discriminate |]); (split; [discriminate |]);
       intros f' [= <-] _; reflexivity.
  unfold ret, lift. destruct (py_iter v) as [items | e].
  2:{ eexists _, _, _. split; [reflexivity |]. split; [reflexivity |].
      split; [reflexivity |]. split; [discriminate |]. split; [discriminate |].
      intros f' [= <-] Hne. exfalso. apply (Hne v). exact Ec. }
  destruct (load_DataPoints items) as [dps | e].
  - eexists _, _, _. split; [reflexivity |]. split; [reflexivity |].
    split; [discriminate |]. split; [reflexivity |]. split; [discriminate |].
    intros f' [= <-] Hne. exfalso. apply (Hne v). exact Ec.
  - eexists _, _, _. split; [reflexivity |]. split; [reflexivity |].
    split; [reflexivity |]. split; [discriminate |]. split; [discriminate |].
    intros f' [= <-] Hne. exfalso. apply (Hne v). exact Ec.
Qed.

(** ** binary64: products with a power of two *)

Lemma mul_pow2 (p : positive) (e ec : Z) :
  2 ^ 52 <= Zpos p < 2 ^ 53 ->
  -1074 <= e + ec + 52 <= 971 ->
  F64.mul (S754_finite false p e) (S754_finite false 4503599627370496 ec)
  = S754_finite false p (e + ec + 52).
Proof.
  intros Hp He. unfold F64.mul, SFmul. cbn [xorb].
  rewrite (binary_round_aux_shift (p * 4503599627370496) (e + ec) 52 p).
  - reflexivity.
  - apply digits2_pos_unique. rewrite Pos2Z.inj_mul.
    assert (H52 : Zpos 4503599627370496 = 2 ^ 52) by reflexivity. rewrite H52.
    replace (53 + 52 - 1) with (52 + 52) by lia. replace (53 + 52) with (53 + 52) by lia.
    rewrite !Z.pow_add_r by lia.
    generalize dependent (2 ^ 52). generalize dependent (2 ^ 53). intros; nia.
  - exact Hp.
  - rewrite Pos2Z.inj_mul.
    assert (H52 : Zpos 4503599627370496 = 2 ^ 52) by reflexivity. rewrite H52.
    apply rne_shift_near; [lia |].
    replace (Zpos p * 2 ^ 52 - Zpos p * 2 ^ 52) with 0 by ring.
    assert (0 < 2 ^ 52) by (apply Z.pow_pos_nonneg; lia). cbn [Z.abs]. lia.
  - exact He.
Qed.

(** [n * 1.0] is [float(n)], and [int(n * 0.5)] is [n // 2]. *)
Lemma mul_one (n : Z) :
  1 <= n < 2 ^ 53 -> F64.mul (F64.of_int n) F64.one = F64.of_int n.
Proof.
  intros Hn. destruct (of_int_spec n Hn) as (p & s & Hs & Hp & Hr & _ & Hof).
  rewrite Hof. unfold F64.one. rewrite mul_pow2 by lia. f_equal. lia.
Qed.

Lemma int_mul_half (n : Z) :
  1 <= n < 2 ^ 53 ->
  F64.to_int (F64.mul (F64.of_int n) default_trim_fraction) = Ok (n / 2).
Proof.
  intros Hn. destruct (of_int_spec n Hn) as (p & s & Hs & Hp & Hr & _ & Hof).
  rewrite Hof. unfold default_trim_fraction. rewrite mul_pow2 by lia.
  replace (- s + -53 + 52) with (- (s + 1)) by lia.
  cbn [F64.to_int]. f_equal.
  destruct (s + 1) as [| q | q] eqn:Eq; try lia.
  change (- Z.pos q) with (Z.neg q). cbv iota.
  rewrite Z.shiftr_div_pow2 by lia. rewrite Hp, <- Eq.
  rewrite Z.pow_add_r by lia. change (2 ^ 1) with 2.
  rewrite <- Z.div_div by (try apply Z.pow_pos_nonneg; lia).
  rewrite Z.div_mul by (apply Z.pow_nonzero; lia). reflexivity.
Qed.

(** ** [_remove_datapoints]: what it can do *)

(** [del l[a:b]] removes a block and keeps the rest in order. *)
Lemma py_del_slice_block {A} (a b : Z) (l : list A) :
  exists i j, (i <= j)%nat /\ py_del_slice a b l = take i l ++ drop j l.
Proof.
  unfold py_del_slice, slice_bounds. cbn [from_option].
  set (x := clamp_index _ a). set (y := clamp_index _ b).
  destruct (Z.ltb_spec x y).
  - exists (Z.to_nat x), (Z.to_nat y). split; [lia | reflexivity].
  - exists 0%nat, 0%nat. split; [lia |]. rewrite take_0, drop_0. reflexivity.
Qed.

Lemma remove_datapoints_frame (start : Z) (fraction : spec_float) (t : Track) (w : world) :
  exists dps w' r,
    _remove_datapoints start fraction (t, w) = ((set_data_points dps t, w'), r)
    /\ same_env w w' /\ files w' = files w
    /\ (exists i j, (i <= j)%nat /\ dps = take i (data_points t) ++ drop j (data_points t))
    /\ (forall e, r = Raise e -> dps = data_points t).
Proof.
  assert (Hid : set_data_points (data_points t) t = t) by (destruct t; reflexivity).
  assert (Hsame : exists i j, (i <= j)%nat
                    /\ data_points t = take i (data_points t) ++ drop j (data_points t)).
  { exists 0%nat, 0%nat. split; [lia |]. rewrite take_0, drop_0. reflexivity. }
  unfold _remove_datapoints. unfold bind at 1, self at 1.
  destruct (data_points t) as [| dp dps0] eqn:Edp.
  - exists [], (add_log "warning" "no data points to clear" w), (Ok tt).
    rewrite Hid. split; [reflexivity |].
    split; [apply same_env_add_log |]. split; [reflexivity |]. split; [exact Hsame |].
    discriminate.
  - unfold bind at 1, lift at 1.
    destruct (F64.to_int _) as [num | e].
    + destruct (py_del_slice_block (Z.max 0 (Z.min start (len (dp :: dps0) - 1)))
                  (Z.min (Z.max 0 (Z.min start (len (dp :: dps0) - 1)) + num)
                         (len (dp :: dps0)))
                  (dp :: dps0)) as (i & j & Hij & Hdel).
      eexists _, _, _. split; [reflexivity |].
      split; [apply same_env_add_log |]. split; [reflexivity |].
      split; [| discriminate]. exists i, j. split; [exact Hij | exact Hdel].
    + exists (dp :: dps0), w, (Raise e). rewrite Hid.
      split; [reflexivity |]. split; [apply same_env_refl |]. split; [reflexivity |].
      split; [exact Hsame | reflexivity].
Qed.

(** ** What [add_point] leaves alone *)

Lemma same_settings_refl (t : Track) : same_settings t t.
Proof. exists (_last_checkpoint t), (data_points t). destruct t; reflexivity. Qed.

Lemma same_settings_trans (t1 t2 t3 : Track) :
  same_settings t1 t2 -> same_settings t2 t3 -> same_settings t1 t3.
Proof. intros (c & d & ->) (c' & d' & ->). exists c', d'. reflexivity. Qed.

Lemma same_settings_checkpoint (t t' : Track) : same_but_checkpoint t t' -> same_settings t t'.
Proof. intros [c ->]. exists c, (data_points t). destruct t; reflexivity. Qed.

Lemma same_settings_data (dps : list DataPoint) (t : Track) :
  same_settings t (set_data_points dps t).
Proof. exists (_last_checkpoint t), dps. destruct t; reflexivity. Qed.

Lemma same_settings_fields (t t' : Track) :
  same_settings t t' ->
  field_names t' = field_names t /\ mode t' = mode t /\ save_mode t' = save_mode t
  /\ checkpoint_interval t' = checkpoint_interval t
  /\ max_checkpoint_files t' = max_checkpoint_files t
  /\ output_dir t' = output_dir t /\ trim_fraction t' = trim_fraction t
  /\ max_datapoints t' = max_datapoints t /\ preprocessors t' = preprocessors t
  /\ _replay_index t' = _replay_index t
  /\ _save_interval_start t' = _save_interval_start t
  /\ checkpoint_dir t' = checkpoint_dir t.
Proof. intros (c & d & ->). repeat split. Qed.

Lemma add_point_frame ts data (t : Track) (w : world) :
  exists t' w' r,
    add_point ts data (t, w) = ((t', w'), r)
    /\ same_settings t t' /\ same_env w w'.
Proof.
  unfold add_point. unfold bind at 1, self at 1. unfold bind at 1.
  destruct ((match field_names t with
             | Some names => if schema_mismatch names data
                             then raise (ValueError "inconsistent fields") else ret tt
             | None => ret tt
             end) (t, w)) as [s0 r0] eqn:Echeck.
  assert (Hs0 : s0 = (t, w)).
  { destruct (field_names t); [destruct (schema_mismatch _ _) |];
      cbv [raise ret] in Echeck; congruence. }
  subst s0. destruct r0 as [[] | e].
  2:{ exists t, w, (Raise e). split; [reflexivity |].
      split; [apply same_settings_refl | apply same_env_refl]. }
  unfold bind at 1.
  (* the trim of a buffer over the threshold *)
  assert (Htrim : exists t1 w1 r1,
             (if Z.of_nat (max_datapoints t) <? len (data_points t) then
                run in_world (w_log "warning" "maximum number of datapoints reached");
                run _save_checkpoint true (Some "-full");
                do t <- self;
                do fraction <- lift (F64.truediv (len (data_points t) - 1) (len (data_points t)));
                _remove_datapoints 0 fraction
              else ret tt) (t, w) = ((t1, w1), r1)
             /\ same_settings t t1 /\ same_env w w1).
  { destruct (Z.of_nat (max_datapoints t) <? len (data_points t)).
    2:{ exists t, w, (Ok tt). split; [reflexivity |].
        split; [apply same_settings_refl | apply same_env_refl]. }
    unfold bind at 1. rewrite w_in_log. unfold bind at 1.
    destruct (save_checkpoint_frame true (Some "-full") t
                (add_log "warning" "maximum number of datapoints reached" w))
      as (t1 & w1 & r1 & E1 & Ht1 & Henv1 & _).
    rewrite E1.
    assert (Henv : same_env w w1)
      by (eapply same_env_trans; [apply same_env_add_log | exact Henv1]).
    destruct r1 as [[] | e].
    2:{ exists t1, w1, (Raise e). split; [reflexivity |].
        split; [apply same_settings_checkpoint; exact Ht1 | exact Henv]. }
    unfold bind at 1, self at 1. unfold bind at 1, lift at 1.
    destruct (F64.truediv _ _) as [q | e].
    2:{ exists t1, w1, (Raise e). split; [reflexivity |].
        split; [apply same_settings_checkpoint; exact Ht1 | exact Henv]. }
    destruct (remove_datapoints_frame 0 q t1 w1) as (dps & w2 & r2 & E2 & Henv2 & _).
    rewrite E2. eexists _, _, _. split; [reflexivity |]. split.
    - eapply same_settings_trans; [apply same_settings_checkpoint; exact Ht1 |].
      apply same_settings_data.
    - eapply same_env_trans; eassumption. }
  destruct Htrim as (t1 & w1 & r1 & E1 & Ht1 & Henv1). rewrite E1.
  destruct r1 as [[] | e].
  2:{ exists t1, w1, (Raise e). split; [reflexivity |]. split; assumption. }
  unfold bind at 1, self at 1. unfold bind at 1, on_track at 1.
  destruct (save_checkpoint_frame false None
              (set_data_points (data_points t1 ++ [preprocess t1 (mk_DataPoint ts data)]) t1) w1)
    as (t3 & w3 & r3 & E3 & Ht3 & Henv3 & _).
  rewrite E3. exists t3, w3, r3. split; [reflexivity |]. split.
  - eapply same_settings_trans; [exact Ht1 |].
    eapply same_settings_trans; [apply same_settings_data |].
    apply same_settings_checkpoint. exact Ht3.
  - eapply same_env_trans; eassumption.
Qed.

(** Whatever it is given and whatever it returns, [add_point] changes
    nothing of the recorder but the buffer and the checkpoint stamp: the
    schema, the modes, the thresholds, the run start index and the
    directories stay as they are. *)
Theorem add_point_keeps_settings ts data (t : Track) (w : world) :
  exists t' w' r,
    add_point ts data (t, w) = ((t', w'), r)
    /\ field_names t' = field_names t /\ mode t' = mode t /\ save_mode t' = save_mode t
    /\ checkpoint_interval t' = checkpoint_interval t
    /\ max_checkpoint_files t' = max_checkpoint_files t
    /\ output_dir t' = output_dir t /\ trim_fraction t' = trim_fraction t
    /\ max_datapoints t' = max_datapoints t /\ preprocessors t' = preprocessors t
    /\ _replay_index t' = _replay_index t
    /\ _save_interval_start t' = _save_interval_start t
    /\ checkpoint_dir t' = checkpoint_dir t.
Proof.
  destruct (add_point_frame ts data t w) as (t' & w' & r & E & Hs & _).
  exists t', w', r. split; [exact E |]. apply same_settings_fields. exact Hs.
Qed.

(** ** [add_point] outside continuous saving *)

Lemma save_checkpoint_noop (force : bool) (sp : option string) (t : Track) (w : world) :
  save_mode t <> "continuous" \/ checkpoint_interval t = None ->
  _save_checkpoint force sp (t, w) = ((t, w), Ok tt).
Proof.
  intros H. unfold _save_checkpoint, bind, self.
  destruct (checkpoint_interval t) as [every |]; [| reflexivity].
  destruct H as [H | H]; [| discriminate].
  destruct (String.eqb_spec (save_mode t) "continuous"); [contradiction | reflexivity].
Qed.

(** Outside ["continuous"] mode (or with no checkpoint interval), an
    [add_point] call that passes the schema check returns and touches no
    file: it only trims the buffer, if over the threshold, and appends. *)
Theorem add_point_without_saving ts data (t : Track) (w : world) :
  save_mode t <> "continuous" \/ checkpoint_interval t = None ->
  schema_ok t data ->
  len (data_points t) < 2 ^ 53 ->
  exists t' w',
    add_point ts data (t, w) = ((t', w'), Ok tt)
    /\ files w' = files w
    /\ data_points t' = kept_after_trim t ++ [preprocess t (mk_DataPoint ts data)]
    /\ _last_checkpoint t' = _last_checkpoint t.
Proof.
  intros Hmode Hschema Hlen. unfold add_point. unfold bind at 1, self at 1.
  assert (Hcheck : (match field_names t with
                    | Some names => if schema_mismatch names data
                                    then raise (ValueError "inconsistent fields") else ret tt
                    | None => ret tt
                    end) (t, w) = ((t, w), Ok tt)).
  { unfold schema_ok in Hschema. destruct (field_names t); [rewrite Hschema |]; reflexivity. }
  unfold bind at 1. rewrite Hcheck. clear Hcheck.
  unfold bind at 1. unfold kept_after_trim.
  destruct (Z.of_nat (max_datapoints t) <? len (data_points t)) eqn:Hover.
  - apply Z.ltb_lt in Hover.
    unfold bind at 1. rewrite w_in_log. unfold bind at 1.
    rewrite save_checkpoint_noop by exact Hmode.
    unfold bind at 1, self at 1.
    destruct (num_to_remove_exact (len (data_points t)) ltac:(lia)) as (q & Eq & Hq).
    unfold bind at 1, lift at 1. rewrite Eq.
    rewrite (remove_datapoints_full t _ q ltac:(lia) Hq).
    unfold bind at 1, self at 1. unfold bind at 1, on_track at 1.
    rewrite save_checkpoint_noop by exact Hmode.
    eexists _, _. split; [reflexivity |]. repeat split.
  - unfold ret at 1. unfold bind at 1, self at 1. unfold bind at 1, on_track at 1.
    rewrite save_checkpoint_noop by exact Hmode.
    eexists _, _. split; [reflexivity |]. repeat split.
Qed.

Lemma add_point_without_saving_witness :
  exists t' w',
    add_point noon [("a", VInt 3)]
      (track_of 1 "on-demand" None [sample 1; sample 2], quiet_world)
    = ((t', w'), Ok tt)
    /\ files w' = files quiet_world
    /\ data_points t'
       = kept_after_trim (track_of 1 "on-demand" None [sample 1; sample 2])
         ++ [preprocess (track_of 1 "on-demand" None [sample 1; sample 2])
               (mk_DataPoint noon [("a", VInt 3)])]
    /\ _last_checkpoint t' = _last_checkpoint (track_of 1 "on-demand" None [sample 1; sample 2]).
Proof.
  apply (add_point_without_saving noon [("a", VInt 3)]
           (track_of 1 "on-demand" None [sample 1; sample 2]) quiet_world).
  - left. discriminate.
  - exact I.
  - vm_compute. reflexivity.
Defined.

(** ** [_remove_datapoints] at the ends of the fraction's range *)

Lemma clamp01_not_positive (f : spec_float) :
  F64.ltb F64.zero f = false -> F64.clamp01 f = F64.zero.
Proof.
  intros H. unfold F64.clamp01, F64.max, F64.min.
  destruct (F64.ltb F64.one f) eqn:H1.
  - exfalso. destruct f as [s | s | | s m e]; try destruct s; cbn in H, H1; congruence.
  - rewrite H. reflexivity.
Qed.

Lemma clamp01_at_least_one (f : spec_float) :
  F64.ltb F64.one f = true \/ f = F64.one -> F64.clamp01 f = F64.one.
Proof.
  intros [H | ->]; unfold F64.clamp01, F64.max, F64.min; [rewrite H |]; reflexivity.
Qed.

Lemma set_data_points_id (t : Track) : set_data_points (data_points t) t = t.
Proof. destruct t; reflexivity. Qed.

(** A fraction that is not above zero (zero, a negative number, NaN)
    removes nothing; a fraction of one or more removes everything from
    [start] (clamped into the buffer) on. *)
Theorem remove_datapoints_at_the_ends (start : Z) (fraction : spec_float)
    (t : Track) (w : world) :
  1 <= len (data_points t) < 2 ^ 53 ->
  (F64.ltb F64.zero fraction = false ->
   _remove_datapoints start fraction (t, w)
   = ((t, add_log "info" "cleared data points" w), Ok tt))
  /\ (F64.ltb F64.one fraction = true \/ fraction = F64.one ->
      _remove_datapoints start fraction (t, w)
      = ((set_data_points
            (take (Z.to_nat (Z.max 0 (Z.min start (len (data_points t) - 1)))) (data_points t))
            t,
          add_log "info" "cleared data points" w), Ok tt)).
Proof.
  intros Hn.
  destruct (of_int_spec _ Hn) as (p & s & _ & _ & _ & _ & Hof).
  assert (Hne : data_points t <> []).
  { intros E. unfold len in Hn. rewrite E in Hn. cbn [length] in Hn. lia. }
  split; intros Hf.
  - unfold _remove_datapoints. unfold bind at 1, self at 1.
    destruct (data_points t) as [| dp dps] eqn:Edp; [contradiction |].
    rewrite <- Edp in Hof, Hn |- *.
    rewrite (clamp01_not_positive _ Hf), Hof.
    unfold bind, lift, on_track, in_world, w_log. cbn [F64.mul SFmul F64.zero F64.to_int].
    rewrite Z.add_0_r.
    set (a := Z.max 0 (Z.min start (len (data_points t) - 1))).
    replace (py_del_slice a (Z.min a (len (data_points t))) (data_points t))
      with (data_points t).
    + rewrite set_data_points_id. reflexivity.
    + unfold py_del_slice, slice_bounds. cbn [from_option].
      fold (len (data_points t)).
      assert (Ha : 0 <= a <= len (data_points t) - 1) by (unfold a; lia).
      unfold clamp_index.
      destruct (Z.ltb_spec a 0); [lia |].
      destruct (Z.ltb_spec (Z.min a (len (data_points t))) 0); [lia |].
      destruct (Z.ltb_spec (Z.min a (len (data_points t)))
                           (Z.min (Z.min a (len (data_points t))) (len (data_points t))));
        [lia | reflexivity].
  - unfold _remove_datapoints. unfold bind at 1, self at 1.
    destruct (data_points t) as [| dp dps] eqn:Edp; [contradiction |].
    rewrite <- Edp in Hof, Hn |- *.
    rewrite (clamp01_at_least_one _ Hf), (mul_one _ Hn), (to_int_of_int (len (data_points t)) ltac:(lia)).
    unfold bind, lift, on_track, in_world, w_log.
    set (a := Z.max 0 (Z.min start (len (data_points t) - 1))).
    replace (py_del_slice a (Z.min (a + len (data_points t)) (len (data_points t)))
                          (data_points t))
      with (take (Z.to_nat a) (data_points t)); [reflexivity |].
    unfold py_del_slice, slice_bounds. cbn [from_option].
    fold (len (data_points t)).
    assert (Ha : 0 <= a <= len (data_points t) - 1) by (unfold a; lia).
    unfold clamp_index.
    destruct (Z.ltb_spec a 0); [lia |].
    destruct (Z.ltb_spec (Z.min (a + len (data_points t)) (len (data_points t))) 0); [lia |].
    rewrite (Z.min_l a) by lia.
    rewrite (Z.min_r (a + len (data_points t))) by lia. rewrite Z.min_id.
    destruct (Z.ltb_spec a (len (data_points t))); [| lia].
    unfold len. rewrite Nat2Z.id, drop_all, app_nil_r. reflexivity.
Qed.

Lemma remove_datapoints_at_the_ends_witness :
  (F64.ltb F64.zero S754_nan = false ->
   _remove_datapoints 0 S754_nan (track_of 5 "continuous" None [sample 1; sample 2], quiet_world)
   = ((track_of 5 "continuous" None [sample 1; sample 2],
       add_log "info" "cleared data points" quiet_world), Ok tt))
  /\ (F64.ltb F64.one S754_nan = true \/ S754_nan = F64.one ->
      _remove_datapoints 0 S754_nan
        (track_of 5 "continuous" None [sample 1; sample 2], quiet_world)
      = ((set_data_points
            (take (Z.to_nat (Z.max 0 (Z.min 0
                     (len (data_points (track_of 5 "continuous" None [sample 1; sample 2])) - 1))))
                  (data_points (track_of 5 "continuous" None [sample 1; sample 2])))
            (track_of 5 "continuous" None [sample 1; sample 2]),
          add_log "info" "cleared data points" quiet_world), Ok tt)).
Proof.
  apply (remove_datapoints_at_the_ends 0 S754_nan
           (track_of 5 "continuous" None [sample 1; sample 2]) quiet_world).
  vm_compute. split; [discriminate | reflexivity].
Defined.

(** ** [start_run] *)

(** The slice [[i, len - 1)] is empty when [i] is [-1] or at least
    [len - 1]. *)
Lemma py_slice_stale_start {A} (i : Z) (l : list A) :
  i = -1 \/ Z.of_nat (length l) - 1 <= i ->
  py_slice (Some i) (Some (Z.of_nat (length l) - 1)) l = [].
Proof.
  intros Hi. unfold py_slice, slice_bounds. cbn [from_option].
  set (n := Z.of_nat (length l)) in *.
  assert (Hn : 0 <= n) by (unfold n; lia). clearbody n.
  replace (Z.to_nat (clamp_index n (n - 1) - clamp_index n i)) with 0%nat;
    [apply take_0 |].
  unfold clamp_index.
  destruct (Z.ltb_spec (n - 1) 0); destruct (Z.ltb_spec i 0); lia.
Qed.

Lemma checkpoint_doc_stale_start (t : Track) (i : Z) :
  _save_interval_start t = Some i ->
  i = -1 \/ len (data_points t) - 1 <= i ->
  checkpoint_doc t = CJson (VList []).
Proof.
  intros Hs Hi. unfold checkpoint_doc. rewrite Hs.
  unfold len in *. rewrite py_slice_stale_start by exact Hi. reflexivity.
Qed.

(** [start_run] in ["on-demand"] mode: the mode, the run start index taken
    before the trim, and a buffer that the trim can only shorten. *)
Lemma start_run_spec (t : Track) (w : world) :
  save_mode t = "on-demand" ->
  exists dps w' r,
    start_run (t, w)
    = ((set_data_points dps
          (set_save_interval_start (Some (len (data_points t) - 1))
             (set_save_mode "continuous" t)), w'), r)
    /\ same_env w w' /\ files w' = files w /\ tick w' = tick w
    /\ (length dps <= length (data_points t))%nat
    /\ (len (data_points t) <= 1 -> dps = data_points t /\ r = Ok tt).
Proof.
  intros Hmode. unfold start_run. unfold bind at 1, self at 1.
  rewrite Hmode. cbn [String.eqb Ascii.eqb Bool.eqb].
  unfold bind at 1, on_track at 1. unfold bind at 1, on_track at 1.
  set (t1 := set_save_interval_start _ (set_save_mode "continuous" t)).
  unfold bind at 1.
  destruct (Z.ltb_spec 0 (len (data_points t) - 1)) as [Hlong | Hshort].
  - destruct (remove_datapoints_frame 0 (trim_fraction t) t1 w)
      as (dps & w1 & r1 & E1 & Henv1 & Hf1 & (i & j & Hij & Hdps) & _).
    rewrite E1.
    assert (Hlen : (length dps <= length (data_points t))%nat).
    { rewrite Hdps. change (data_points t1) with (data_points t).
      rewrite length_app, length_take, length_drop. lia. }
    assert (Htick : tick w1 = tick w).
    { unfold _remove_datapoints, bind, self, lift, on_track, in_world, w_log in E1.
      destruct (data_points t1); [injection E1 as _ <- _; reflexivity |].
      destruct (F64.to_int _); injection E1 as _ <- _; reflexivity. }
    destruct r1 as [[] | e].
    + eexists _, _, _. split; [reflexivity |].
      split; [eapply same_env_trans; [exact Henv1 | apply same_env_add_log] |].
      split; [exact Hf1 |]. split; [exact Htick |]. split; [exact Hlen | lia].
    + eexists _, _, _. split; [reflexivity |].
      split; [exact Henv1 |]. split; [exact Hf1 |]. split; [exact Htick |].
      split; [exact Hlen | lia].
  - exists (data_points t), (add_log "info" "logging data" w), (Ok tt).
    change (data_points t) with (data_points t1) at 1. rewrite set_data_points_id.
    split; [reflexivity |]. split; [apply same_env_add_log |].
    split; [reflexivity |]. split; [reflexivity |]. split; [lia | auto].
Qed.

(** With the default [trim_fraction] (0.5), [start_run] in ["on-demand"]
    mode on [n >= 2] samples returns, drops the first [n // 2] samples,
    switches to ["continuous"] and records the run start index [n - 1], an
    index of the buffer before the trim. *)
Theorem start_run_with_default_trim (t : Track) (w : world) :
  save_mode t = "on-demand" ->
  trim_fraction t = default_trim_fraction ->
  2 <= len (data_points t) < 2 ^ 53 ->
  start_run (t, w)
  = ((set_data_points (drop (Z.to_nat (len (data_points t) / 2)) (data_points t))
        (set_save_interval_start (Some (len (data_points t) - 1))
           (set_save_mode "continuous" t)),
      add_log "info" "logging data" (add_log "info" "cleared data points" w)),
     Ok tt).
Proof.
  intros Hmode Htrim Hn. unfold start_run. unfold bind at 1, self at 1.
  rewrite Hmode. cbn [String.eqb Ascii.eqb Bool.eqb].
  unfold bind at 1, on_track at 1. unfold bind at 1, on_track at 1.
  set (t1 := set_save_interval_start _ (set_save_mode "continuous" t)).
  unfold bind at 1.
  destruct (Z.ltb_spec 0 (len (data_points t) - 1)) as [_ | Hshort]; [| lia].
  unfold _remove_datapoints. unfold bind at 1, self at 1.
  change (data_points t1) with (data_points t).
  destruct (data_points t) as [| dp dps] eqn:Edp;
    [unfold len in Hn; cbn [length] in Hn; lia |].
  rewrite <- Edp in Hn |- *. rewrite Htrim.
  change (F64.clamp01 default_trim_fraction) with default_trim_fraction.
  rewrite (int_mul_half (len (data_points t)) ltac:(lia)).
  unfold bind, lift, on_track, in_world, w_log.
  assert (Hhalf : 0 <= len (data_points t) / 2 <= len (data_points t)).
  { split; [apply Z.div_pos; lia |]. apply Z.div_le_upper_bound; lia. }
  rewrite (Z.min_l 0) by lia. rewrite (Z.max_l 0 0) by lia. rewrite Z.add_0_l.
  rewrite (Z.min_l (len (data_points t) / 2)) by lia.
  rewrite py_del_slice_front by (unfold len in Hhalf; exact Hhalf).
  reflexivity.
Qed.

Lemma start_run_with_default_trim_witness :
  start_run (track_of 5 "on-demand" None [sample 1; sample 2; sample 3], quiet_world)
  = ((set_data_points
        (drop (Z.to_nat (len (data_points (track_of 5 "on-demand" None
                                            [sample 1; sample 2; sample 3])) / 2))
              (data_points (track_of 5 "on-demand" None [sample 1; sample 2; sample 3])))
        (set_save_interval_start
           (Some (len (data_points (track_of 5 "on-demand" None
                                       [sample 1; sample 2; sample 3])) - 1))
           (set_save_mode "continuous"
              (track_of 5 "on-demand" None [sample 1; sample 2; sample 3]))),
      add_log "info" "logging data" (add_log "info" "cleared data points" quiet_world)),
     Ok tt).
Proof.
  apply (start_run_with_default_trim
           (track_of 5 "on-demand" None [sample 1; sample 2; sample 3]) quiet_world).
  - reflexivity.
  - reflexivity.
  - vm_compute. split; [discriminate | reflexivity].
Defined.

(** [start_run] followed at once by [end_run]: the final export is written
    and holds no sample, whatever the buffer held. *)
Theorem start_run_then_end_run_exports_nothing (t t1 : Track) (w w1 : world) :
  save_mode t = "on-demand" ->
  start_run (t, w) = ((t1, w1), Ok tt) ->
  output_dir t <> checkpoint_dir t ->
  (output_dir t, strftime (clock w (tick w)) +:+ "." +:+ "json") ∉ unwritable w ->
  exists t2 w2 r,
    end_run (t1, w1) = ((t2, w2), r)
    /\ f_content <$> files w2 !! (output_dir t, strftime (clock w (tick w)) +:+ "." +:+ "json")
       = Some (CJson (VList [])).
Proof.
  intros Hmode E Hdir Hw.
  destruct (start_run_spec t w Hmode)
    as (dps & w' & r & E' & (Hu & _ & Hc) & _ & Htick & Hlen & _).
  rewrite E in E'. injection E' as -> <- <-.
  destruct (end_run_export
              (set_data_points dps
                 (set_save_interval_start (Some (len (data_points t) - 1))
                    (set_save_mode "continuous" t))) w1)
    as (t2 & w2 & r2 & E2 & Hfile).
  - discriminate.
  - exact Hdir.
  - cbn [output_dir set_data_points set_save_interval_start set_save_mode].
    rewrite Hc, Htick, Hu. exact Hw.
  - exists t2, w2, r2. split; [exact E2 |].
    cbn [output_dir set_data_points set_save_interval_start set_save_mode] in Hfile.
    rewrite Hc, Htick in Hfile. rewrite Hfile. f_equal.
    apply (checkpoint_doc_stale_start _ (len (data_points t) - 1)); [reflexivity |].
    cbn [data_points set_data_points]. unfold len. lia.
Qed.

Lemma start_run_then_end_run_exports_nothing_witness :
  exists t2 w2 r,
    end_run (start_run (track_of 5 "on-demand" None [sample 1; sample 2; sample 3],
                        quiet_world)).1
    = ((t2, w2), r)
    /\ f_content <$> files w2 !! ("data", "20240102-120000.json")
       = Some (CJson (VList [])).
Proof.
  apply (start_run_then_end_run_exports_nothing
           (track_of 5 "on-demand" None [sample 1; sample 2; sample 3])
           (start_run (track_of 5 "on-demand" None [sample 1; sample 2; sample 3],
                       quiet_world)).1.1
           quiet_world
           (start_run (track_of 5 "on-demand" None [sample 1; sample 2; sample 3],
                       quiet_world)).1.2).
  - reflexivity.
  - vm_compute. reflexivity.
  - discriminate.
  - cbn. set_solver.
Defined.

(** ** A run started on an empty buffer *)

Lemma states_after_settings (calls : list (datetime * list (string * pyval)))
    (s0 s : Track * world) :
  s ∈ states_after calls s0 -> same_settings (fst s0) (fst s).
Proof.
  revert s0. induction calls as [| [ts data] calls IH]; intros [t0 w0]; cbn [states_after].
  - intros H. apply elem_of_nil in H. contradiction.
  - destruct (add_point_frame ts data t0 w0) as (t' & w' & r & E & Hs & _).
    rewrite E. cbn [fst]. intros H. apply elem_of_cons in H as [-> | H].
    + exact Hs.
    + eapply same_settings_trans; [exact Hs |]. apply (IH (t', w')). exact H.
Qed.

(** [start_run] on an empty buffer records the run start index [-1]. From
    then on, whatever is added, the slice handed to every checkpoint and to
    the final export is empty. *)
Theorem start_run_on_empty_buffer (t : Track) (w : world)
    (calls : list (datetime * list (string * pyval))) :
  save_mode t = "on-demand" ->
  data_points t = [] ->
  start_run (t, w)
  = ((set_save_interval_start (Some (-1)) (set_save_mode "continuous" t),
      add_log "info" "logging data" w), Ok tt)
  /\ forall s, s ∈ states_after calls (fst (start_run (t, w))) ->
       save_mode (fst s) = "continuous"
       /\ checkpoint_doc (fst s) = CJson (VList []).
Proof.
  intros Hmode Hdp.
  assert (E : start_run (t, w)
              = ((set_save_interval_start (Some (-1)) (set_save_mode "continuous" t),
                  add_log "info" "logging data" w), Ok tt)).
  { unfold start_run, bind, self, on_track. rewrite Hmode, Hdp. reflexivity. }
  split; [exact E |]. rewrite E. cbn [fst]. intros s Hs.
  apply states_after_settings in Hs. cbn [fst] in Hs.
  apply same_settings_fields in Hs as (_ & _ & Hsm & _ & _ & _ & _ & _ & _ & _ & Hst & _).
  split; [rewrite Hsm; reflexivity |].
  apply (checkpoint_doc_stale_start _ (-1)); [rewrite Hst; reflexivity | left; reflexivity].
Qed.

Lemma start_run_on_empty_buffer_witness :
  start_run (track_of 5 "on-demand" None [], quiet_world)
  = ((set_save_interval_start (Some (-1))
        (set_save_mode "continuous" (track_of 5 "on-demand" None [])),
      add_log "info" "logging data" quiet_world), Ok tt)
  /\ forall s,
       s ∈ states_after [(noon, [("a", VInt 1)]); (noon, [("a", VInt 2)])]
             (fst (start_run (track_of 5 "on-demand" None [], quiet_world))) ->
       save_mode (fst s) = "continuous"
       /\ checkpoint_doc (fst s) = CJson (VList []).
Proof.
  apply (start_run_on_empty_buffer (track_of 5 "on-demand" None []) quiet_world).
  - reflexivity.
  - reflexivity.
Defined.

(** ** Globbing a directory *)

Lemma glob_glob_elem_of (d suf n : string) (f : file) (w : world) :
  (n, f) ∈ glob_glob d suf w
  <-> files w !! (d, n) = Some f /\ ends_with suf n = true /\ String.prefix "." n = false.
Proof.
  unfold glob_glob. rewrite list_elem_of_filter. split.
  - intros [[H1 H2] Hin]. split; [apply listdir_lookup; exact Hin | auto].
  - intros (Hf & H1 & H2). split; [auto | apply listdir_elem_of; exact Hf].
Qed.

(** ** The cleanup of [end_run] *)

(** A deletion loop that returns has deleted every file of its list and no
    other. *)
Lemma remove_loop_ok (d : string) (l : list (string * file)) (t : Track) (w w' : world)
    (t' : Track) :
  for_each l (fun '(n, _) => in_world (w_remove (d, n))) (t, w) = ((t', w'), Ok tt) ->
  t' = t /\ same_env w w' /\ log w' = log w /\ tick w' = tick w
  /\ forall p, files w' !! p
               = if bool_decide (p ∈ map (fun nf => (d, fst nf)) l) then None
                 else files w !! p.
Proof.
  revert w. induction l as [| [n f] l IH]; intros w E.
  - cbn in E. injection E as <- <-. split; [reflexivity |].
    split; [apply same_env_refl |]. split; [reflexivity |]. split; [reflexivity |].
    intros p. rewrite bool_decide_eq_false_2 by apply not_elem_of_nil. reflexivity.
  - cbn [for_each] in E. unfold bind at 1, in_world at 1, w_remove at 1 in E.
    destruct (files w !! (d, n)) as [f' |] eqn:Ef; [| discriminate].
    case_bool_decide as Hdel; [discriminate |].
    apply IH in E as (-> & Henv & Hlog & Htick & Hfiles).
    split; [reflexivity |]. split.
    { destruct Henv as (a & b & c). repeat split; assumption. }
    split; [exact Hlog |]. split; [exact Htick |].
    intros p. rewrite Hfiles. cbn [map fst files set_files].
    destruct (decide (p = (d, n))) as [-> | Hne].
    + rewrite (bool_decide_eq_true_2 (_ ∈ _ :: _)) by left.
      rewrite lookup_delete_eq. destruct (bool_decide _); reflexivity.
    + rewrite lookup_delete_ne by congruence.
      destruct (bool_decide (p ∈ map (fun nf => (d, fst nf)) l)) eqn:Hb.
      * apply bool_decide_eq_true in Hb.
        rewrite bool_decide_eq_true_2 by (right; exact Hb). reflexivity.
      * apply bool_decide_eq_false in Hb.
        rewrite bool_decide_eq_false_2; [reflexivity |].
        intros H. apply elem_of_cons in H as [H | H]; [congruence | contradiction].
Qed.

(** An [end_run] that returns (from any mode but ["on-demand"], by a
    recorder whose checkpoint directory holds no glob metacharacter) leaves
    the recorder in ["on-demand"] mode with its cursors cleared and the
    buffer as it was; no visible checkpoint file other than the [-full]
    ones is left in the checkpoint directory, and every other file but the
    export it writes is as before. *)
Theorem end_run_cleans_up (t t' : Track) (w w' : world) :
  has_magic (checkpoint_dir t) = false ->
  save_mode t <> "on-demand" ->
  end_run (t, w) = ((t', w'), Ok tt) ->
  t' = set_save_mode "on-demand" (set_last_checkpoint None (set_save_interval_start None t))
  /\ (forall n, ends_with ".chk.json" n = true -> String.prefix "." n = false ->
                is_full n = false ->
                files w' !! (checkpoint_dir t, n) = None)
  /\ (forall p,
        p <> (output_dir t, strftime (clock w (tick w)) +:+ "." +:+ "json") ->
        fst p <> checkpoint_dir t \/ ends_with ".chk.json" (snd p) = false
        \/ String.prefix "." (snd p) = true \/ is_full (snd p) = true ->
        files w' !! p = files w !! p).
Proof.
  intros _ Hmode E. unfold end_run in E. unfold bind at 1, self at 1 in E.
  destruct (String.eqb_spec (save_mode t) "on-demand") as [| _]; [contradiction |].
  cbn [negb] in E. unfold bind at 1 in E.
  destruct (save_default_spec
              (mk_slice (_save_interval_start t) (Some (len (data_points t) - 1))) t w)
    as (w1 & E1 & Henv1 & Hf1).
  rewrite E1 in E. unfold bind at 1, get at 1 in E. cbn [snd] in E.
  unfold bind at 1 in E.
  set (L := filter (fun '(n, _) => is_full n = false)
                   (glob_glob (checkpoint_dir t) ".chk.json" w1)) in E.
  destruct (for_each L _ (t, w1)) as [[t2 w2] r2] eqn:E2.
  destruct r2 as [[] | e]; [| discriminate].
  apply remove_loop_ok in E2 as (-> & _ & _ & _ & Hfiles).
  unfold bind, on_track, in_world, w_log in E. injection E as <- <-.
  split; [reflexivity |]. cbn [files].
  assert (HL : forall n f, (n, f) ∈ L
                 <-> files w1 !! (checkpoint_dir t, n) = Some f
                     /\ ends_with ".chk.json" n = true /\ String.prefix "." n = false
                     /\ is_full n = false).
  { intros n f. unfold L. rewrite list_elem_of_filter, glob_glob_elem_of. tauto. }
  split.
  - intros n Hend Hvis Hfull. rewrite Hfiles.
    destruct (decide ((checkpoint_dir t, n)
                        ∈ map (fun nf : string * file => (checkpoint_dir t, fst nf)) L))
      as [Hin | Hin].
    + rewrite bool_decide_eq_true_2 by exact Hin. reflexivity.
    + rewrite bool_decide_eq_false_2 by exact Hin.
      destruct (files w1 !! (checkpoint_dir t, n)) as [f |] eqn:Ef; [| reflexivity].
      exfalso. apply Hin. apply list_elem_of_fmap. exists (n, f).
      split; [reflexivity |]. apply HL. auto.
  - intros p Hp Hkeep. rewrite Hfiles.
    rewrite bool_decide_eq_false_2.
    + destruct (bool_decide _); rewrite Hf1; [reflexivity |].
      apply lookup_insert_ne. congruence.
    + intros Hin. apply list_elem_of_fmap in Hin as ([n f] & -> & Hin).
      apply HL in Hin as (_ & Hend & Hvis & Hfull). cbn [fst snd] in Hkeep.
      destruct Hkeep as [H | [H | [H | H]]]; congruence.
Qed.

Lemma end_run_cleans_up_witness :
  (end_run (track_of 5 "continuous" None [sample 1], checkpoint_world)).1.1
  = set_save_mode "on-demand"
      (set_last_checkpoint None
         (set_save_interval_start None (track_of 5 "continuous" None [sample 1])))
  /\ (forall n, ends_with ".chk.json" n = true -> String.prefix "." n = false ->
                is_full n = false ->
                files (end_run (track_of 5 "continuous" None [sample 1], checkpoint_world)).1.2
                  !! (checkpoint_dir (track_of 5 "continuous" None [sample 1]), n) = None)
  /\ (forall p,
        p <> (output_dir (track_of 5 "continuous" None [sample 1]),
              strftime (clock checkpoint_world (tick checkpoint_world)) +:+ "." +:+ "json") ->
        fst p <> checkpoint_dir (track_of 5 "continuous" None [sample 1])
        \/ ends_with ".chk.json" (snd p) = false
        \/ String.prefix "." (snd p) = true \/ is_full (snd p) = true ->
        files (end_run (track_of 5 "continuous" None [sample 1], checkpoint_world)).1.2 !! p
        = files checkpoint_world !! p).
Proof.
  apply (end_run_cleans_up (track_of 5 "continuous" None [sample 1]) _ checkpoint_world).
  - reflexivity.
  - discriminate.
  - vm_compute. reflexivity.
Defined.

(** ** Checkpoint retention *)











(** ** [DataPoint.to_dict] *)

Lemma fold_dict_set_get {V} (k : string) (l acc : list (string * V)) :
  NoDup (dict_keys l) ->
  dict_get k (fold_left (fun d '(k, v) => dict_set k v d) l acc)
  = match dict_get k l with
    | Some v => Some v
    | None => dict_get k acc
    end.
Proof.
  revert acc. induction l as [| [k0 v0] l IH]; intros acc Hnd; cbn [fold_left dict_get].
  - reflexivity.
  - cbn [dict_keys map fst] in Hnd. apply NoDup_cons in Hnd as [Hfresh Hnd].
    rewrite IH by exact Hnd.
    rewrite dict_get_set. destruct (String.eqb_spec k k0) as [-> | Hne].
    + rewrite (proj2 (dict_get_None k0 l) Hfresh). reflexivity.
    + reflexivity.
Qed.

(** [to_dict] gives every field of the sample, and the ISO timestamp under
    ["timestamp"] unless the sample has a field of that name, which then
    takes its place. *)
Theorem to_dict_lookup (dp : DataPoint) (k : string) :
  NoDup (dict_keys (input_data dp)) ->
  dict_get k (to_dict dp)
  = match dict_get k (input_data dp) with
    | Some v => Some v
    | None => if String.eqb k "timestamp"
              then Some (VStr (isoformat "T" (timestamp dp))) else None
    end.
Proof.
  intros Hnd. unfold to_dict. rewrite fold_dict_set_get by exact Hnd.
  destruct (dict_get k (input_data dp)); [reflexivity |].
  cbn [dict_get]. destruct (String.eqb k "timestamp"); reflexivity.
Qed.

Lemma to_dict_lookup_witness :
  dict_get "timestamp" (to_dict (mk_DataPoint noon [("timestamp", VInt 7)]))
  = match dict_get "timestamp" (input_data (mk_DataPoint noon [("timestamp", VInt 7)])) with
    | Some v => Some v
    | None => if String.eqb "timestamp" "timestamp"
              then Some (VStr (isoformat "T" (timestamp (mk_DataPoint noon [("timestamp", VInt 7)]))))
              else None
    end.
Proof.
  apply (to_dict_lookup (mk_DataPoint noon [("timestamp", VInt 7)]) "timestamp").
  cbn. repeat constructor. apply not_elem_of_nil.
Defined.

(** ** The CSV exporter *)

(** With no field names and nothing selected there is no first sample to
    take the header from: [IndexError], before the file is opened. *)
Theorem export_to_csv_nothing_selected (dps : list DataPoint) (p : string * string)
    (interval : option slice) (names : option (list string)) (w : world) :
  select interval dps = [] ->
  names = None \/ names = Some [] ->
  export_to_csv (Some dps) p interval names w = (w, Raise IndexError).
Proof.
  intros Hsel Hnames. unfold export_to_csv, bind. rewrite Hsel.
  destruct Hnames as [-> | ->]; reflexivity.
Qed.

Lemma export_to_csv_nothing_selected_witness :
  export_to_csv (Some [sample 1]) ("data", "run.csv") (Some (mk_slice (Some 0) (Some 0)))
                None quiet_world
  = (quiet_world, Raise IndexError).
Proof.
  apply (export_to_csv_nothing_selected [sample 1] ("data", "run.csv")
           (Some (mk_slice (Some 0) (Some 0))) None quiet_world).
  - reflexivity.
  - left. reflexivity.
Defined.

Lemma csv_row_ok (header : list string) (row : list (string * pyval)) :
  (forall k, k ∈ dict_keys row -> k ∈ header) ->
  exists r, csv_row header row = Ok r /\ length r = length header.
Proof.
  intros Hk. unfold csv_row.
  replace (forallb _ _) with true.
  - eexists. split; [reflexivity |]. apply length_map.
  - symmetry. apply forallb_forall. intros k Hin.
    apply bool_decide_eq_true. apply Hk. apply list_elem_of_In. exact Hin.
Qed.

Lemma csv_row_bad (header : list string) (row : list (string * pyval)) (k : string) :
  k ∈ dict_keys row -> k ∉ header ->
  csv_row header row = Raise (ValueError "dict contains fields not in fieldnames").
Proof.
  intros Hin Hout. unfold csv_row.
  replace (forallb _ _) with false; [reflexivity |].
  symmetry. apply not_true_is_false. intros H.
  rewrite forallb_forall in H. specialize (H k (proj1 (list_elem_of_In _ _) Hin)).
  apply bool_decide_eq_true in H. contradiction.
Qed.

Lemma fold_dict_set_all_keys {V} (k : string) (l acc : list (string * V)) :
  k ∈ dict_keys (fold_left (fun d '(k, v) => dict_set k v d) l acc)
  <-> k ∈ dict_keys acc \/ k ∈ dict_keys l.
Proof.
  revert acc. induction l as [| [k0 v0] l IH]; intros acc; cbn [fold_left].
  - cbn. rewrite elem_of_nil. tauto.
  - rewrite IH, dict_keys_set. cbn [dict_keys map fst]. rewrite elem_of_cons. tauto.
Qed.

(** The keys of the row built for a sample: ["timestamp"] and the sample's
    fields. *)
Lemma csv_row_keys (dp : DataPoint) (k : string) :
  k ∈ dict_keys (fold_left (fun d '(k, v) => dict_set k v d) (input_data dp)
                   [("timestamp", VStr (isoformat "T" (timestamp dp)))])
  <-> k = "timestamp" \/ k ∈ dict_keys (input_data dp).
Proof.
  rewrite fold_dict_set_all_keys. cbn [dict_keys map fst].
  rewrite list_elem_of_singleton. reflexivity.
Qed.

(** When every field of every selected sample is a column, the export
    writes one row per sample, each as wide as the header. *)
Lemma csv_rows_ok (header : list string) (dps : list DataPoint) :
  (forall dp k, dp ∈ dps -> k ∈ dict_keys (input_data dp) -> k ∈ header) ->
  "timestamp" ∈ header ->
  exists rows,
    csv_rows header dps = (rows, None)
    /\ length rows = length dps
    /\ Forall (fun r => length r = length header) rows.
Proof.
  intros Hk Hts. induction dps as [| dp dps IH]; cbn [csv_rows].
  - exists []. split; [reflexivity |]. split; [reflexivity | constructor].
  - destruct (csv_row_ok header
                (fold_left (fun d '(k, v) => dict_set k v d) (input_data dp)
                   [("timestamp", VStr (isoformat "T" (timestamp dp)))]))
      as (r & Er & Hr).
    { intros k Hin. apply csv_row_keys in Hin as [-> | Hin]; [exact Hts |].
      apply (Hk dp); [left | exact Hin]. }
    rewrite Er. destruct IH as (rows & E & Hlen & Hall).
    { intros dp' k Hdp. apply Hk. right. exact Hdp. }
    rewrite E. exists (r :: rows). split; [reflexivity |].
    split; [cbn [length]; rewrite Hlen; reflexivity |]. constructor; assumption.
Qed.

(** The rows written before the first sample with a field outside the
    header, and the error it raises. *)
Lemma csv_rows_bad (header : list string) (good : list DataPoint) (bad : DataPoint)
    (rest : list DataPoint) (k : string) :
  (forall dp k, dp ∈ good -> k ∈ dict_keys (input_data dp) -> k ∈ header) ->
  "timestamp" ∈ header ->
  k ∈ dict_keys (input_data bad) -> k ∉ header ->
  exists rows,
    csv_rows header (good ++ bad :: rest)
    = (rows, Some (ValueError "dict contains fields not in fieldnames"))
    /\ length rows = length good.
Proof.
  intros Hk Hts Hin Hout. induction good as [| dp good IH]; cbn [app csv_rows].
  - rewrite (csv_row_bad header _ k); [| apply csv_row_keys; right; exact Hin | exact Hout].
    exists []. split; reflexivity.
  - destruct (csv_row_ok header
                (fold_left (fun d '(k, v) => dict_set k v d) (input_data dp)
                   [("timestamp", VStr (isoformat "T" (timestamp dp)))]))
      as (r & Er & Hr).
    { intros k' Hin'. apply csv_row_keys in Hin' as [-> | Hin']; [exact Hts |].
      apply (Hk dp); [left | exact Hin']. }
    rewrite Er. destruct IH as (rows & E & Hlen).
    { intros dp' k' Hdp. apply Hk. right. exact Hdp. }
    rewrite E. exists (r :: rows). split; [reflexivity |].
    cbn [length]. rewrite Hlen. reflexivity.
Qed.

(** The header of the CSV file: ["timestamp"], then the given field names
    or, without any, the fields of the first selected sample. *)
Theorem export_to_csv_rows (dps : list DataPoint) (p : string * string)
    (interval : option slice) (names : option (list string)) (w : world)
    (dp : DataPoint) (rest : list DataPoint) :
  select interval dps = dp :: rest ->
  p ∉ unwritable w ->
  (forall x k, x ∈ dp :: rest -> k ∈ dict_keys (input_data x) ->
               k ∈ match names with
                   | Some (f :: fs) => f :: fs
                   | _ => dict_keys (input_data dp)
                   end) ->
  exists rows w',
    export_to_csv (Some dps) p interval names w = (w', Ok tt)
    /\ f_content <$> files w' !! p
       = Some (CCsv ("timestamp" :: match names with
                                    | Some (f :: fs) => f :: fs
                                    | _ => dict_keys (input_data dp)
                                    end) rows)
    /\ length rows = length (dp :: rest)
    /\ Forall (fun r => length r
                        = S (length match names with
                                    | Some (f :: fs) => f :: fs
                                    | _ => dict_keys (input_data dp)
                                    end)) rows.
Proof.
  intros Hsel Hw Hk. unfold export_to_csv. rewrite Hsel. unfold bind at 1.
  set (fields := match names with
                 | Some (f :: fs) => f :: fs
                 | _ => dict_keys (input_data dp)
                 end) in *.
  assert (Hnames : (match names with
                    | Some (f :: fs) => ret (f :: fs)
                    | _ => ret (dict_keys (input_data dp))
                    end) w = (w, Ok fields)).
  { unfold fields. destruct names as [[| f fs] |]; reflexivity. }
  rewrite Hnames.
  destruct (csv_rows_ok ("timestamp" :: fields) (dp :: rest)) as (rows & E & Hlen & Hall).
  { intros x k Hx Hin. right. eapply Hk; eassumption. }
  { left. }
  rewrite E. unfold bind. rewrite w_write_spec.
  rewrite bool_decide_eq_false_2 by exact Hw.
  eexists rows, _. split; [reflexivity |]. cbn [files set_files].
  rewrite lookup_insert_eq. split; [reflexivity |]. split; [exact Hlen | exact Hall].
Qed.

Lemma export_to_csv_rows_witness :
  exists rows w',
    export_to_csv (Some [sample 1; sample 2]) ("data", "run.csv") None None quiet_world
    = (w', Ok tt)
    /\ f_content <$> files w' !! ("data", "run.csv")
       = Some (CCsv ("timestamp" :: dict_keys (input_data (sample 1))) rows)
    /\ length rows = length [sample 1; sample 2]
    /\ Forall (fun r => length r = S (length (dict_keys (input_data (sample 1))))) rows.
Proof.
  apply (export_to_csv_rows [sample 1; sample 2] ("data", "run.csv") None None quiet_world
           (sample 1) [sample 2]).
  - reflexivity.
  - cbn. set_solver.
  - intros x k Hx Hin. cbn.
    apply elem_of_cons in Hx as [-> | Hx]; [exact Hin |].
    apply list_elem_of_singleton in Hx as ->. exact Hin.
Defined.

(** A sample with a field that is no column stops the CSV export with a
    [ValueError]; the file is left holding the header and the rows of the
    samples before it. *)
Theorem export_to_csv_stops_at_unknown_field (dps : list DataPoint) (p : string * string)
    (interval : option slice) (names : option (list string)) (w : world)
    (dp : DataPoint) (good : list DataPoint) (bad : DataPoint) (rest : list DataPoint)
    (k : string) :
  select interval dps = dp :: good ++ bad :: rest ->
  p ∉ unwritable w ->
  (forall x k, x ∈ dp :: good -> k ∈ dict_keys (input_data x) ->
               k ∈ match names with
                   | Some (f :: fs) => f :: fs
                   | _ => dict_keys (input_data dp)
                   end) ->
  k ∈ dict_keys (input_data bad) ->
  k <> "timestamp" ->
  k ∉ match names with
      | Some (f :: fs) => f :: fs
      | _ => dict_keys (input_data dp)
      end ->
  exists rows w',
    export_to_csv (Some dps) p interval names w
    = (w', Raise (ValueError "dict contains fields not in fieldnames"))
    /\ f_content <$> files w' !! p
       = Some (CCsv ("timestamp" :: match names with
                                    | Some (f :: fs) => f :: fs
                                    | _ => dict_keys (input_data dp)
                                    end) rows)
    /\ length rows = S (length good).
Proof.
  intros Hsel Hw Hk Hin Hts Hout. unfold export_to_csv. rewrite Hsel. unfold bind at 1.
  set (fields := match names with
                 | Some (f :: fs) => f :: fs
                 | _ => dict_keys (input_data dp)
                 end) in *.
  assert (Hnames : (match names with
                    | Some (f :: fs) => ret (f :: fs)
                    | _ => ret (dict_keys (input_data dp))
                    end) w = (w, Ok fields)).
  { unfold fields. destruct names as [[| f fs] |]; reflexivity. }
  rewrite Hnames.
  destruct (csv_rows_bad ("timestamp" :: fields) (dp :: good) bad rest k)
    as (rows & E & Hlen).
  { intros x k' Hx Hin'. right. eapply Hk; eassumption. }
  { left. }
  { exact Hin. }
  { intros H. apply elem_of_cons in H as [H | H]; contradiction. }
  change ((dp :: good) ++ bad :: rest) with (dp :: good ++ bad :: rest) in E.
  rewrite E. unfold bind. rewrite w_write_spec.
  rewrite bool_decide_eq_false_2 by exact Hw.
  eexists rows, _. split; [reflexivity |]. cbn [files set_files].
  rewrite lookup_insert_eq. split; [reflexivity | exact Hlen].
Qed.

Lemma export_to_csv_stops_at_unknown_field_witness :
  exists rows w',
    export_to_csv (Some [sample 1; mk_DataPoint noon [("b", VInt 2)]]) ("data", "run.csv")
                  None None quiet_world
    = (w', Raise (ValueError "dict contains fields not in fieldnames"))
    /\ f_content <$> files w' !! ("data", "run.csv")
       = Some (CCsv ("timestamp" :: dict_keys (input_data (sample 1))) rows)
    /\ length rows = S (length (@nil DataPoint)).
Proof.
  apply (export_to_csv_stops_at_unknown_field
           [sample 1; mk_DataPoint noon [("b", VInt 2)]] ("data", "run.csv") None None
           quiet_world (sample 1) [] (mk_DataPoint noon [("b", VInt 2)]) [] "b").
  - reflexivity.
  - cbn. set_solver.
  - intros x k Hx Hin. cbn. apply list_elem_of_singleton in Hx as ->. exact Hin.
  - cbn. left.
  - discriminate.
  - cbn. intros H. apply list_elem_of_singleton in H. discriminate.
Defined.

(** ** Replay *)

Lemma py_slice_prefix {A : Type} (i : Z) (l : list A) :
  0 <= i -> py_slice None (Some i) l = take (Z.to_nat i) l.
Proof.
  intros Hi. unfold py_slice, slice_bounds, clamp_index. cbn [from_option].
  destruct (Z.ltb_spec i 0) as [Hneg | _]; [lia |].
  rewrite drop_0, Z.sub_0_r.
  destruct (Z.le_gt_cases i (Z.of_nat (length l))) as [Hle | Hgt].
  - rewrite Z.min_l by exact Hle. reflexivity.
  - rewrite Z.min_r by lia. rewrite Nat2Z.id.
    rewrite !take_ge by lia. reflexivity.
Qed.

(** One call in replay mode on a non-empty buffer. *)
Lemma get_current_replay_step (t : Track) (w : world) :
  mode t = "replay"%string -> data_points t <> [] -> 0 <= _replay_index t ->
  exists w' v,
    get_current (t, w)
    = ((set_replay_index (Z.min (_replay_index t + 1) (len (data_points t))) t, w'),
       Ok (Some v))
    /\ files w' = files w
    /\ data_points v
       = take (Z.to_nat (Z.min (_replay_index t + 1) (len (data_points t)))) (data_points t)
    /\ field_names v = field_names t
    /\ mode v = "live"%string.
Proof.
  intros Hmode Hne Hidx. unfold get_current, bind, self. rewrite Hmode.
  cbn [String.eqb Ascii.eqb Bool.eqb].
  unfold _get_replay_track, bind, self.
  destruct (data_points t) as [| dp dps] eqn:Edp; [congruence |].
  rewrite <- Edp.
  unfold on_track, in_world, Track_init, bind, w_log, ret.
  cbn [set_replay_index _replay_index data_points field_names].
  eexists _, _. split; [reflexivity |].
  cbn [files set_data_points set_field_names data_points field_names mode].
  split; [reflexivity |]. split; [| split; reflexivity].
  apply py_slice_prefix. unfold len. lia.
Qed.

Lemma get_current_again_spec (k : nat) (t : Track) (w : world) :
  mode t = "replay"%string -> data_points t <> [] -> 0 <= _replay_index t ->
  exists t' w' v,
    get_current_again k (t, w) = ((t', w'), Ok (Some v))
    /\ data_points v
       = take (Z.to_nat (Z.min (_replay_index t + Z.of_nat k + 1) (len (data_points t))))
              (data_points t)
    /\ field_names v = field_names t /\ mode v = "live"%string
    /\ t' = set_replay_index (Z.min (_replay_index t + Z.of_nat k + 1) (len (data_points t))) t
    /\ files w' = files w.
Proof.
  revert t w. induction k as [| k IH]; intros t w Hmode Hne Hidx.
  - destruct (get_current_replay_step t w Hmode Hne Hidx) as (w' & v & E & Hf & Hd & Hn & Hm).
    eexists _, w', v. cbn [get_current_again]. rewrite E.
    change (Z.of_nat 0) with 0. rewrite Z.add_0_r.
    split; [reflexivity |]. repeat split; assumption.
  - destruct (get_current_replay_step t w Hmode Hne Hidx) as (w1 & v1 & E & Hf & _).
    cbn [get_current_again]. unfold bind at 1. rewrite E.
    set (t1 := set_replay_index (Z.min (_replay_index t + 1) (len (data_points t))) t).
    assert (Hlen : 0 < len (data_points t)).
    { unfold len. destruct (data_points t); [congruence | cbn [length]; lia]. }
    destruct (IH t1 w1) as (t' & w' & v & E' & Hd & Hn & Hm & Ht & Hf');
      [exact Hmode | exact Hne | cbn [t1 set_replay_index _replay_index]; lia |].
    exists t', w', v. split; [exact E' |].
    cbn [t1 set_replay_index _replay_index data_points field_names] in Hd, Hn, Ht.
    assert (Hmin : Z.min (Z.min (_replay_index t + 1) (len (data_points t)) + Z.of_nat k + 1)
                         (len (data_points t))
                   = Z.min (_replay_index t + Z.of_nat (S k) + 1) (len (data_points t))) by lia.
    rewrite Hmin in Hd, Ht.
    split; [exact Hd |]. split; [exact Hn |]. split; [exact Hm |].
    split; [rewrite Ht; reflexivity | congruence].
Qed.

(** In replay mode each call of [get_current] reveals one more sample of
    the buffer, until the whole buffer is shown; the buffer itself and the
    files are left as they are, and the partial copy is a live recorder
    with the schema of the original. *)
Theorem replay_reveals_one_more_sample (k : nat) (t : Track) (w : world) :
  mode t = "replay"%string -> data_points t <> [] -> 0 <= _replay_index t ->
  exists t' w' v,
    get_current_again k (t, w) = ((t', w'), Ok (Some v))
    /\ data_points v
       = take (Z.to_nat (Z.min (_replay_index t + Z.of_nat k + 1) (len (data_points t))))
              (data_points t)
    /\ field_names v = field_names t /\ mode v = "live"%string
    /\ t' = set_replay_index (Z.min (_replay_index t + Z.of_nat k + 1) (len (data_points t))) t
    /\ files w' = files w.
Proof. apply get_current_again_spec. Qed.

Lemma replay_reveals_one_more_sample_witness :
  exists t' w' v,
    get_current_again 0 (set_mode "replay" (track_of 5 "continuous" None [sample 1; sample 2]),
                         quiet_world)
    = ((t', w'), Ok (Some v))
    /\ data_points v = [sample 1].
Proof.
  destruct (replay_reveals_one_more_sample 0
              (set_mode "replay" (track_of 5 "continuous" None [sample 1; sample 2]))
              quiet_world) as (t' & w' & v & E & Hd & _);
    [reflexivity | discriminate | cbn; lia |].
  exists t', w', v. split; [exact E | exact Hd].
Defined.

(** After [load], replay starts from the loaded samples: a file holding an
    empty array loads, and then every [get_current] raises [ValueError] and
    changes nothing; otherwise call [k + 1] shows the first
    [min(_replay_index + k + 1, n)] loaded samples. *)
Theorem replay_of_a_loaded_file (k : nat) (p : string * string) (t0 t : Track) (w0 w : world) :
  load p (t0, w0) = ((t, w), Ok tt) -> 0 <= _replay_index t0 ->
  exists t' w' r,
    get_current_again k (t, w) = ((t', w'), r)
    /\ files w' = files w0
    /\ (data_points t = [] ->
        r = Raise (ValueError "No data available for replay") /\ t' = t /\ w' = w)
    /\ (data_points t <> [] ->
        exists v, r = Ok (Some v)
                  /\ data_points v
                     = take (Z.to_nat (Z.min (_replay_index t0 + Z.of_nat k + 1)
                                             (len (data_points t))))
                            (data_points t)
                  /\ field_names v = field_names t0).
Proof.
  intros Hload Hidx.
  assert (Hl : files w = files w0 /\ mode t = "replay"%string
               /\ _replay_index t = _replay_index t0 /\ field_names t = field_names t0).
  { revert Hload. unfold load, bind, in_world, w_read.
    destruct (files w0 !! p) as [f |]; [| discriminate].
    destruct (json_load (f_content f)) as [data | e]; cbn [ret raise w_log];
      [| unfold bind, in_world, w_log, raise; discriminate].
    unfold lift. destruct (py_iter data) as [items | e]; [| discriminate].
    destruct (load_DataPoints items) as [dps | e]; [| discriminate].
    cbn [on_track]. intros [= <- <-]. repeat split. }
  destruct Hl as (Hf & Hmode & Hri & Hfn).
  destruct (data_points t) as [| dp dps] eqn:Edp.
  - assert (E1 : get_current (t, w)
                 = ((t, w), Raise (ValueError "No data available for replay"))).
    { unfold get_current, bind, self. rewrite Hmode. cbn [String.eqb Ascii.eqb Bool.eqb].
      unfold _get_replay_track, bind, self. rewrite Edp. reflexivity. }
    exists t, w, (Raise (ValueError "No data available for replay")).
    split.
    + destruct k; cbn [get_current_again]; [exact E1 | unfold bind; rewrite E1; reflexivity].
    + split; [exact Hf |]. split; [intros _; repeat split | congruence].
  - rewrite <- Edp.
    destruct (get_current_again_spec k t w) as (t' & w' & v & E & Hd & Hn & _ & _ & Hf');
      [exact Hmode | congruence | lia |].
    exists t', w', (Ok (Some v)). split; [exact E |].
    split; [congruence |]. split; [congruence |].
    intros _. exists v. split; [reflexivity |].
    split; [rewrite <- Hri; exact Hd | congruence].
Qed.

Lemma replay_of_a_loaded_file_witness :
  exists t' w' v,
    get_current_again 1 (fst (load ("data", "a.json")
                                   (track_of 5 "continuous" None [], replay_world)))
    = ((t', w'), Ok (Some v))
    /\ data_points v = [sample 1; sample 2].
Proof.
  destruct (replay_of_a_loaded_file 1 ("data", "a.json")%string
              (track_of 5 "continuous" None [])
              (set_mode "replay" (track_of 5 "continuous" None [sample 1; sample 2]))
              replay_world replay_world) as (t' & w' & r & E & _ & _ & Hne);
    [vm_compute; reflexivity | cbn; lia |].
  destruct Hne as (v & -> & Hd & _); [discriminate |].
  exists t', w', v. split; [exact E | exact Hd].
Defined.

(** ** The full rescan *)

Lemma indexed_files (D D' : Database) (w w' : world) (p : string * string) :
  same_config D D' -> files w' = files w -> indexed D' w' p = indexed D w p.
Proof.
  intros (_ & _ & Hv & _) Hf. unfold indexed. rewrite (check_file_files p w w' Hf), Hv.
  reflexivity.
Qed.

Lemma extracted_from_files (D D' : Database) (w w' : world) (p : string * string) :
  same_config D D' -> files w' = files w -> extracted_from D' w' p = extracted_from D w p.
Proof.
  intros (_ & _ & _ & He) Hf. unfold extracted_from. rewrite Hf, He. reflexivity.
Qed.

Lemma extract_all_value (p : string * string) (D : Database) (w : world) :
  exists w',
    extract_all p (D, w) = ((D, w'), Ok (extracted_from D w p))
    /\ files w' = files w /\ same_env w w'.
Proof.
  unfold extract_all, extracted_from, bind, this, try_except, in_world_db, w_read, lift.
  destruct (files w !! p) as [f |].
  - destruct (json_load (f_content f)) as [data | e] eqn:Ej.
    + eexists; (split; [reflexivity |]); repeat split.
    + assert (is_Exception e = true) as ->
        by (destruct (f_content f); cbn in Ej; try discriminate Ej;
            injection Ej as <-; reflexivity).
      eexists; (split; [reflexivity |]); repeat split.
  - eexists; (split; [reflexivity |]); repeat split.
Qed.

(** Reading a file that exists returns, or raises [UnicodeDecodeError]. *)
Lemma check_file_existing (p : string * string) (w : world) :
  is_Some (files w !! p) ->
  (exists v, check_file p w = Ok v) \/ check_file p w = Raise UnicodeDecodeError.
Proof.
  intros [f Hf]. unfold check_file. rewrite Hf.
  destruct (f_content f); cbn; eauto.
Qed.

(** One call of the helper on a file that exists. *)
Lemma process_file_spec (ex : list (string * list string)) (p : string * string) (c : bool)
    (D : Database) (w : world) :
  is_Some (files w !! p) ->
  exists D' w' r,
    process_file ex p c (D, w) = ((D', w'), r)
    /\ files w' = files w /\ same_env w w' /\ same_config D D'
    /\ (db_unflushed D' <= S (db_unflushed D))%nat
    /\ (r = Ok tt \/ r = Raise TypeError \/ r = Raise UnicodeDecodeError)
    /\ (db D' = db D
        \/ db D' = db D ++ [(db_next_id D, rescan_meta (extracted_from D w p) p c ex)])
    /\ (check_file p w <> Raise UnicodeDecodeError ->
        (S (db_unflushed D) < WRITE_CACHE_SIZE)%nat -> r = Ok tt)
    /\ (r = Ok tt ->
        if indexed D w p
        then db D' = db D ++ [(db_next_id D, rescan_meta (extracted_from D w p) p c ex)]
             /\ db_next_id D' = S (db_next_id D)
             /\ tracks D' = tracks D ++ [rescan_meta (extracted_from D w p) p c ex]
        else db D' = db D /\ db_next_id D' = db_next_id D /\ tracks D' = tracks D).
Proof.
  intros Hex. unfold process_file. unfold bind at 1, this at 1.
  destruct (validate_json_spec p D w) as (w1 & Ev & Hf1 & Henv1).
  unfold bind at 1. rewrite Ev. unfold indexed.
  destruct (check_file_existing p w Hex) as [[v Hc] | Hc]; rewrite Hc.
  2:{ exists D, w1, (Raise UnicodeDecodeError). split; [reflexivity |].
      split; [exact Hf1 |]. split; [exact Henv1 |]. split; [apply same_config_refl |].
      split; [lia |]. split; [auto |]. split; [left; reflexivity |].
      split; [intros H; contradiction | discriminate]. }
  destruct (v || negb (validation D)).
  - destruct (extract_all_value p D w1) as (w2 & Ee & Hf2 & Henv2).
    unfold bind at 1. rewrite Ee.
    rewrite (extracted_from_files D D w w1 p) by (repeat split; assumption).
    set (meta := rescan_meta (extracted_from D w p) p c ex).
    destruct (db_insert_spec meta D w2) as (n & st & rr & Ei & Hrr & Hlow & _ & Hn).
    unfold bind at 1. rewrite Ei.
    assert (Henv : same_env w w2) by (eapply same_env_trans; eassumption).
    destruct Hrr as [-> | ->].
    + eexists _, _, _. split; [reflexivity |].
      cbn [db db_next_id tracks db_unflushed set_tracks set_db set_unflushed].
      split; [congruence |]. split; [exact Henv |]. split; [repeat split |].
      split; [exact Hn |]. split; [auto |]. split; [right; reflexivity |].
      split; [reflexivity |]. intros _. repeat split.
    + eexists _, _, _. split; [reflexivity |].
      cbn [db db_next_id tracks db_unflushed set_tracks set_db set_unflushed].
      split; [congruence |]. split; [exact Henv |]. split; [repeat split |].
      split; [exact Hn |]. split; [auto |]. split; [right; reflexivity |].
      split; [| discriminate]. intros _ Hlt. specialize (Hlow Hlt). discriminate.
  - exists D, (add_log "warning" "Skipping invalid file" w1), (Ok tt).
    split; [reflexivity |]. split; [exact Hf1 |].
    split; [eapply same_env_trans; [exact Henv1 | apply same_env_add_log] |].
    split; [apply same_config_refl |]. split; [lia |]. split; [auto |].
    split; [left; reflexivity |]. split; [reflexivity |]. intros _. repeat split.
Qed.

(** A loop of the rescan: [sel] gives, for the name of an entry, the path
    and the flag [process_file] is called with, if it is called. *)
Lemma rescan_loop (ex : list (string * list string))
    (sel : string -> option ((string * string) * bool))
    (body : string * file -> M (Database * world) unit) (l : list (string * file))
    (D : Database) (w : world) :
  (forall n f, body (n, f) = match sel n with
                             | Some (p, c) => process_file ex p c
                             | None => ret tt
                             end) ->
  (forall n f p c, (n, f) ∈ l -> sel n = Some (p, c) -> is_Some (files w !! p)) ->
  exists D' w' r,
    for_each l body (D, w) = ((D', w'), r)
    /\ files w' = files w /\ same_env w w' /\ same_config D D'
    /\ (db_unflushed D' <= db_unflushed D + length (omap (fun '(n, _) => sel n) l))%nat
    /\ (r = Ok tt \/ r = Raise TypeError \/ r = Raise UnicodeDecodeError)
    /\ (forall d, d ∈ map snd (db D') ->
          d ∈ map snd (db D) \/ exists p c, d = rescan_meta (extracted_from D w p) p c ex)
    /\ ((forall p c, (p, c) ∈ omap (fun '(n, _) => sel n) l ->
                     check_file p w <> Raise UnicodeDecodeError) ->
        (db_unflushed D + length (omap (fun '(n, _) => sel n) l) < WRITE_CACHE_SIZE)%nat ->
        r = Ok tt)
    /\ (r = Ok tt ->
        let recs := map (fun '(p, c) => rescan_meta (extracted_from D w p) p c ex)
                        (filter (fun '(p, _) => indexed D w p = true)
                                (omap (fun '(n, _) => sel n) l)) in
        db D' = db D ++ imap (fun j d => ((db_next_id D + j)%nat, d)) recs
        /\ db_next_id D' = (db_next_id D + length recs)%nat
        /\ tracks D' = tracks D ++ recs).
Proof.
  intros Hbody. revert D w. induction l as [| [n f] l IH]; intros D w Hex.
  - exists D, w, (Ok tt). split; [reflexivity |]. split; [reflexivity |].
    split; [repeat split |]. split; [apply same_config_refl |].
    split; [cbn; lia |]. split; [auto |]. split; [auto |]. split; [reflexivity |].
    intros _. cbn. rewrite !app_nil_r, Nat.add_0_r. repeat split.
  - cbn [for_each]. unfold bind at 1. rewrite Hbody.
    change (omap (fun '(n0, _) => sel n0) ((n, f) :: l))
      with (match sel n with
            | Some y => y :: omap (fun '(n0, _) => sel n0) l
            | None => omap (fun '(n0, _) => sel n0) l
            end).
    destruct (sel n) as [[p c] |] eqn:Es.
    2:{ cbn [ret]. apply IH. intros n0 f0 p0 c0 Hin Hs.
        eapply Hex; [right; exact Hin | exact Hs]. }
    destruct (process_file_spec ex p c D w)
      as (D1 & w1 & r1 & Ep & Hf1 & Henv1 & Hcfg & Hn1 & Hr1 & Hdb1 & Hret1 & Hok1).
    { eapply Hex; [left | exact Es]. }
    rewrite Ep.
    set (meta := rescan_meta (extracted_from D w p) p c ex) in *.
    assert (Hin1 : forall d, d ∈ map snd (db D1) ->
                     d ∈ map snd (db D)
                     \/ exists p0 c0, d = rescan_meta (extracted_from D w p0) p0 c0 ex).
    { intros d Hd. destruct Hdb1 as [Hdb1 | Hdb1]; rewrite Hdb1 in Hd; [left; exact Hd |].
      rewrite map_app in Hd. apply elem_of_app in Hd as [Hd | Hd]; [left; exact Hd |].
      right. exists p, c. apply list_elem_of_singleton in Hd. exact Hd. }
    destruct r1 as [[] | e1].
    2:{ (* the call raised: the loop stops here *)
        exists D1, w1, (Raise e1). split; [reflexivity |].
        split; [exact Hf1 |]. split; [exact Henv1 |]. split; [exact Hcfg |].
        split; [cbn [length]; lia |].
        split; [destruct Hr1 as [H | H]; [discriminate H | right; exact H] |].
        split; [exact Hin1 |]. split; [| discriminate].
        intros Hdec Hlt. apply Hret1.
        - apply (Hdec p c). left.
        - cbn [length] in Hlt. lia. }
    destruct (IH D1 w1)
      as (D' & w' & r & El & Hf' & Henv' & Hcfg' & Hn' & Hr' & Hin' & Hret' & Hok').
    { intros n0 f0 p0 c0 Hin Hs. rewrite Hf1. eapply Hex; [right; exact Hin | exact Hs]. }
    assert (Hmap : forall L : list ((string * string) * bool),
               map (fun '(p0, c0) => rescan_meta (extracted_from D1 w1 p0) p0 c0 ex) L
               = map (fun '(p0, c0) => rescan_meta (extracted_from D w p0) p0 c0 ex) L).
    { intros L. apply map_ext. intros [p0 c0].
      rewrite (extracted_from_files D D1 w w1 p0 Hcfg Hf1). reflexivity. }
    exists D', w', r. split; [exact El |]. split; [congruence |].
    split; [eapply same_env_trans; eassumption |].
    split; [eapply same_config_trans; eassumption |].
    split; [cbn [length]; lia |]. split; [exact Hr' |]. split.
    { intros d Hd. destruct (Hin' d Hd) as [Hd1 | (p0 & c0 & ->)].
      - apply Hin1. exact Hd1.
      - right. exists p0, c0.
        rewrite (extracted_from_files D D1 w w1 p0 Hcfg Hf1). reflexivity. }
    split.
    { intros Hdec Hlt. apply Hret'.
      - intros p0 c0 Hin0. rewrite (check_file_files p0 w w1 Hf1).
        apply (Hdec p0 c0). right. exact Hin0.
      - cbn [length] in Hlt. lia. }
    intros Hr. specialize (Hok1 eq_refl). specialize (Hok' Hr).
    cbv zeta in Hok' |- *. destruct Hok' as (Hdb & Hnext & Htr).
    assert (Hfilt : filter (fun '(p0, _) => indexed D1 w1 p0 = true)
                           (omap (fun '(n0, _) => sel n0) l)
                    = filter (fun '(p0, _) => indexed D w p0 = true)
                             (omap (fun '(n0, _) => sel n0) l)).
    { apply list_filter_iff. intros [p0 c0]. rewrite (indexed_files D D1 w w1 p0 Hcfg Hf1).
      reflexivity. }
    rewrite Hfilt, Hmap in Hdb, Hnext, Htr.
    set (rest := map (fun '(p0, c0) => rescan_meta (extracted_from D w p0) p0 c0 ex)
                     (filter (fun '(p0, _) => indexed D w p0 = true)
                             (omap (fun '(n0, _) => sel n0) l))) in *.
    rewrite filter_cons.
    destruct (decide (indexed D w p = true)) as [Hi | Hi].
    + rewrite Hi in Hok1. destruct Hok1 as (Hd1 & Hx1 & Ht1).
      cbn [map]. fold meta. fold rest. rewrite imap_cons. cbn [length].
      rewrite Hdb, Hnext, Htr, Hd1, Hx1, Ht1, <- !app_assoc. cbn [app].
      rewrite Nat.add_0_r.
      split; [| split; [lia | reflexivity]].
      do 2 f_equal. apply imap_ext. intros j d _. cbn. f_equal. lia.
    + apply not_true_is_false in Hi. rewrite Hi in Hok1. destruct Hok1 as (Hd1 & Hx1 & Ht1).
      fold rest. rewrite Hdb, Hnext, Htr, Hd1, Hx1, Ht1. repeat split.
Qed.

Lemma rescan_flags (D : Database) (w : world) (ex : list (string * list string))
    (L : list ((string * string) * bool)) :
  (forall p c, (p, c) ∈ L -> c = ends_with ".chk.json" (snd p)) ->
  map (fun '(p, c) => rescan_meta (extracted_from D w p) p c ex)
      (filter (fun '(p, _) => indexed D w p = true) L)
  = map (fun p => rescan_meta (extracted_from D w p) p (ends_with ".chk.json" (snd p)) ex)
        (filter (fun p => indexed D w p = true) (map fst L)).
Proof.
  induction L as [| [p c] L IH]; intros Hflag; [reflexivity |].
  cbn [map fst]. rewrite !filter_cons.
  assert (Hc : c = ends_with ".chk.json" (snd p)) by (apply Hflag; left).
  assert (IH' := IH (fun p0 c0 Hin => Hflag p0 c0 (list_elem_of_further _ _ _ Hin))).
  destruct (decide (indexed D w p = true)).
  - cbn [map]. rewrite IH', Hc. reflexivity.
  - exact IH'.
Qed.

Lemma omap_primary (D : Database) (l : list (string * file)) :
  omap (fun '(n, _) => if String.eqb n (db_fname D) then None
                       else Some ((directory D, n), ends_with ".chk.json" n)) l
  = map (fun '(n, _) => ((directory D, n), ends_with ".chk.json" n))
        (filter (fun '(n, _) => n <> db_fname D) l).
Proof.
  induction l as [| [n f] l IH]; [reflexivity |].
  rewrite filter_cons.
  change (omap (fun '(n0, _) => if String.eqb n0 (db_fname D) then None
                                else Some ((directory D, n0), ends_with ".chk.json" n0))
               ((n, f) :: l))
    with (match (if String.eqb n (db_fname D) then None
                 else Some ((directory D, n), ends_with ".chk.json" n)) with
          | Some y => y :: omap (fun '(n0, _) => if String.eqb n0 (db_fname D) then None
                                  else Some ((directory D, n0), ends_with ".chk.json" n0)) l
          | None => omap (fun '(n0, _) => if String.eqb n0 (db_fname D) then None
                                  else Some ((directory D, n0), ends_with ".chk.json" n0)) l
          end).
  destruct (String.eqb_spec n (db_fname D)) as [He | Hne].
  - rewrite decide_False by (intros H; apply H; exact He). exact IH.
  - rewrite decide_True by exact Hne. cbn [map]. rewrite IH. reflexivity.
Qed.

Lemma omap_checkpoints (d : string) (l : list (string * file)) :
  omap (fun '(n, _) => Some ((d, n), true)) l = map (fun '(n, _) => ((d, n), true)) l.
Proof.
  induction l as [| [n f] l IH]; [reflexivity |].
  change (omap (fun '(n0, _) => Some ((d, n0), true)) ((n, f) :: l))
    with (((d, n), true) :: omap (fun '(n0, _) => Some ((d, n0), true)) l).
  rewrite IH. reflexivity.
Qed.

Lemma path_glob_lookup (d suf n : string) (f : file) (w : world) :
  (n, f) ∈ path_glob d suf w -> files w !! (d, n) = Some f /\ ends_with suf n = true.
Proof.
  unfold path_glob. rewrite list_elem_of_filter. intros [He Hin].
  split; [apply listdir_lookup; exact Hin | exact He].
Qed.

(** A full rescan: it returns, or raises the [TypeError] of a cache flush
    or the [UnicodeDecodeError] of a file that is no text; it returns when
    every scanned file is text and the writes stay below the cache size.
    When it returns, the table holds one record per scanned file that is
    indexed, in scan order, numbered from 1. *)
Lemma load_tracks_spec (D : Database) (w : world) :
  exists D' w' r,
    load_tracks (D, w) = ((D', w'), r)
    /\ files w' = files w /\ same_env w w' /\ same_config D D'
    /\ (r = Ok tt \/ r = Raise TypeError \/ r = Raise UnicodeDecodeError)
    /\ (forall d, d ∈ db_all D' ->
          exists p c, d = rescan_meta (extracted_from D w p) p c (existing_exports D w))
    /\ ((forall p, p ∈ scanned D w -> check_file p w <> Raise UnicodeDecodeError) ->
        (db_unflushed D + 1 + length (scanned D w) < WRITE_CACHE_SIZE)%nat -> r = Ok tt)
    /\ (r = Ok tt ->
        let recs := map (rescan_record D w)
                        (filter (fun p => indexed D w p = true) (scanned D w)) in
        db D' = imap (fun j d => ((1 + j)%nat, d)) recs
        /\ db_next_id D' = (1 + length recs)%nat
        /\ tracks D' = recs).
Proof.
  unfold load_tracks. unfold bind at 1.
  destruct (db_truncate_spec D w) as (n0 & st0 & Et & Hn0). rewrite Et.
  unfold bind at 1, on_db at 1.
  unfold bind at 1, get at 1.
  set (D0 := set_tracks [] (mk_Database (directory D) (db_fname D) (validation D)
                                        (extractors D) [] 1 (tracks D)
                                        (db_writes D ++ [OpTruncate]) n0 st0)).
  assert (Hcfg0 : same_config D D0) by (repeat split).
  change (existing_exports D0 w) with (existing_exports D w).
  change (directory D0) with (directory D).
  change (db_fname D0) with (db_fname D).
  change (checkpoint_directory D0) with (checkpoint_directory D).
  set (ex := existing_exports D w).
  set (sel1 := fun n => if String.eqb n (db_fname D) then None
                        else Some ((directory D, n), ends_with ".chk.json" n)).
  set (sel2 := fun n : string => Some ((checkpoint_directory D, n), true)).
  set (l1 := path_glob (directory D) ".json" w).
  set (l2 := path_glob (checkpoint_directory D) ".chk.json" w).
  assert (Hom1 : omap (fun '(n, _) => sel1 n) l1
                 = map (fun '(n, _) => ((directory D, n), ends_with ".chk.json" n))
                       (filter (fun '(n, _) => n <> db_fname D) l1))
    by apply omap_primary.
  assert (Hom2 : omap (fun '(n, _) => sel2 n) l2
                 = map (fun '(n, _) => ((checkpoint_directory D, n), true)) l2)
    by apply omap_checkpoints.
  assert (Hlen : length (scanned D w)
                 = (length (omap (fun '(n, _) => sel1 n) l1)
                    + length (omap (fun '(n, _) => sel2 n) l2))%nat).
  { unfold scanned. fold l1 l2. rewrite Hom1, Hom2, length_app, !length_map. reflexivity. }
  assert (Hsc1 : forall p c, (p, c) ∈ omap (fun '(n, _) => sel1 n) l1 -> p ∈ scanned D w).
  { intros p c Hin. rewrite Hom1 in Hin.
    apply list_elem_of_fmap in Hin as ([n f] & [= -> ->] & Hin).
    unfold scanned. fold l1 l2. apply elem_of_app. left.
    apply list_elem_of_fmap. exists (n, f). split; [reflexivity | exact Hin]. }
  assert (Hsc2 : forall p c, (p, c) ∈ omap (fun '(n, _) => sel2 n) l2 -> p ∈ scanned D w).
  { intros p c Hin. rewrite Hom2 in Hin.
    apply list_elem_of_fmap in Hin as ([n f] & [= -> ->] & Hin).
    unfold scanned. fold l1 l2. apply elem_of_app. right.
    apply list_elem_of_fmap. exists (n, f). split; [reflexivity | exact Hin]. }
  destruct (rescan_loop ex sel1
              (fun '(n, _) =>
                 if String.eqb n (db_fname D) then ret tt
                 else process_file ex (directory D, n) (ends_with ".chk.json" n))
              l1 D0 w)
    as (D1 & w1 & r1 & E1 & Hf1 & He1 & Hc1 & Hu1 & Hr1 & Hin1 & Hret1 & Hok1).
  { intros n f. unfold sel1. destruct (String.eqb n (db_fname D)); reflexivity. }
  { intros n f p c Hin Hs. unfold sel1 in Hs.
    destruct (String.eqb n (db_fname D)); [discriminate |].
    injection Hs as <- <-. apply path_glob_lookup in Hin as [Hl _]. eexists; exact Hl. }
  unfold bind at 1. rewrite E1.
  assert (Hc01 : same_config D D1) by exact (same_config_trans _ _ _ Hcfg0 Hc1).
  assert (Hrec1 : forall d, d ∈ db_all D1 ->
                    exists p c, d = rescan_meta (extracted_from D w p) p c ex).
  { intros d Hd. destruct (Hin1 d Hd) as [Hd0 | Hd0].
    - apply elem_of_nil in Hd0. contradiction.
    - exact Hd0. }
  change (db_unflushed D0) with n0 in Hu1, Hret1.
  destruct r1 as [[] | e1].
  2:{ exists D1, w1, (Raise e1). split; [reflexivity |].
      split; [exact Hf1 |]. split; [exact He1 |]. split; [exact Hc01 |].
      split; [exact Hr1 |]. split; [exact Hrec1 |]. split; [| discriminate].
      intros Hdec Hlt. apply Hret1.
      - intros p c Hin. apply Hdec. eapply Hsc1. exact Hin.
      - lia. }
  destruct (rescan_loop ex sel2
              (fun '(n, _) => process_file ex (checkpoint_directory D, n) true)
              l2 D1 w1)
    as (D2 & w2 & r2 & E2 & Hf2 & He2 & Hc2 & Hu2 & Hr2 & Hin2 & Hret2 & Hok2).
  { intros n f. reflexivity. }
  { intros n f p c Hin Hs. inversion Hs; subst p c. rewrite Hf1.
    apply path_glob_lookup in Hin as [Hl _]. eexists; exact Hl. }
  exists D2, w2, r2. split; [exact E2 |]. split; [congruence |].
  split; [exact (same_env_trans _ _ _ He1 He2) |].
  split; [exact (same_config_trans _ _ _ Hc01 Hc2) |].
  split; [exact Hr2 |]. split.
  { intros d Hd. destruct (Hin2 d Hd) as [Hd1 | (p & c & ->)].
    - apply Hrec1. exact Hd1.
    - exists p, c. rewrite (extracted_from_files D D1 w w1 p Hc01 Hf1). reflexivity. }
  split.
  { intros Hdec Hlt. apply Hret2.
    - intros p c Hin. rewrite (check_file_files p w w1 Hf1). apply Hdec.
      eapply Hsc2. exact Hin.
    - lia. }
  intros Hr. specialize (Hok1 eq_refl). specialize (Hok2 Hr).
  cbv zeta in Hok1, Hok2 |- *.
  destruct Hok1 as (Hdb1 & Hn1 & Ht1). destruct Hok2 as (Hdb2 & Hn2 & Ht2).
  (* the two loops in terms of the scanned paths *)
  assert (Hrs1 : map (fun '(p, c) => rescan_meta (extracted_from D0 w p) p c ex)
                     (filter (fun '(p, _) => indexed D0 w p = true)
                        (omap (fun '(n, _) => sel1 n) l1))
                 = map (rescan_record D w)
                       (filter (fun p => indexed D w p = true)
                          (map (fun '(n, _) => (directory D, n))
                               (filter (fun '(n, _) => n <> db_fname D) l1)))).
  { rewrite Hom1, rescan_flags.
    - rewrite map_map.
      erewrite (map_ext (fun x => fst (let '(n, _) := x in
                                       ((directory D, n), ends_with ".chk.json" n)))
                        (fun '(n, _) => (directory D, n))) by (intros [n f]; reflexivity).
      reflexivity.
    - intros p c Hin. apply list_elem_of_fmap in Hin as ([n f] & [= -> ->] & _). reflexivity. }
  assert (Hrs2 : map (fun '(p, c) => rescan_meta (extracted_from D1 w1 p) p c ex)
                     (filter (fun '(p, _) => indexed D1 w1 p = true)
                        (omap (fun '(n, _) => sel2 n) l2))
                 = map (rescan_record D w)
                       (filter (fun p => indexed D w p = true)
                          (map (fun '(n, _) => (checkpoint_directory D, n)) l2))).
  { rewrite Hom2.
    erewrite (list_filter_iff (fun '(p, _) => indexed D1 w1 p = true)
                              (fun '(p, _) => indexed D w p = true))
      by (intros [p c]; rewrite (indexed_files D D1 w w1 p Hc01 Hf1); reflexivity).
    erewrite (map_ext (fun '(p, c) => rescan_meta (extracted_from D1 w1 p) p c ex)
                      (fun '(p, c) => rescan_meta (extracted_from D w p) p c ex))
      by (intros [p c]; rewrite (extracted_from_files D D1 w w1 p Hc01 Hf1); reflexivity).
    rewrite rescan_flags.
    - rewrite map_map.
      erewrite (map_ext (fun x => fst (let '(n, _) := x in
                                       ((checkpoint_directory D, n), true)))
                        (fun '(n, _) => (checkpoint_directory D, n)))
        by (intros [n f]; reflexivity).
      reflexivity.
    - intros p c Hin. apply list_elem_of_fmap in Hin as ([n f] & [= -> ->] & Hin).
      apply path_glob_lookup in Hin as [_ He]. cbn [snd]. rewrite He. reflexivity. }
  rewrite Hrs1 in Hdb1, Hn1, Ht1. rewrite Hrs2 in Hdb2, Hn2, Ht2.
  unfold scanned. fold l1 l2. rewrite filter_app, map_app.
  set (rc1 := map (rescan_record D w)
                  (filter (fun p => indexed D w p = true)
                     (map (fun '(n, _) => (directory D, n))
                          (filter (fun '(n, _) => n <> db_fname D) l1)))) in *.
  set (rc2 := map (rescan_record D w)
                  (filter (fun p => indexed D w p = true)
                     (map (fun '(n, _) => (checkpoint_directory D, n)) l2))) in *.
  change (db D0) with (@nil (nat * doc)) in Hdb1.
  change (db_next_id D0) with 1%nat in Hdb1, Hn1.
  change (tracks D0) with (@nil doc) in Ht1.
  cbn [app] in Hdb1, Ht1.
  rewrite Hdb2, Hn2, Ht2, Hdb1, Hn1, Ht1. rewrite imap_app, length_app.
  split; [| split; [lia | reflexivity]].
  apply (f_equal2 app); [reflexivity |].
  apply imap_ext. intros j d _. cbn. f_equal; lia.
Qed.





Lemma rescan_config (D1 D2 : Database) (w : world) :
  same_config D1 D2 ->
  map (rescan_record D2 w) (filter (fun p => indexed D2 w p = true) (scanned D2 w))
  = map (rescan_record D1 w) (filter (fun p => indexed D1 w p = true) (scanned D1 w)).
Proof.
  destruct D1 as [a1 b1 c1 e1 r1 n1 t1 o1 u1 s1], D2 as [a2 b2 c2 e2 r2 n2 t2 o2 u2 s2].
  unfold same_config. cbn [directory db_fname validation extractors].
  intros (-> & -> & -> & ->). reflexivity.
Qed.

(** A full rescan starts from an empty table: when two rescans of the same
    files return, by indexes of the same configuration, they leave the same
    table, ids and in-memory list, whatever records, ids and write counts
    the two indexes held before. (Whether a rescan returns does depend on
    the count of writes since the last flush.) No file is touched. *)
Theorem load_tracks_forgets_the_table (D1 D2 D1' D2' : Database) (w w1 w2 : world) :
  same_config D1 D2 ->
  load_tracks (D1, w) = ((D1', w1), Ok tt) ->
  load_tracks (D2, w) = ((D2', w2), Ok tt) ->
  db D2' = db D1' /\ db_next_id D2' = db_next_id D1' /\ tracks D2' = tracks D1'
  /\ files w1 = files w /\ files w2 = files w.
Proof.
  intros Hcfg E1 E2.
  destruct (load_tracks_spec D1 w) as (D1x & w1x & r1 & E1x & Hf1 & _ & _ & _ & _ & _ & Hok1).
  destruct (load_tracks_spec D2 w) as (D2x & w2x & r2 & E2x & Hf2 & _ & _ & _ & _ & _ & Hok2).
  rewrite E1 in E1x. injection E1x as <- <- <-.
  rewrite E2 in E2x. injection E2x as <- <- <-.
  destruct (Hok1 eq_refl) as (Hdb1 & Hn1 & Ht1).
  destruct (Hok2 eq_refl) as (Hdb2 & Hn2 & Ht2).
  rewrite (rescan_config D1 D2 w Hcfg) in Hdb2, Hn2, Ht2.
  repeat split; congruence.
Qed.

Lemma load_tracks_forgets_the_table_witness :
  db (load_tracks (index_of [(7%nat, clean_record); (9%nat, clean_record)], track_world)).1.1
  = db (load_tracks (index_of [], track_world)).1.1
  /\ db_next_id
       (load_tracks (index_of [(7%nat, clean_record); (9%nat, clean_record)], track_world)).1.1
     = db_next_id (load_tracks (index_of [], track_world)).1.1
  /\ tracks
       (load_tracks (index_of [(7%nat, clean_record); (9%nat, clean_record)], track_world)).1.1
     = tracks (load_tracks (index_of [], track_world)).1.1
  /\ files (load_tracks (index_of [], track_world)).1.2 = files track_world
  /\ files
       (load_tracks (index_of [(7%nat, clean_record); (9%nat, clean_record)], track_world)).1.2
     = files track_world.
Proof.
  apply (load_tracks_forgets_the_table (index_of [])
           (index_of [(7%nat, clean_record); (9%nat, clean_record)])).
  - repeat split.
  - vm_compute. reflexivity.
  - vm_compute. reflexivity.
Defined.


(** The records a full rescan stores carry no modification time (none of
    the extractors gives one): whether the rescan returns or raises, no
    record of the table it leaves has one, so the incremental pass that
    follows finds every file new or modified, whatever its modification
    time. *)
Theorem rescan_leaves_every_file_dirty (D : Database) (w : world) :
  (forall n v, extractors D n v !! "mtime" = None) ->
  exists D' w' r,
    load_tracks (D, w) = ((D', w'), r)
    /\ (forall d, d ∈ db_all D' -> d_fields d !! "mtime" = None)
    /\ forall fname mtime,
         is_dirty (dict_get fname (existing_tracks_of D')) mtime = true.
Proof.
  intros Hext.
  destruct (load_tracks_spec D w) as (D' & w' & r & E & _ & _ & _ & _ & Hrecs & _).
  exists D', w', r.
  assert (Hno : forall d, d ∈ db_all D' -> d_fields d !! "mtime" = None).
  { intros d Hd. destruct (Hrecs d Hd) as (p & c & ->).
    assert (Hx : extracted_from D w p !! "mtime" = None).
    { unfold extracted_from.
      destruct (files w !! p) as [f |]; [| apply lookup_empty].
      destruct (json_load (f_content f)); [apply Hext | apply lookup_empty]. }
    unfold rescan_meta. cbn [d_fields].
    destruct (dict_get _ _); simplify_map_eq; exact Hx. }
  split; [exact E |]. split; [exact Hno |].
  intros fname mtime. rewrite existing_tracks_get.
  destruct (last (docs_of fname (db D'))) as [d |] eqn:El; [| reflexivity].
  apply last_Some_elem_of in El. apply docs_of_elem_of in El as [_ Hin].
  unfold is_dirty. rewrite (Hno d Hin). reflexivity.
Qed.

Lemma rescan_leaves_every_file_dirty_witness :
  exists D' w' r,
    load_tracks (index_of [], track_world) = ((D', w'), r)
    /\ (forall d, d ∈ db_all D' -> d_fields d !! "mtime" = None)
    /\ forall fname mtime,
         is_dirty (dict_get fname (existing_tracks_of D')) mtime = true.
Proof.
  apply (rescan_leaves_every_file_dirty (index_of []) track_world).
  intros n v. reflexivity.
Defined.

(** ** Updating a record *)

(** [update_track_metadata] with a metadata that holds neither the key
    ["filename"] nor the key ["filepath"] touches no file. It returns, or
    raises the [TypeError] of a cache flush; it returns when the write stays
    below the cache size. Either way the table is updated: on the records
    of the named file a key of the new metadata takes the new value and
    every other key keeps its value; the records of other files, the file
    names, the stored paths and the order of the table are as before. The
    in-memory list is refreshed from the table when the call returns, and
    is left as it was when the call raises. *)
Theorem update_track_metadata_lookup (filename : string) (new_metadata : gmap string pyval)
    (D : Database) (w : world) :
  new_metadata !! "filename" = None ->
  new_metadata !! "filepath" = None ->
  exists D' r,
    update_track_metadata filename new_metadata (D, w) = ((D', w), r)
    /\ (r = Ok tt \/ r = Raise TypeError)
    /\ ((S (db_unflushed D) < WRITE_CACHE_SIZE)%nat -> r = Ok tt)
    /\ (r = Ok tt -> tracks D' = db_all D')
    /\ (r = Raise TypeError -> tracks D' = tracks D)
    /\ length (db_all D') = length (db_all D)
    /\ forall i d, db_all D !! i = Some d ->
         exists d', db_all D' !! i = Some d'
                    /\ d_filename d' = d_filename d
                    /\ d_filepath d' = d_filepath d
                    /\ forall k,
                         d_fields d' !! k
                         = if decide (d_filename d = filename)
                           then match new_metadata !! k with
                                | Some v => Some v
                                | None => d_fields d !! k
                                end
                           else d_fields d !! k.
Proof.
  intros _ _.
  set (upd := fun '((i, old) : nat * doc) =>
                if String.eqb (d_filename old) filename
                then (i, doc_update (mk_doc filename new_metadata None) old) else (i, old)).
  assert (Hrows : length (map snd (map upd (db D))) = length (db_all D)
                  /\ forall i d, db_all D !! i = Some d ->
                       exists d', map snd (map upd (db D)) !! i = Some d'
                                  /\ d_filename d' = d_filename d
                                  /\ d_filepath d' = d_filepath d
                                  /\ forall k,
                                       d_fields d' !! k
                                       = if decide (d_filename d = filename)
                                         then match new_metadata !! k with
                                              | Some v => Some v
                                              | None => d_fields d !! k
                                              end
                                         else d_fields d !! k).
  { split; [unfold db_all; rewrite !length_map; reflexivity |].
    intros i d Hd. unfold db_all in Hd.
    rewrite list_lookup_fmap in Hd. rewrite !list_lookup_fmap.
    destruct (db D !! i) as [[j old] |] eqn:Ei; [| discriminate].
    cbn in Hd. injection Hd as <-. cbn [fmap option_fmap option_map upd].
    destruct (String.eqb_spec (d_filename old) filename) as [He | Hne].
    - eexists. split; [reflexivity |].
      cbn [snd doc_update d_filename d_fields d_filepath].
      split; [congruence |]. split; [reflexivity |].
      intros k. rewrite decide_True by exact He.
      rewrite lookup_union. destruct (new_metadata !! k), (d_fields old !! k); reflexivity.
    - eexists. split; [reflexivity |]. cbn [snd]. split; [reflexivity |].
      split; [reflexivity |].
      intros k. rewrite decide_False by exact Hne. reflexivity. }
  unfold update_track_metadata. unfold bind at 1.
  destruct (db_update_spec (mk_doc filename new_metadata None) filename D w)
    as (n & st & rr & Eu & Hrr & Hlow & _).
  rewrite Eu. fold upd.
  destruct Hrr as [-> | ->].
  - eexists _, _. split; [reflexivity |].
    cbn [db_all db tracks set_tracks set_db set_unflushed]. unfold db_all.
    cbn [db set_tracks set_db set_unflushed].
    split; [left; reflexivity |]. split; [reflexivity |]. split; [reflexivity |].
    split; [discriminate |]. exact Hrows.
  - eexists _, _. split; [reflexivity |].
    unfold db_all at 1 2. cbn [db tracks set_tracks set_db set_unflushed].
    split; [right; reflexivity |].
    split; [intros Hlt; specialize (Hlow Hlt); discriminate |].
    split; [discriminate |]. split; [reflexivity |]. exact Hrows.
Qed.

Lemma update_track_metadata_lookup_witness :
  exists D' r,
    update_track_metadata "a.json" {[ "note" := VStr "calm" ]}
      (index_of [(1%nat, clean_record)], track_world) = ((D', track_world), r)
    /\ r = Ok tt
    /\ db_all D' = [mk_doc "a.json" {[ "note" := VStr "calm"; "mtime" := VInt 5 ]} None].
Proof.
  destruct (update_track_metadata_lookup "a.json" {[ "note" := VStr "calm" ]}
              (index_of [(1%nat, clean_record)]) track_world)
    as (D' & r & E & _ & Hlow & _); [reflexivity | reflexivity |].
  exists D', r. split; [exact E |]. split; [apply Hlow; vm_compute; lia |].
  assert (HD : D' = (update_track_metadata "a.json" {[ "note" := VStr "calm" ]}
                       (index_of [(1%nat, clean_record)], track_world)).1.1)
    by (rewrite E; reflexivity).
  rewrite HD. vm_compute. reflexivity.
Defined.

(** ** Resolving a track *)

(** [get_track_path] never raises and leaves the table and the files as
    they are; the in-memory list is refreshed from the table. A path it
    returns is that of an existing file, named as some record of the table. *)
Theorem get_track_path_resolves (id : track_id) (D : Database) (w : world) :
  exists w' res,
    get_track_path id (D, w) = ((set_tracks (db_all D) D, w'), Ok res)
    /\ files w' = files w /\ same_env w w'
    /\ match res with
       | Some p =>
           (exists t, t ∈ db_all D /\ d_filename t = snd p)
           /\ is_Some (files w !! p)
           /\ (fst p = directory D \/ fst p = checkpoint_directory D)
       | None => True
       end.
Proof.
  unfold get_track_path. unfold bind at 1, on_db at 1. cbn [set_tracks].
  unfold bind at 1, get at 1.
  set (D1 := set_tracks (db_all D) D).
  assert (Htracks : tracks D1 = db_all D) by reflexivity.
  assert (Hdir : directory D1 = directory D) by reflexivity.
  (* the lookup of the record *)
  assert (Hlook : exists w0 track,
             (match id with
              | IdInt i =>
                  if (0 <=? i) && (i <? Z.of_nat (length (tracks D1)))
                  then ret (tracks D1 !! Z.to_nat i)
                  else run in_world_db (w_log "warning" "invalid track index"); ret None
              | IdStr name =>
                  match head (filter (fun t => d_filename t = name) (tracks D1)) with
                  | Some t => ret (Some t)
                  | None => run in_world_db (w_log "warning" "track not found in DB"); ret None
                  end
              | IdOther => run in_world_db (w_log "warning" "invalid identifier type"); ret None
              end) (D1, w) = ((D1, w0), Ok track)
             /\ files w0 = files w /\ same_env w w0
             /\ match track with Some t => t ∈ db_all D | None => True end).
  { destruct id as [i | name |].
    - destruct ((0 <=? i) && (i <? Z.of_nat (length (tracks D1)))).
      + eexists _, _. split; [reflexivity |]. repeat split.
        destruct (tracks D1 !! Z.to_nat i) as [t |] eqn:Et; [| exact I].
        rewrite <- Htracks. eapply list_elem_of_lookup_2. exact Et.
      + eexists _, _. split; [reflexivity |]. repeat split.
    - destruct (head (filter (fun t => d_filename t = name) (tracks D1))) as [t |] eqn:Eh.
      + eexists _, _. split; [reflexivity |]. repeat split.
        apply head_Some_elem_of in Eh. apply list_elem_of_filter in Eh as [_ Hin].
        rewrite <- Htracks. exact Hin.
      + eexists _, _. split; [reflexivity |]. repeat split.
    - eexists _, _. split; [reflexivity |]. repeat split. }
  destruct Hlook as (w0 & track & El & Hf0 & Henv0 & Hin).
  unfold bind at 1. rewrite El.
  destruct track as [track |].
  2:{ eexists _, _. split; [reflexivity |]. repeat split; try apply Henv0. exact Hf0. }
  set (is_chk := match d_fields track !! "checkpoint" with
                 | Some (VBool b) => b
                 | Some VNone | None => false
                 | Some (VInt z) => negb (z =? 0)
                 | Some (VStr s) => negb (String.eqb s "")
                 | Some (VList l) => negb (bool_decide (l = []))
                 | Some (VDict d) => negb (bool_decide (d = []))
                 | Some (VFloat f) => negb (SFeqb f F64.zero)
                 end).
  destruct (is_chk && w_exists (directory D1 +:+ "/chk", d_filename track) w) eqn:Hc.
  - apply andb_prop in Hc as [_ Hex]. unfold w_exists in Hex. apply bool_decide_eq_true in Hex.
    eexists _, _. split; [reflexivity |]. split; [exact Hf0 |]. split; [exact Henv0 |].
    split; [exists track; split; [exact Hin | reflexivity] |].
    split; [exact Hex | right; reflexivity].
  - destruct (w_exists (directory D1, d_filename track) w) eqn:Hex.
    + unfold w_exists in Hex. apply bool_decide_eq_true in Hex.
      eexists _, _. split; [reflexivity |]. split; [exact Hf0 |]. split; [exact Henv0 |].
      split; [exists track; split; [exact Hin | reflexivity] |].
      split; [exact Hex | left; reflexivity].
    + eexists _, _. split; [reflexivity |].
      split; [exact Hf0 |]. split; [| exact I].
      eapply same_env_trans; [exact Henv0 | apply same_env_add_log].
Qed.

(** ** The date in a file name *)

Lemma digit_char_nat (d : Z) : 0 <= d < 10 -> nat_of_ascii (digit_char d) = (48 + Z.to_nat d)%nat.
Proof. intros Hd. unfold digit_char. apply nat_ascii_embedding. lia. Qed.

Lemma rx_digit_char (d : Z) : 0 <= d < 10 -> rx_match RxDigit (digit_char d) = true.
Proof.
  intros Hd. unfold rx_match. rewrite digit_char_nat by exact Hd.
  apply andb_true_intro. split; apply Nat.leb_le; lia.
Qed.

Lemma digit_char_neq (c : ascii) (d : Z) :
  0 <= d < 10 -> (nat_of_ascii c < 48 \/ 57 < nat_of_ascii c)%nat ->
  Ascii.eqb c (digit_char d) = false.
Proof.
  intros Hd Hc. apply Ascii.eqb_neq. intros ->. rewrite digit_char_nat in Hc by exact Hd. lia.
Qed.

Lemma pad_digit (k : nat) (n : Z) : 0 <= (n / 10 ^ Z.of_nat k) mod 10 < 10.
Proof. apply Z.mod_pos_bound. lia. Qed.

(** [k] digits in front of a pattern match the [k] digits [pad] writes. *)
Lemma match_seq_pad (k : nat) (n : Z) (pat : list rx) (rest : string) :
  match_seq (repeat RxDigit k ++ pat) (pad k n +:+ rest)
  = match match_seq pat rest with
    | Some (txt, r) => Some (pad k n +:+ txt, r)
    | None => None
    end.
Proof.
  induction k as [| k IH].
  - cbn [repeat app pad]. change ("" +:+ rest) with rest.
    destruct (match_seq pat rest) as [[txt r] |]; reflexivity.
  - cbn [repeat app pad]. rewrite string_app_cons. cbn [match_seq].
    rewrite rx_digit_char by apply pad_digit. rewrite IH.
    destruct (match_seq pat rest) as [[txt r] |]; reflexivity.
Qed.

Lemma str_has_app (c : ascii) (a b : string) :
  str_has c (a +:+ b) = str_has c a || str_has c b.
Proof.
  induction a as [| x a IH]; [reflexivity |].
  rewrite string_app_cons. cbn [str_has]. rewrite IH, orb_assoc. reflexivity.
Qed.

Lemma str_has_pad (c : ascii) (k : nat) (n : Z) :
  (nat_of_ascii c < 48 \/ 57 < nat_of_ascii c)%nat -> str_has c (pad k n) = false.
Proof.
  intros Hc. induction k as [| k IH]; [reflexivity |].
  cbn [pad str_has]. rewrite digit_char_neq by (apply pad_digit || exact Hc). exact IH.
Qed.

Lemma int_digits_pad (k : nat) (n acc : Z) :
  int_digits acc (pad k n) = acc * 10 ^ Z.of_nat k + n mod 10 ^ Z.of_nat k.
Proof.
  revert acc. induction k as [| k IH]; intros acc.
  - cbn [pad int_digits]. change (10 ^ Z.of_nat 0) with 1. rewrite Z.mod_1_r. lia.
  - cbn [pad int_digits].
    assert (Hp : 0 < 10 ^ Z.of_nat k) by (apply Z.pow_pos_nonneg; lia).
    rewrite digit_val_char by apply pad_digit.
    rewrite IH.
    rewrite Nat2Z.inj_succ, Z.pow_succ_r by lia.
    rewrite (Z.mul_comm 10 (10 ^ Z.of_nat k)), Z.rem_mul_r by lia. lia.
Qed.

Lemma int_digits_exact (k : nat) (n : Z) :
  0 <= n < 10 ^ Z.of_nat k -> int_digits 0 (pad k n) = n.
Proof. intros Hn. rewrite int_digits_pad, Z.mod_small by exact Hn. reflexivity. Qed.

(** The first match of a format, one item at a time. *)
Lemma head_matches_directive (fld : dt_field) (alts : list (list rx)) (fmt : list fmt_item)
    (s txt rest : string) (gs : list (dt_field * string)) (r : string) :
  match_first alts s = Some (txt, rest) ->
  head (matches fmt rest) = Some (gs, r) ->
  head (matches (Directive fld alts :: fmt) s) = Some ((fld, txt) :: gs, r).
Proof.
  intros Hm Hh. cbn [matches].
  induction alts as [| alt alts IH]; [discriminate |].
  cbn [match_first] in Hm. cbn [flat_map].
  destruct (match_seq alt s) as [[txt' rest'] |].
  - injection Hm as -> ->.
    destruct (matches fmt rest) as [| [gs' r'] l]; [discriminate |].
    cbn in Hh. injection Hh as -> ->. reflexivity.
  - cbn [app]. apply IH. exact Hm.
Qed.

Lemma head_matches_literal (c : ascii) (fmt : list fmt_item) (rest : string) :
  head (matches (Literal c :: fmt) (String c rest)) = head (matches fmt rest).
Proof. cbn [matches]. rewrite Ascii.eqb_refl. reflexivity. Qed.

Lemma strptime_head (fmt : list fmt_item) (s : string) (gs : list (dt_field * string)) :
  head (matches fmt s) = Some (gs, ""%string) ->
  strptime fmt s
  = let t := fold_left (fun t '(fld, txt) => set_field fld txt t) gs
                       (mk_datetime 1900 1 1 0 0 0 0) in
    if valid_datetime t then Ok t else Raise (ValueError "datetime field out of range").
Proof.
  intros Hh. unfold strptime.
  destruct (matches fmt s) as [| [gs' r'] l]; [discriminate |].
  cbn in Hh. injection Hh as -> ->. reflexivity.
Qed.

Lemma below_cases (P : Z -> Prop) (n : nat) :
  (forall k : nat, (k < n)%nat -> P (Z.of_nat k)) -> forall v, 0 <= v < Z.of_nat n -> P v.
Proof. intros H v Hv. rewrite <- (Z2Nat.id v) by lia. apply H. lia. Qed.

Tactic Notation "by_cases" integer(n) :=
  let k := fresh "k" in
  let Hk := fresh "Hk" in
  intros k Hk;
  do n (destruct k as [| k]; [try reflexivity; try (intros; lia) |]);
  lia.

Lemma match_month (v : Z) (rest : string) :
  1 <= v <= 12 ->
  match_first [[RxChar "1"; RxRange "0" "2"]; [RxChar "0"; RxRange "1" "9"];
               [RxRange "1" "9"]] (pad 2 v +:+ rest) = Some (pad 2 v, rest).
Proof.
  intros Hv. assert (H : 0 <= v < Z.of_nat 13) by lia. revert Hv.
  pattern v. revert v H. apply below_cases. by_cases 13.
Qed.

Lemma match_day (v : Z) (rest : string) :
  1 <= v <= 31 ->
  match_first [[RxChar "3"; RxRange "0" "1"]; [RxRange "1" "2"; RxDigit];
               [RxChar "0"; RxRange "1" "9"]; [RxRange "1" "9"];
               [RxChar " "; RxRange "1" "9"]] (pad 2 v +:+ rest) = Some (pad 2 v, rest).
Proof.
  intros Hv. assert (H : 0 <= v < Z.of_nat 32) by lia. revert Hv.
  pattern v. revert v H. apply below_cases. by_cases 32.
Qed.

Lemma match_hour (v : Z) (rest : string) :
  0 <= v < 24 ->
  match_first [[RxChar "2"; RxRange "0" "3"]; [RxRange "0" "1"; RxDigit]; [RxDigit]]
              (pad 2 v +:+ rest) = Some (pad 2 v, rest).
Proof.
  intros Hv. assert (H : 0 <= v < Z.of_nat 24) by lia. revert Hv.
  pattern v. revert v H. apply below_cases. by_cases 24.
Qed.

Lemma match_minute (v : Z) (rest : string) :
  0 <= v < 60 ->
  match_first [[RxRange "0" "5"; RxDigit]; [RxDigit]] (pad 2 v +:+ rest)
  = Some (pad 2 v, rest).
Proof.
  intros Hv. assert (H : 0 <= v < Z.of_nat 60) by lia. revert Hv.
  pattern v. revert v H. apply below_cases. by_cases 60.
Qed.

Lemma match_second (v : Z) (rest : string) :
  0 <= v < 60 ->
  match_first [[RxChar "6"; RxRange "0" "1"]; [RxRange "0" "5"; RxDigit]; [RxDigit]]
              (pad 2 v +:+ rest) = Some (pad 2 v, rest).
Proof.
  intros Hv. assert (H : 0 <= v < Z.of_nat 60) by lia. revert Hv.
  pattern v. revert v H. apply below_cases. by_cases 60.
Qed.

Lemma match_year (v : Z) (rest : string) :
  match_first [[RxDigit; RxDigit; RxDigit; RxDigit]] (pad 4 v +:+ rest)
  = Some (pad 4 v, rest).
Proof.
  cbn [match_first].
  change [RxDigit; RxDigit; RxDigit; RxDigit] with (repeat RxDigit 4 ++ []).
  rewrite match_seq_pad. cbn [match_seq]. rewrite string_app_nil_r. reflexivity.
Qed.

Lemma valid_datetime_bounds (t : datetime) :
  valid_datetime t = true ->
  1 <= year t <= 9999 /\ 1 <= month t <= 12 /\ 1 <= day t <= 31
  /\ 0 <= hour t < 24 /\ 0 <= minute t < 60 /\ 0 <= second t < 60.
Proof.
  intros Hv. unfold valid_datetime in Hv.
  repeat (apply andb_prop in Hv as [Hv ?]).
  repeat match goal with
         | H : (_ <=? _) = true |- _ => apply Z.leb_le in H
         | H : (_ <? _) = true |- _ => apply Z.ltb_lt in H
         end.
  pose proof (days_in_month_le (year t) (month t)). lia.
Qed.

Lemma valid_whole_second (t : datetime) :
  valid_datetime t = true -> valid_datetime (whole_second t) = true.
Proof.
  intros Hv. unfold valid_datetime in *. cbn [whole_second year month day hour minute second microsecond].
  repeat (apply andb_prop in Hv as [Hv ?]).
  repeat (apply andb_true_intro; split); try assumption; reflexivity.
Qed.

(** The name [Track.save] gives a file parses back to the time it was
    formatted from, without the microseconds. *)
Lemma strptime_strftime (t : datetime) :
  valid_datetime t = true -> strptime format_compact (strftime t) = Ok (whole_second t).
Proof.
  intros Hv. pose proof (valid_datetime_bounds t Hv) as (Hy & Hm & Hd & HH & HM & HS).
  rewrite (strptime_head _ _ [(FYear, pad 4 (year t)); (FMonth, pad 2 (month t));
                              (FDay, pad 2 (day t)); (FHour, pad 2 (hour t));
                              (FMinute, pad 2 (minute t)); (FSecond, pad 2 (second t))]).
  - cbn [fold_left set_field year month day hour minute second microsecond].
    rewrite !int_digits_exact
      by (change (10 ^ Z.of_nat 4) with 10000 || change (10 ^ Z.of_nat 2) with 100; lia).
    change (mk_datetime (year t) (month t) (day t) (hour t) (minute t) (second t) 0)
      with (whole_second t).
    cbv zeta. rewrite (valid_whole_second t Hv). reflexivity.
  - unfold strftime, format_compact, directive_Y, directive_m, directive_d, directive_H,
      directive_M, directive_S.
    eapply head_matches_directive; [apply match_year |].
    eapply head_matches_directive; [apply match_month; exact Hm |].
    eapply head_matches_directive; [apply match_day; exact Hd |].
    change ("-" +:+ ?s)%string with (String "-" s).
    rewrite head_matches_literal.
    eapply head_matches_directive; [apply match_hour; exact HH |].
    eapply head_matches_directive; [apply match_minute; exact HM |].
    eapply head_matches_directive;
      [rewrite <- (string_app_nil_r (pad 2 (second t))) at 1; apply match_second; exact HS |].
    reflexivity.
Qed.

Lemma match_compact_strftime (t : datetime) (suffix : string) :
  match_first [iso_like_rx; compact_rx] (strftime t +:+ suffix) = Some (strftime t, suffix).
Proof.
  unfold strftime. cbn [match_first].
  rewrite !string_app_assoc.
  change iso_like_rx
    with (repeat RxDigit 4 ++
          [RxChar "-"; RxDigit; RxDigit; RxChar "-"; RxDigit; RxDigit; RxChar "T";
           RxDigit; RxDigit; RxChar "-"; RxDigit; RxDigit; RxChar "-"; RxDigit; RxDigit]).
  rewrite match_seq_pad.
  change (pad 2 (month t)) with (String (digit_char ((month t / 10 ^ Z.of_nat 1) mod 10))
                                        (pad 1 (month t))) at 1.
  rewrite string_app_cons. cbn [match_seq rx_match].
  rewrite digit_char_neq by (apply pad_digit || (vm_compute; lia)).
  change compact_rx
    with (repeat RxDigit 4 ++ repeat RxDigit 2 ++ repeat RxDigit 2 ++
          RxChar "-" :: repeat RxDigit 2 ++ repeat RxDigit 2 ++ repeat RxDigit 2 ++ []).
  rewrite (match_seq_pad 4), (match_seq_pad 2 (month t)), (match_seq_pad 2 (day t)).
  change ("-" +:+ ?s)%string with (String "-" s).
  cbn [match_seq rx_match Ascii.eqb Bool.eqb].
  rewrite (match_seq_pad 2 (hour t)), (match_seq_pad 2 (minute t)),
    (match_seq_pad 2 (second t)).
  cbn [match_seq]. rewrite string_app_nil_r. reflexivity.
Qed.

Lemma re_search_strftime (t : datetime) (suffix : string) :
  re_search [iso_like_rx; compact_rx] (strftime t +:+ suffix) = Some (strftime t).
Proof.
  destruct (strftime t +:+ suffix) as [| c s] eqn:E;
    cbn [re_search]; rewrite <- E, match_compact_strftime; reflexivity.
Qed.

Lemma str_has_strftime (t : datetime) :
  str_has "-" (strftime t) = true /\ str_has ":" (strftime t) = false.
Proof.
  unfold strftime. rewrite !str_has_app.
  rewrite !(str_has_pad ":") by (vm_compute; lia).
  split; [| reflexivity].
  change (str_has "-" "-") with true. rewrite !orb_true_r. reflexivity.
Qed.

Lemma extract_track_datetime_strftime (t : datetime) (suffix : string) (w : world) :
  valid_datetime t = true ->
  extract_track_datetime (strftime t +:+ suffix) w
  = (w, Ok (VStr (isoformat "T" (whole_second t)))).
Proof.
  intros Hv. unfold extract_track_datetime.
  rewrite re_search_strftime.
  destruct (str_has_strftime t) as [-> ->]. cbn [andb negb].
  rewrite strptime_strftime by exact Hv. reflexivity.
Qed.

(** A file named as [Track.save] and the checkpoints name theirs, by
    [strftime("%Y%m%d-%H%M%S")] followed by anything, gets as its
    ["track_datetime"] the ISO form of that time to the second; nothing is
    logged. *)
Theorem saved_name_gives_its_time (t : datetime) (suffix : string) (w : world) :
  valid_datetime t = true ->
  extract_track_datetime (strftime t +:+ suffix) w
  = (w, Ok (VStr (isoformat "T" (whole_second t)))).
Proof. apply extract_track_datetime_strftime. Qed.

Lemma saved_name_gives_its_time_witness :
  extract_track_datetime (strftime noon +:+ "-full.chk.json") quiet_world
  = (quiet_world, Ok (VStr (isoformat "T" (whole_second noon)))).
Proof. apply (saved_name_gives_its_time noon "-full.chk.json" quiet_world). reflexivity. Defined.

(** The metadata of a track saved under its default name: the sample
    count is the number of samples exported, and the date read from the
    name is the time of the save, to the second. *)
Theorem saved_track_metadata (interval : slice) (t : Track) (w : world) :
  let now := clock w (tick w) in
  let p := (output_dir t, strftime now +:+ "." +:+ "json") in
  valid_datetime now = true -> p ∉ unwritable w ->
  exists w' f data,
    save (FmtStr "json") None None (Some interval) (t, w) = ((t, w'), Ok tt)
    /\ files w' !! p = Some f
    /\ json_load (f_content f) = Ok data
    /\ extract_datapoint_count data
       = Ok (VInt (len (select (Some interval) (data_points t))))
    /\ forall w0, extract_track_datetime (snd p) w0
                  = (w0, Ok (VStr (isoformat "T" (whole_second now)))).
Proof.
  intros now p Hv Hw.
  destruct (save_default_spec interval t w) as (w' & Es & _ & Hf).
  fold now in Hf. fold p in Hf.
  rewrite bool_decide_eq_false_2 in Hf by exact Hw.
  exists w'. eexists. eexists. split; [exact Es |].
  split; [rewrite Hf; apply lookup_insert_eq |].
  cbn [f_content json_load]. split; [reflexivity |].
  split.
  - cbn [extract_datapoint_count]. rewrite length_map. reflexivity.
  - intros w0. subst p. cbn [snd]. apply extract_track_datetime_strftime. exact Hv.
Qed.

Lemma saved_track_metadata_witness :
  exists w' f data,
    save (FmtStr "json") None None (Some (mk_slice None None))
         (track_of 5 "continuous" None [sample 1; sample 2], quiet_world)
    = ((track_of 5 "continuous" None [sample 1; sample 2], w'), Ok tt)
    /\ files w' !! ("data"%string, (strftime noon +:+ "." +:+ "json")%string) = Some f
    /\ json_load (f_content f) = Ok data
    /\ extract_datapoint_count data = Ok (VInt 2).
Proof.
  destruct (saved_track_metadata (mk_slice None None)
              (track_of 5 "continuous" None [sample 1; sample 2]) quiet_world)
    as (w' & f & data & E & Hf & Hj & Hc & _);
    [reflexivity | vm_compute; intros H; discriminate H |].
  exists w', f, data. repeat split; assumption.
Defined.

(** *** Names in the ISO-like form *)

Lemma match_seq_text (pat : list rx) (s txt rest : string) :
  match_seq pat s = Some (txt, rest) ->
  s = txt +:+ rest /\ match_seq pat txt = Some (txt, ""%string).
Proof.
  revert s txt rest. induction pat as [| r pat IH]; intros s txt rest H.
  - cbn in H. injection H as <- <-. split; reflexivity.
  - destruct s as [| c s]; [discriminate |]. cbn [match_seq] in H |- *.
    destruct (rx_match r c) eqn:Hr; [| discriminate].
    destruct (match_seq pat s) as [[txt' rest'] |] eqn:Hm; [| discriminate].
    injection H as <- <-. destruct (IH _ _ _ Hm) as [-> Hm'].
    split; [reflexivity |]. cbn [match_seq]. rewrite Hr, Hm'. reflexivity.
Qed.

Lemma match_first_found (alts : list (list rx)) (s txt rest : string) :
  match_first alts s = Some (txt, rest) ->
  exists alt, alt ∈ alts /\ match_seq alt s = Some (txt, rest).
Proof.
  induction alts as [| alt alts IH]; [discriminate |]. cbn [match_first].
  destruct (match_seq alt s) as [m |] eqn:Hm.
  - intros [= ->]. exists alt. split; [left | exact Hm].
  - intros H. destruct (IH H) as (a & Ha & Hs). exists a. split; [right; exact Ha | exact Hs].
Qed.

Lemma re_search_found (alts : list (list rx)) (s txt : string) :
  re_search alts s = Some txt ->
  exists alt, alt ∈ alts /\ match_seq alt txt = Some (txt, ""%string).
Proof.
  induction s as [| c s IH]; cbn [re_search];
    destruct (match_first alts _) as [[txt' rest] |] eqn:Hm.
  - intros [= ->]. destruct (match_first_found _ _ _ _ Hm) as (alt & Ha & Hs).
    exists alt. split; [exact Ha | apply (match_seq_text _ _ _ _ Hs)].
  - discriminate.
  - intros [= ->]. destruct (match_first_found _ _ _ _ Hm) as (alt & Ha & Hs).
    exists alt. split; [exact Ha | apply (match_seq_text _ _ _ _ Hs)].
  - exact IH.
Qed.

(** The characters of a matched text satisfy the patterns. *)
Lemma match_seq_lacks (c : ascii) (pat : list rx) (s txt rest : string) :
  (forall r, r ∈ pat -> rx_match r c = false) ->
  match_seq pat s = Some (txt, rest) -> str_has c txt = false.
Proof.
  revert s txt rest. induction pat as [| r pat IH]; intros s txt rest Hc H.
  - cbn in H. injection H as <- <-. reflexivity.
  - destruct s as [| x s]; [discriminate |]. cbn [match_seq] in H.
    destruct (rx_match r x) eqn:Hr; [| discriminate].
    destruct (match_seq pat s) as [[txt' rest'] |] eqn:Hm; [| discriminate].
    injection H as <- <-. cbn [str_has].
    rewrite (IH _ _ _ (fun r0 Hin => Hc r0 (list_elem_of_further _ _ _ Hin)) Hm), orb_false_r.
    apply Ascii.eqb_neq. intros ->. rewrite (Hc r) in Hr by left. discriminate.
Qed.

Lemma match_seq_has (c : ascii) (pat : list rx) (s txt rest : string) :
  RxChar c ∈ pat -> match_seq pat s = Some (txt, rest) -> str_has c txt = true.
Proof.
  revert s txt rest. induction pat as [| r pat IH]; intros s txt rest Hin H.
  - apply elem_of_nil in Hin. contradiction.
  - destruct s as [| x s]; [discriminate |]. cbn [match_seq] in H.
    destruct (rx_match r x) eqn:Hr; [| discriminate].
    destruct (match_seq pat s) as [[txt' rest'] |] eqn:Hm; [| discriminate].
    injection H as <- <-. cbn [str_has].
    apply elem_of_cons in Hin as [<- | Hin].
    + cbn [rx_match] in Hr. rewrite Hr. reflexivity.
    + rewrite (IH _ _ _ Hin Hm). apply orb_true_r.
Qed.

Lemma found_text_marks (alt : list rx) (txt : string) :
  alt ∈ [iso_like_rx; compact_rx] -> match_seq alt txt = Some (txt, ""%string) ->
  str_has "-" txt = true /\ str_has ":" txt = false.
Proof.
  intros Ha Hm. split.
  - apply (match_seq_has "-" alt txt txt "" ); [| exact Hm].
    apply elem_of_cons in Ha as [-> | Ha];
      [| apply list_elem_of_singleton in Ha as ->];
      unfold iso_like_rx, compact_rx; repeat (first [left | right]).
  - apply (match_seq_lacks ":" alt txt txt ""); [| exact Hm].
    intros r Hr.
    apply elem_of_cons in Ha as [-> | Ha];
      [| apply list_elem_of_singleton in Ha as ->];
      unfold iso_like_rx, compact_rx in Hr;
      repeat (apply elem_of_cons in Hr as [-> | Hr]; [reflexivity |]);
      apply elem_of_nil in Hr; contradiction.
Qed.

Lemma match_seq_cons_inv (r : rx) (pat : list rx) (s txt rest : string) :
  match_seq (r :: pat) s = Some (txt, rest) ->
  exists c s' txt',
    s = String c s' /\ rx_match r c = true
    /\ match_seq pat s' = Some (txt', rest) /\ txt = String c txt'.
Proof.
  destruct s as [| c s]; [discriminate |]. cbn [match_seq].
  destruct (rx_match r c) eqn:Hr; [| discriminate].
  destruct (match_seq pat s) as [[txt' rest'] |] eqn:Hm; [| discriminate].
  intros [= <- <-]. exists c, s, txt'. repeat split; assumption.
Qed.

(** A text that starts as the ISO-like form starts with four digits and a
    dash. *)
Lemma iso_like_start (s : string) :
  is_Some (match_seq iso_like_rx s) ->
  exists c1 c2 c3 c4 s',
    s = String c1 (String c2 (String c3 (String c4 (String "-" s'))))
    /\ rx_match RxDigit c1 = true /\ rx_match RxDigit c2 = true
    /\ rx_match RxDigit c3 = true /\ rx_match RxDigit c4 = true.
Proof.
  intros [[txt rest] H]. unfold iso_like_rx in H.
  apply match_seq_cons_inv in H as (c1 & s1 & t1 & -> & H1 & H & _).
  apply match_seq_cons_inv in H as (c2 & s2 & t2 & -> & H2 & H & _).
  apply match_seq_cons_inv in H as (c3 & s3 & t3 & -> & H3 & H & _).
  apply match_seq_cons_inv in H as (c4 & s4 & t4 & -> & H4 & H & _).
  apply match_seq_cons_inv in H as (c5 & s5 & t5 & -> & H5 & H & _).
  cbn [rx_match] in H5. apply Ascii.eqb_eq in H5. subst c5.
  exists c1, c2, c3, c4, s5. repeat split; assumption.
Qed.

Lemma iso_like_no_compact_parse (txt : string) :
  is_Some (match_seq iso_like_rx txt) -> matches format_compact txt = [].
Proof.
  intros H. apply iso_like_start in H as (c1 & c2 & c3 & c4 & s' & -> & H1 & H2 & H3 & H4).
  unfold format_compact, directive_Y. cbn [matches flat_map match_seq].
  rewrite H1, H2, H3, H4. reflexivity.
Qed.

Lemma set_fields_microsecond (gs : list (dt_field * string)) (t : datetime) :
  microsecond (fold_left (fun t '(fld, txt) => set_field fld txt t) gs t) = microsecond t.
Proof.
  revert t. induction gs as [| [fld txt] gs IH]; intros t; [reflexivity |].
  cbn [fold_left]. rewrite IH. destruct fld; reflexivity.
Qed.

Lemma strptime_result (fmt : list fmt_item) (s : string) :
  (exists t, strptime fmt s = Ok t /\ valid_datetime t = true /\ microsecond t = 0)
  \/ exists msg, strptime fmt s = Raise (ValueError msg).
Proof.
  unfold strptime. destruct (matches fmt s) as [| [gs rest] l]; [right; eexists; reflexivity |].
  destruct (String.eqb rest ""); [| right; eexists; reflexivity].
  cbv zeta.
  destruct (valid_datetime _) eqn:Hv; [| right; eexists; reflexivity].
  left. eexists. split; [reflexivity |]. split; [exact Hv |].
  apply set_fields_microsecond.
Qed.

(** [extract_track_datetime] never raises and touches no file: it gives
    [None] or the ISO form of a valid time to the second. The test that
    chooses between its two parsers holds for every text the pattern can
    find, so a name in the ISO-like form [YYYY-MM-DDTHH-MM-SS] is handed to
    the parser of the compact form, which rejects it: such a name gets
    [None] and a warning. *)
Theorem iso_like_names_get_no_datetime (name : string) (w : world) :
  exists w' v,
    extract_track_datetime name w = (w', Ok v)
    /\ files w' = files w
    /\ (v = VNone
        \/ exists t, v = VStr (isoformat "T" t) /\ valid_datetime t = true
                     /\ microsecond t = 0)
    /\ forall txt,
         re_search [iso_like_rx; compact_rx] name = Some txt ->
         is_Some (match_seq iso_like_rx txt) ->
         v = VNone /\ w' = add_log "warning" "Date parsing error" w.
Proof.
  unfold extract_track_datetime.
  destruct (re_search [iso_like_rx; compact_rx] name) as [txt |] eqn:Hs.
  2:{ exists w, VNone. split; [reflexivity |]. split; [reflexivity |].
      split; [left; reflexivity | discriminate]. }
  destruct (re_search_found _ _ _ Hs) as (alt & Ha & Hm).
  destruct (found_text_marks alt txt Ha Hm) as [-> ->]. cbn [andb negb].
  destruct (strptime_result format_compact txt) as [(t & E & Hv & Hus) | (msg & E)].
  - rewrite E. exists w, (VStr (isoformat "T" t)).
    split; [reflexivity |]. split; [reflexivity |].
    split; [right; exists t; repeat split; assumption |].
    intros txt' [= <-] Hiso.
    unfold strptime in E. rewrite (iso_like_no_compact_parse txt Hiso) in E. discriminate.
  - rewrite E. exists (add_log "warning" "Date parsing error" w), VNone.
    split; [reflexivity |]. split; [reflexivity |].
    split; [left; reflexivity |].
    intros txt' _ _. split; reflexivity.
Qed.

Lemma iso_like_names_get_no_datetime_witness :
  exists w' v,
    extract_track_datetime "2024-01-02T12-00-00.json" quiet_world = (w', Ok v)
    /\ v = VNone.
Proof.
  destruct (iso_like_names_get_no_datetime "2024-01-02T12-00-00.json" quiet_world)
    as (w' & v & E & _ & _ & H).
  exists w', v. split; [exact E |].
  apply (H "2024-01-02T12-00-00"%string); [vm_compute; reflexivity |].
  eexists. vm_compute. reflexivity.
Defined.

(** ** [format_duration] *)

(** [format_duration] gives ["N/A"] for [None], for a NaN and for whatever
    [int()] rejects with [ValueError] or [TypeError]; any other exception
    of [int()] reaches the caller, and so an infinite float raises
    [OverflowError]. A number is cut to an integer towards zero and split
    by floor division, so that minutes and seconds are within [0, 60) also
    for a negative duration. *)
Theorem format_duration_cases (a : duration_arg) :
  match a with
  | DurNone | DurFloat S754_nan => format_duration a = Ok "N/A"%string
  | DurFloat (S754_infinity _) => format_duration a = Raise OverflowError
  | DurRejected e =>
      format_duration a
      = if is_ValueError_or_TypeError e then Ok "N/A"%string else Raise e
  | _ =>
      exists n h m s,
        (a = DurInt n \/ exists x, a = DurFloat x /\ F64.to_int x = Ok n)
        /\ format_duration a
           = Ok (str_of_int h +:+ "h:" +:+ str_of_int m +:+ "m:" +:+ str_of_int s +:+ "s")
        /\ n = h * 3600 + m * 60 + s /\ 0 <= m < 60 /\ 0 <= s < 60
  end.
Proof.
  assert (Hsplit : forall n, n = n / 3600 * 3600 + n mod 3600 / 60 * 60 + n mod 3600 mod 60
                             /\ 0 <= n mod 3600 / 60 < 60 /\ 0 <= n mod 3600 mod 60 < 60).
  { intros n. pose proof (Z.mod_pos_bound n 3600 ltac:(lia)).
    pose proof (Z.div_mod n 3600 ltac:(lia)).
    pose proof (Z.div_mod (n mod 3600) 60 ltac:(lia)).
    pose proof (Z.mod_pos_bound (n mod 3600) 60 ltac:(lia)).
    assert (0 <= n mod 3600 / 60) by (apply Z.div_pos; lia).
    assert (n mod 3600 / 60 < 60) by (apply Z.div_lt_upper_bound; lia).
    lia. }
  destruct a as [| n | x | e]; try reflexivity.
  - exists n, (n / 3600), (n mod 3600 / 60), (n mod 3600 mod 60).
    split; [left; reflexivity |]. split; [reflexivity | apply Hsplit].
  - destruct x as [b | b | | b mx ex]; try reflexivity.
    + exists 0, 0, 0, 0. split; [right; eexists; split; reflexivity |].
      split; [reflexivity | lia].
    + cbn [format_duration]. 
      destruct (F64.to_int (S754_finite b mx ex)) as [n |] eqn:E; [| discriminate].
      exists n, (n / 3600), (n mod 3600 / 60), (n mod 3600 mod 60).
      split; [right; eexists; split; [reflexivity | exact E] |].
      split; [reflexivity | apply Hsplit].
Qed.

(** ** [export_track] *)

(** The last step of [export_track]: the format is added to the records
    of the file, whether the write that follows returns or raises. *)
Lemma record_export (los : list pyval -> list pyval) (track : doc) (elems : list pyval)
    (fmt : string) (D : Database) (w : world) :
  exists D' r,
    update_track_metadata (d_filename track)
      {[ "exports" := VList (los (elems ++ [VStr fmt])) ]} (D, w) = ((D', w), r)
    /\ (r = Ok tt \/ r = Raise TypeError)
    /\ ((S (db_unflushed D) < WRITE_CACHE_SIZE)%nat -> r = Ok tt)
    /\ length (db D') = length (db D)
    /\ (forall d', d' ∈ docs_of (d_filename track) (db D') ->
          d_fields d' !! "exports" = Some (VList (los (elems ++ [VStr fmt]))))
    /\ (forall g, g <> d_filename track -> docs_of g (db D') = docs_of g (db D)).
Proof.
  set (meta := mk_doc (d_filename track)
                      {[ "exports" := VList (los (elems ++ [VStr fmt])) ]} None).
  set (upd := fun '((i, old) : nat * doc) =>
                if String.eqb (d_filename old) (d_filename track)
                then (i, doc_update meta old) else (i, old)).
  assert (Hrows : length (map upd (db D)) = length (db D)
                  /\ (forall d', d' ∈ docs_of (d_filename track) (map upd (db D)) ->
                        d_fields d' !! "exports" = Some (VList (los (elems ++ [VStr fmt]))))
                  /\ (forall g, g <> d_filename track ->
                        docs_of g (map upd (db D)) = docs_of g (db D))).
  { split; [apply length_map |]. split.
    - intros d' Hd. subst upd. rewrite (docs_of_update _ (d_filename track) meta) in Hd
        by reflexivity.
      rewrite decide_True in Hd by reflexivity.
      apply list_elem_of_fmap in Hd as (old & -> & _).
      cbn [doc_update d_fields meta]. rewrite lookup_union, lookup_singleton_eq.
      destruct (d_fields old !! "exports"); reflexivity.
    - intros g Hg. subst upd. rewrite (docs_of_update _ (d_filename track) meta) by reflexivity.
      rewrite decide_False by exact Hg. reflexivity. }
  unfold update_track_metadata. unfold bind at 1.
  destruct (db_update_spec meta (d_filename track) D w) as (n & st & rr & Eu & Hrr & Hlow & _).
  fold meta. rewrite Eu. fold upd.
  destruct Hrr as [-> | ->].
  - eexists _, _. split; [reflexivity |]. cbn [db set_tracks set_db set_unflushed].
    split; [left; reflexivity |]. split; [reflexivity |]. exact Hrows.
  - eexists _, _. split; [reflexivity |]. cbn [db set_tracks set_db set_unflushed].
    split; [right; reflexivity |].
    split; [intros Hlt; specialize (Hlow Hlt); discriminate |]. exact Hrows.
Qed.

(** When the export file is already there, [export_track] loads and
    writes nothing, whether or not the track file still exists: it only
    adds the format to the ["exports"] of the records of that file. The
    call returns no message, or raises the [TypeError] of a cache flush
    after the records are updated; it returns when the write stays below
    the cache size. *)
Theorem export_track_skips_existing_file (los : list pyval -> list pyval) (id : track_id)
    (fmt : string) (D : Database) (w : world) (track : doc) (elems : list pyval) :
  looked_up id (db_all D) = Some track ->
  w_exists (export_path_of D track fmt) w = true ->
  py_set_elems (default (VList []) (d_fields track !! "exports")) = Ok elems ->
  exists D' w' r,
    export_track los id fmt (D, w) = ((D', w'), r)
    /\ (r = Ok None \/ r = Raise TypeError)
    /\ ((S (db_unflushed D) < WRITE_CACHE_SIZE)%nat -> r = Ok None)
    /\ files w' = files w
    /\ length (db D') = length (db D)
    /\ (forall d', d' ∈ docs_of (d_filename track) (db D') ->
          d_fields d' !! "exports" = Some (VList (los (elems ++ [VStr fmt]))))
    /\ (forall g, g <> d_filename track -> docs_of g (db D') = docs_of g (db D)).
Proof.
  intros Hlook Hex Helems.
  unfold export_track. unfold bind at 1, on_db at 1.
  unfold bind at 1, this at 1.
  set (D1 := set_tracks (db_all D) D).
  change (match id with
          | IdInt i =>
              if (0 <=? i) && (i <? Z.of_nat (length (tracks D1)))
              then tracks D1 !! Z.to_nat i else None
          | IdStr name => head (filter (fun t => d_filename t = name) (tracks D1))
          | IdOther => None
          end) with (looked_up id (db_all D)).
  rewrite Hlook.
  unfold bind at 1, get at 1. cbn [snd].
  change (directory D1, splitext_root (d_filename track) +:+ "." +:+ fmt)
    with (export_path_of D track fmt).
  rewrite Hex.
  unfold bind at 1. unfold bind at 1. rewrite in_world_db_log. cbn [ret].
  unfold bind at 1, lift at 1. rewrite Helems.
  destruct (record_export los track elems fmt D1
              (add_log "info" "already exists, skipping regeneration" w))
    as (D' & ru & Eu & Hru & Hlow & Hlen & Hexp & Hoth).
  unfold bind at 1. rewrite Eu.
  destruct Hru as [-> | ->].
  - exists D', (add_log "info" "already exists, skipping regeneration" w), (Ok None).
    split; [reflexivity |]. split; [left; reflexivity |]. split; [reflexivity |].
    split; [reflexivity |].
    split; [exact Hlen |]. split; [exact Hexp | exact Hoth].
  - exists D', (add_log "info" "already exists, skipping regeneration" w), (Raise TypeError).
    split; [reflexivity |]. split; [right; reflexivity |].
    split; [intros Hlt; specialize (Hlow Hlt); discriminate |].
    split; [reflexivity |].
    split; [exact Hlen |]. split; [exact Hexp | exact Hoth].
Qed.

Lemma export_track_skips_existing_file_witness :
  exists D' w',
    export_track (fun l => l) (IdStr "a.json") "csv" (index_of [(1%nat, clean_record)], track_world)
    = ((D', w'), Ok None)
    /\ files w' = files track_world
    /\ forall d', d' ∈ docs_of "a.json" (db D') ->
         d_fields d' !! "exports" = Some (VList [VStr "csv"]).
Proof.
  destruct (export_track_skips_existing_file (fun l => l) (IdStr "a.json") "csv"
              (index_of [(1%nat, clean_record)]) track_world clean_record [])
    as (D' & w' & r & E & _ & Hlow & Hf & _ & Hexp & _);
    [reflexivity | vm_compute; reflexivity | reflexivity |].
  exists D', w'. split; [rewrite E, Hlow by (vm_compute; lia); reflexivity |].
  split; [exact Hf | exact Hexp].
Defined.








